(** * Survey backend: answer submission, completion accounting, reporting

    A shallow embedding of the request handlers of [controller/user.py] and
    [controller/admin.py] over the relational schema of [database/models.py],
    and the properties of the answer upsert, of completion accounting and of
    the rating aggregates.

    Conventions of the embedding:
    - A table is the list of its rows in storage order; [.all()] is the
      filtered list and [.first()] its head. A handler that writes returns
      the store it leaves behind.
    - A nullable column is an [option]; Python truthiness is written out.
    - Every SQL statement succeeds: the [except] branches that only catch
      database failures are not embedded.
    - A handler returns its body or the [HTTPException] it raises; bodies
      keep timestamps and ids as values instead of their renderings.
    - A string is the sequence of its code points, one [ascii] each: the
      strings of the embedding are those of code points below 256, and
      white space among them is what [str.isspace] accepts (the ASCII
      controls and the space, U+0085 and U+00A0).
    - The server clock, [datetime.fromisoformat], the text-generation
      service, the SMTP relay and the rendering of numbers are parameters of
      the handlers that use them.
    - A Python [float] is the rational number it stands for: a result in
      floating point is the exact result rounded by [binary64] to 53
      significant bits, ties to even. The quantities computed here (ratings,
      counts of rows and their quotients) lie far inside the exponent range
      of a double, which is left unbounded. [statistics] is that of
      Python 3.11 and later, whose [stdev] is the correctly rounded square
      root of the exact sample variance. [round(x, ndigits)] is kept as the
      decimal it prints as. *)

From Stdlib Require Import ZArith QArith Qround Qabs Qpower String Ascii List Lia Lqa.
From stdpp Require Import base tactics decidable option list gmap strings pretty.

Local Open Scope string_scope.
Local Open Scope Z_scope.
Local Open Scope list_scope.

(** ** Values *)

(** [uuid.UUID]: a 128-bit number. *)
Definition UUID : Type := N.

(** [datetime.datetime]: a point on the time line in microseconds, and the
    UTC offset in minutes of an aware value ([None] for a naive one). *)
Record datetime : Type := mk_datetime {
  dt_micros : Z;
  dt_utcoffset : option Z
}.

#[global] Instance datetime_eq_dec : EqDecision datetime.
Proof. solve_decision. Defined.

(** What a handler gives back: the returned body, or the [HTTPException]
    it raised. *)
Inductive response (A : Type) : Type :=
  | Return (body : A)
  | HTTPException (status_code : Z) (detail : string).
Arguments Return {A} body.
Arguments HTTPException {A} status_code detail.

(** ** Schema ([database/models.py]) *)

Module Company.
Record t : Type := mk {
  id : Z;
  name : string;
  created_at : option datetime
}.
End Company.

Module Section_.
Record t : Type := mk {
  id : Z;
  label : option string;
  title : option string;
  company_id : option Z;
  created_at : option datetime
}.
End Section_.

Module Question.
Record t : Type := mk {
  id : Z;
  section_id : option Z;
  question : option string;
  created_at : option datetime;
  rating_3_text : option string;
  rating_neg3_text : option string;
  show_rating_scale : bool;
  subject : option string
}.
End Question.

Module UserAnswer.
Record t : Type := mk {
  id : Z;
  question_id : Z;
  user_id : UUID;
  answer : option string;
  rating : option Z;
  feedback : option string;
  feedback_generated : bool;
  submitted_at : option datetime
}.
End UserAnswer.

Module User.
Record t : Type := mk {
  id : Z;
  email : string;
  name : string;
  hashed_password : string;
  company_id : option Z;
  created_at : option datetime
}.
End User.

Module Profile.
Record t : Type := mk {
  id : UUID;
  email : string;
  name : string;
  company_id : option Z;
  created_at : option datetime
}.
End Profile.

#[global] Instance question_eq_dec : EqDecision Question.t.
Proof. solve_decision. Defined.

#[global] Instance user_answer_eq_dec : EqDecision UserAnswer.t.
Proof. solve_decision. Defined.

(** The persistence store: one list per table, and the sequence that hands
    out the primary keys of [user_answers]. *)
Record Db : Type := mk_db {
  companies : list Company.t;
  sections : list Section_.t;
  questions : list Question.t;
  user_answers : list UserAnswer.t;
  users : list User.t;
  profiles : list Profile.t;
  user_answers_id_seq : Z
}.

(** ** Request bodies ([controller/basemodel.py]) *)

Module AnswerCreate.
Record t : Type := mk {
  answer : string;
  rating : option Z
}.
End AnswerCreate.

Module AnswerSubmit.
Record t : Type := mk {
  question_id : Z;
  answer : string;
  rating : option Z;
  submitted_at : option string
}.
End AnswerSubmit.

(** The identity [get_current_user] resolves: a [Profile] or, as a fallback,
    an integer-keyed [User]. *)
Inductive current_user : Type :=
  | IsProfile (p : Profile.t)
  | IsUser (u : User.t).

(** ** Strings *)

(** [s.replace(old, new)] for a one-character [old]. *)
Fixpoint replace (old : ascii) (new : string) (s : string) : string :=
  match s with
  | EmptyString => EmptyString
  | String c s' =>
      if Ascii.eqb c old then String.append new (replace old new s')
      else String c (replace old new s')
  end.

(** The white space of [str.isspace], [str.strip], [str.split] and of [\s]
    in a [str] pattern, by code point: U+0009 to U+000D, U+001C to U+0020,
    U+0085, U+00A0, U+1680, U+2000 to U+200A, U+2028, U+2029, U+202F, U+205F
    and U+3000. *)
Definition is_whitespace (code : N) : bool :=
  match code with
  | 9%N | 10%N | 11%N | 12%N | 13%N | 28%N | 29%N | 30%N | 31%N | 32%N
  | 133%N | 160%N | 5760%N | 8232%N | 8233%N | 8239%N | 8287%N | 12288%N =>
      true
  | _ => (8192 <=? code)%N && (code <=? 8202)%N
  end.

(** [c.isspace()] *)
Definition isspace (c : ascii) : bool := is_whitespace (N_of_ascii c).

Fixpoint lstrip (s : string) : string :=
  match s with
  | EmptyString => EmptyString
  | String c s' => if isspace c then lstrip s' else s
  end.

Fixpoint rstrip (s : string) : string :=
  match s with
  | EmptyString => EmptyString
  | String c s' =>
      match rstrip s' with
      | EmptyString => if isspace c then EmptyString else String c EmptyString
      | r => String c r
      end
  end.

(** [s.strip()] *)
Definition strip (s : string) : string := rstrip (lstrip s).

Fixpoint all_space (s : string) : bool :=
  match s with
  | EmptyString => true
  | String c s' => isspace c && all_space s'
  end.

(** Truthiness of a nullable string: neither [None] nor empty. *)
Definition truthy_str (s : option string) : bool :=
  match s with
  | Some s => negb (String.eqb s "")
  | None => false
  end.

(** ** Queries *)

(** [query.filter(...).first()] *)
Definition first {A} (P : A → Prop) `{!∀ x, Decision (P x)} (rows : list A)
  : option A :=
  head (filter P rows).

(** ** Answer submission ([controller/user.py]) *)

Section Submission.

(** [datetime.fromisoformat]: [None] when it raises. *)
Variable fromisoformat : string → option datetime.

(** The [submitted_at] an answer of the batch is stored with; [now] is
    what [datetime.now()] returns at that point. *)
Definition resolve_submitted_at (now : datetime) (submitted_at : option string)
  : datetime :=
  if truthy_str submitted_at then
    let s := default "" submitted_at in
    match fromisoformat (replace "Z" "+00:00" s) with
    | Some d => d
    | None =>
        match fromisoformat s with
        | Some d => d
        | None => now
        end
    end
  else now.

Definition answer_of (user_id : UUID) (question_id : Z) (a : UserAnswer.t) : Prop :=
  UserAnswer.user_id a = user_id ∧ UserAnswer.question_id a = question_id.

#[global] Instance answer_of_dec u q a : Decision (answer_of u q a).
Proof. unfold answer_of. apply _. Defined.

(** Assigning [answer], [rating] and [submitted_at] on a loaded row: the
    row with that primary key is rewritten. *)
Definition overwrite (answer : string) (rating : option Z) (submitted_at : datetime)
  (a : UserAnswer.t) : UserAnswer.t :=
  UserAnswer.mk (UserAnswer.id a) (UserAnswer.question_id a) (UserAnswer.user_id a)
    (Some answer) rating
    (UserAnswer.feedback a) (UserAnswer.feedback_generated a) (Some submitted_at).

(** [UPDATE user_answers SET ... WHERE id = :id] *)
Definition rewrite_row (id : Z) (f : UserAnswer.t → UserAnswer.t) (a : UserAnswer.t)
  : UserAnswer.t :=
  if decide (UserAnswer.id a = id) then f a else a.

Definition update_answer (id : Z) (f : UserAnswer.t → UserAnswer.t) (db : Db) : Db :=
  mk_db (companies db) (sections db) (questions db)
    (rewrite_row id f <$> user_answers db)
    (users db) (profiles db) (user_answers_id_seq db).

(** [UserAnswer(question_id=..., user_id=..., answer=..., feedback=None,
    feedback_generated=False, rating=..., submitted_at=...)] under the
    primary key [id]. *)
Definition new_row (id question_id : Z) (user_id : UUID) (answer : string)
  (rating : option Z) (submitted_at : datetime) : UserAnswer.t :=
  UserAnswer.mk id question_id user_id (Some answer) rating None false
    (Some submitted_at).

(** [db.add(row)] followed by a flush: the row is appended under the next
    value of the sequence. *)
Definition add_answer (question_id : Z) (user_id : UUID) (answer : string)
  (rating : option Z) (submitted_at : datetime) (db : Db) : Z * Db :=
  let id := user_answers_id_seq db in
  (id,
   mk_db (companies db) (sections db) (questions db)
     (user_answers db ++ [new_row id question_id user_id answer rating submitted_at])
     (users db) (profiles db) (id + 1)).

(** One iteration of the loop of [submit_answers]: the store and
    [saved_answers] before and after. *)
Definition submit_answers_step (user_id : UUID) (now : datetime)
  (answer_data : AnswerSubmit.t) (st : Db * list (Z * Z)) : Db * list (Z * Z) :=
  let '(db, saved_answers) := st in
  let question_id := AnswerSubmit.question_id answer_data in
  match first (λ q, Question.id q = question_id) (questions db) with
  | None => st
  | Some _ =>
      let submitted_at :=
        resolve_submitted_at now (AnswerSubmit.submitted_at answer_data) in
      match first (answer_of user_id question_id) (user_answers db) with
      | Some db_answer =>
          (update_answer (UserAnswer.id db_answer)
             (overwrite (AnswerSubmit.answer answer_data)
                (AnswerSubmit.rating answer_data) submitted_at) db,
           saved_answers ++ [(question_id, UserAnswer.id db_answer)])
      | None =>
          let '(answer_id, db') :=
            add_answer question_id user_id (AnswerSubmit.answer answer_data)
              (AnswerSubmit.rating answer_data) submitted_at db in
          (db', saved_answers ++ [(question_id, answer_id)])
      end
  end.

(** The loop; [clock i] is the server time during iteration [i]. *)
Fixpoint submit_answers_loop (user_id : UUID) (clock : nat → datetime) (i : nat)
  (answers : list AnswerSubmit.t) (st : Db * list (Z * Z)) : Db * list (Z * Z) :=
  match answers with
  | [] => st
  | answer_data :: rest =>
      submit_answers_loop user_id clock (S i) rest
        (submit_answers_step user_id (clock i) answer_data st)
  end.

Record SubmitAnswersBody : Type := mk_submit_answers_body {
  sab_message : string;
  sab_answers : list (Z * Z)
}.

(** [POST /submit-answer/] *)
Definition submit_answers (clock : nat → datetime) (answers : list AnswerSubmit.t)
  (user : current_user) (db : Db) : response SubmitAnswersBody * Db :=
  match user with
  | IsUser _ =>
      (HTTPException 400 "Please use Profile account to submit answers", db)
  | IsProfile p =>
      let '(db', saved_answers) :=
        submit_answers_loop (Profile.id p) clock 0 answers (db, []) in
      (Return (mk_submit_answers_body
                 (String.append "Successfully saved "
                    (String.append (pretty (length saved_answers)) " answer(s)"))
                 saved_answers),
       db')
  end.

Record SubmitAnswerBody : Type := mk_submit_answer_body {
  sa_message : string;
  sa_answer_id : Z;
  sa_rating : option Z;
  sa_submitted_at : option datetime
}.

(** [POST /submit-answer/{question_id}/] *)
Definition submit_answer (now : datetime) (question_id : Z) (answer : AnswerCreate.t)
  (user : current_user) (db : Db) : response SubmitAnswerBody * Db :=
  match first (λ q, Question.id q = question_id) (questions db) with
  | None => (HTTPException 404 "Question not found", db)
  | Some _ =>
      match user with
      | IsUser _ =>
          (HTTPException 400 "Please use Profile account to submit answers", db)
      | IsProfile p =>
          match first (answer_of (Profile.id p) question_id) (user_answers db) with
          | Some db_answer =>
              (Return (mk_submit_answer_body "Answer saved successfully"
                         (UserAnswer.id db_answer) (AnswerCreate.rating answer)
                         (Some now)),
               update_answer (UserAnswer.id db_answer)
                 (overwrite (AnswerCreate.answer answer)
                    (AnswerCreate.rating answer) now) db)
          | None =>
              let '(answer_id, db') :=
                add_answer question_id (Profile.id p) (AnswerCreate.answer answer)
                  (AnswerCreate.rating answer) now db in
              (Return (mk_submit_answer_body "Answer saved successfully"
                         answer_id (AnswerCreate.rating answer) (Some now)),
               db')
          end
      end
  end.

End Submission.

(** ** Numbers *)

(** The integer nearest to [x], ties going to the even one. *)
Definition round_half_even (x : Q) : Z :=
  let f := Qfloor x in
  match (x - inject_Z f ?= 1 # 2)%Q with
  | Lt => f
  | Gt => f + 1
  | Eq => if Z.even f then f else f + 1
  end.

Fixpoint pow10 (ndigits : nat) : positive :=
  match ndigits with
  | O => 1
  | S n => 10 * pow10 n
  end.

(** [round(x, ndigits)] for a [float] or an [int]: the multiple of
    [10^-ndigits] nearest to the exact value of [x], ties going to the even
    one. *)
Definition round (x : Q) (ndigits : nat) : Q :=
  round_half_even (x * inject_Z (Z.pos (pow10 ndigits))) # pow10 ndigits.

(** The exponent [e] of a positive [x]: [2^e <= x < 2^(e+1)]. *)
Definition binade (x : Q) : Z :=
  let e := Z.log2 (Qnum x) - Z.log2 (Z.pos (Qden x)) in
  if Qle_bool (2 ^ e) x then e else e - 1.

(** The double nearest to [x], ties going to the even significand: the
    result of an operation on floats whose exact result is [x], and
    [float(x)] of a fraction. *)
Definition binary64 (x : Q) : Q :=
  match (x ?= 0)%Q with
  | Eq => 0%Q
  | Gt => let ulp := (2 ^ (binade x - 52))%Q in
          (inject_Z (round_half_even (x / ulp)) * ulp)%Q
  | Lt => let ulp := (2 ^ (binade (- x) - 52))%Q in
          (inject_Z (round_half_even (x / ulp)) * ulp)%Q
  end.

(** [statistics._float_sqrt_of_frac]: the square root of a fraction as a
    float, correctly rounded. The significand is the integer nearest to the
    root scaled into [[2^52, 2^53)], found by comparing the fraction with
    the square of the midpoint. *)
Definition float_sqrt_of_frac (v : Q) : Q :=
  match (v ?= 0)%Q with
  | Gt =>
      let ulp := (2 ^ (binade v / 2 - 52))%Q in
      let y := (v / (ulp * ulp))%Q in
      let m := Z.sqrt (Qfloor y) in
      let half := (inject_Z m + (1 # 2))%Q in
      match (y ?= half * half)%Q with
      | Lt => (inject_Z m * ulp)%Q
      | Gt => (inject_Z (m + 1) * ulp)%Q
      | Eq => (inject_Z (if Z.even m then m else m + 1) * ulp)%Q
      end
  | _ => 0%Q
  end.

(** [statistics._convert(value, int)]: an integral fraction stays the
    [int] it is, any other becomes a [float]. *)
Definition convert (value : Q) : Q :=
  if (Z.pos (Qden (Qred value)) =? 1)%Z then value else binary64 value.

Definition list_sum (data : list Z) : Z := foldr Z.add 0 data.

(** [total / n], the exact mean of [statistics._sum]. *)
Definition exact_mean (data : list Z) : Q :=
  list_sum data # Pos.of_nat (length data).

(** [statistics.mean]; [None] for the [StatisticsError] on no data. *)
Definition mean (data : list Z) : option Q :=
  match data with
  | [] => None
  | _ => Some (convert (exact_mean data))
  end.

Definition sum_sq_dev (m : Q) (data : list Z) : Q :=
  foldr (λ x acc, ((inject_Z x - m) * (inject_Z x - m) + acc)%Q) 0%Q data.

(** The exact sample variance [ss / (n - 1)] of [statistics.stdev]; [None]
    for the [StatisticsError] on fewer than two data points. *)
Definition variance (data : list Z) : option Q :=
  match data with
  | _ :: _ :: _ =>
      Some (sum_sq_dev (exact_mean data) data
            / inject_Z (Z.of_nat (length data) - 1))%Q
  | _ => None
  end.

(** [statistics.stdev] *)
Definition stdev (data : list Z) : option Q :=
  float_sqrt_of_frac <$> variance data.

(** ** Visibility of sections and questions *)

(** [or_(Section.company_id == company_id, Section.company_id.is_(None))] *)
Definition company_or_global (company_id : Z) (s : Section_.t) : Prop :=
  Section_.company_id s = Some company_id ∨ Section_.company_id s = None.

#[global] Instance company_or_global_dec c s : Decision (company_or_global c s).
Proof. unfold company_or_global. apply _. Defined.

(** ** Completion accounting ([get_users_by_company], [controller/admin.py]) *)

Definition has_rating (answer : UserAnswer.t) : bool :=
  bool_decide (UserAnswer.rating answer ≠ None).

Definition has_answer_text (answer : UserAnswer.t) : bool :=
  truthy_str (UserAnswer.answer answer) &&
  negb (String.eqb (strip (default "" (UserAnswer.answer answer))) "").

Definition is_cant_answer (answer : UserAnswer.t) : bool :=
  has_rating answer && bool_decide (UserAnswer.rating answer = Some 0) &&
  (negb (truthy_str (UserAnswer.answer answer)) ||
   String.eqb (strip (default "" (UserAnswer.answer answer))) "").

Definition is_complete (answer : UserAnswer.t) : bool :=
  is_cant_answer answer ||
  (has_rating answer && bool_decide (UserAnswer.rating answer ≠ Some 0) &&
   has_answer_text answer).

(** [Question.section_id.in_(section_ids)]: never true of a null
    [section_id]. *)
Definition section_id_in (section_ids : list Z) (q : Question.t) : Prop :=
  match Question.section_id q with
  | Some sid => sid ∈ section_ids
  | None => False
  end.

#[global] Instance section_id_in_dec ids q : Decision (section_id_in ids q).
Proof. unfold section_id_in. destruct (Question.section_id q); apply _. Defined.

(** The sections and the questions counted for a company. *)
Definition company_sections (company_id : Z) (db : Db) : list Section_.t :=
  filter (company_or_global company_id) (sections db).

Definition company_questions (company_id : Z) (db : Db) : list Question.t :=
  let section_ids := Section_.id <$> company_sections company_id db in
  match section_ids with
  | [] => []
  | _ => filter (section_id_in section_ids) (questions db)
  end.

(** The loop that looks for a question without a complete answer; [false]
    is the [break]. *)
Fixpoint every_question_complete (user_answers : list UserAnswer.t)
  (questions : list Question.t) : bool :=
  match questions with
  | [] => true
  | question :: rest =>
      match first (λ a, UserAnswer.question_id a = Question.id question) user_answers with
      | None => false
      | Some answer =>
          if is_complete answer then every_question_complete user_answers rest
          else false
      end
  end.

Record UserStatus : Type := mk_user_status {
  us_user_id : UUID;
  us_email : string;
  us_name : string;
  us_company_id : option Z;
  us_total_questions : nat;
  us_answered_count : nat;
  us_completion_percentage : Q;
  us_completely_answered : bool;
  us_created_at : option datetime
}.

(** [db.query(UserAnswer).filter(UserAnswer.user_id == user_id).all()] *)
Definition answers_of_user (user_id : UUID) (db : Db) : list UserAnswer.t :=
  filter (λ a, UserAnswer.user_id a = user_id) (user_answers db).

Definition answered_question_ids (user_answers : list UserAnswer.t) : gset Z :=
  list_to_set (UserAnswer.question_id <$> user_answers).

Definition user_status (questions : list Question.t) (db : Db) (profile : Profile.t)
  : UserStatus :=
  let total_questions := length questions in
  let user_answers := answers_of_user (Profile.id profile) db in
  let answered_count :=
    length (filter (λ qid, qid ∈ (Question.id <$> questions))
              (elements (answered_question_ids user_answers))) in
  let completely_answered :=
    if bool_decide (0 < total_questions)%nat
    then every_question_complete user_answers questions
    else true in
  let completion_percentage :=
    if bool_decide (0 < total_questions)%nat
    then round (binary64
                  (binary64 (inject_Z (Z.of_nat answered_count)
                             / inject_Z (Z.of_nat total_questions)) * 100)) 1
    else 0%Q in
  mk_user_status (Profile.id profile) (Profile.email profile) (Profile.name profile)
    (Profile.company_id profile) total_questions answered_count
    completion_percentage
    (completely_answered && bool_decide (answered_count = total_questions))
    (Profile.created_at profile).

Record UsersByCompany : Type := mk_users_by_company {
  ubc_company_id : Z;
  ubc_company_name : string;
  ubc_users : list UserStatus
}.

(** [GET /get-users-by-company/{company_id}] *)
Definition get_users_by_company (company_id : Z) (db : Db) : response UsersByCompany :=
  match first (λ c, Company.id c = company_id) (companies db) with
  | None => HTTPException 404 "Company not found"
  | Some company =>
      let profiles :=
        filter (λ p, Profile.company_id p = Some company_id) (profiles db) in
      let questions := company_questions company_id db in
      Return (mk_users_by_company company_id (Company.name company)
                (user_status questions db <$> profiles))
  end.

(** ** Listings by section *)

Definition or_empty (s : option string) : string := default "" s.

Record AnswerData : Type := mk_answer_data {
  ad_answer_id : Z;
  ad_answer : option string;
  ad_feedback : option string;
  ad_rating : option Z;
  ad_user_id : UUID;
  ad_email : option string;
  ad_user_email : option string;
  ad_user_name : option string;
  ad_submitted_at : option datetime
}.

Record QuestionReport : Type := mk_question_report {
  qr_question_id : Z;
  qr_subject : option string;
  qr_question : string;
  qr_section_id : option Z;
  qr_rating_3_text : option string;
  qr_rating_neg3_text : option string;
  qr_show_rating_scale : bool;
  qr_avg_rating : option Q;
  qr_std_dev : option Q;
  qr_created_at : option datetime;
  qr_answers : list AnswerData
}.

Record SectionReport : Type := mk_section_report {
  sr_section_id : Z;
  sr_label : string;
  sr_title : string;
  sr_company_id : option Z;
  sr_questions : list QuestionReport
}.

(** [db.query(UserAnswer).filter(UserAnswer.question_id == question.id).all()] *)
Definition answers_to (db : Db) (question : Question.t) : list UserAnswer.t :=
  filter (λ a, UserAnswer.question_id a = Question.id question) (user_answers db).

(** [[a.rating for a in answers if a.rating is not None]] *)
Definition ratings_of (answers : list UserAnswer.t) : list Z :=
  omap UserAnswer.rating answers.

(** [round(mean(ratings), 2) if ratings else None]; the outer [None] is an
    exception raised on the way. *)
Definition avg_rating (ratings : list Z) : option (option Q) :=
  match ratings with
  | [] => Some None
  | _ => m ← mean ratings; Some (Some (round m 2))
  end.

(** [round(stdev(ratings), 2) if len(ratings) > 1 else None] *)
Definition std_dev (ratings : list Z) : option (option Q) :=
  if bool_decide (1 < length ratings)%nat
  then r ← stdev ratings; Some (Some (round r 2))
  else Some None.

(** One row of [answers] flattened with the e-mail and name of its author.
    The fallback on the integer-keyed [users] table cannot match a UUID and
    leaves the three fields null. *)
Definition answer_data (db : Db) (a : UserAnswer.t) : AnswerData :=
  let profile := first (λ p, Profile.id p = UserAnswer.user_id a) (profiles db) in
  mk_answer_data (UserAnswer.id a) (UserAnswer.answer a) (UserAnswer.feedback a)
    (UserAnswer.rating a) (UserAnswer.user_id a)
    (Profile.email <$> profile) (Profile.email <$> profile) (Profile.name <$> profile)
    (UserAnswer.submitted_at a).

(** The body of the per-question [try]; [None] is the exception that makes
    the loop skip the question. *)
Definition question_report (db : Db) (question : Question.t) : option QuestionReport :=
  let answers := answers_to db question in
  let ratings := ratings_of answers in
  avg ← avg_rating ratings;
  sd ← std_dev ratings;
  Some (mk_question_report (Question.id question) (Question.subject question)
          (or_empty (Question.question question)) (Question.section_id question)
          (Question.rating_3_text question) (Question.rating_neg3_text question)
          (Question.show_rating_scale question) avg sd
          (Question.created_at question) (answer_data db <$> answers)).

Record QuestionData : Type := mk_question_data {
  qd_question_id : Z;
  qd_question : string;
  qd_rating_3_text : string;
  qd_rating_neg3_text : string;
  qd_show_rating_scale : bool;
  qd_answer : option string;
  qd_rating : option Z
}.

Record SectionData : Type := mk_section_data {
  sd_section_id : Z;
  sd_label : string;
  sd_title : string;
  sd_questions : list QuestionData
}.

(** [{a.question_id: a for a in answers}]: a later row replaces an earlier
    one under the same key. *)
Definition answers_by_question (answers : list UserAnswer.t) : gmap Z UserAnswer.t :=
  foldl (λ m a, <[UserAnswer.question_id a := a]> m) ∅ answers.

Definition company_id_of (user : current_user) : option Z :=
  match user with
  | IsProfile p => Profile.company_id p
  | IsUser u => User.company_id u
  end.

Section Listing.

(** [ORDER BY sections.label], as the database collates it. *)
Variable order_by_label : list Section_.t → list Section_.t.

(** The sections a user is shown. *)
Definition user_sections (company_id : option Z) (db : Db) : list Section_.t :=
  match company_id with
  | Some company_id =>
      order_by_label (filter (company_or_global company_id) (sections db))
  | None => order_by_label (sections db)
  end.

Definition section_data (user : current_user) (db : Db) (section : Section_.t)
  : SectionData :=
  let questions :=
    filter (λ q, Question.section_id q = Some (Section_.id section)) (questions db) in
  let user_answers : gmap Z UserAnswer.t :=
    match user with
    | IsUser _ => ∅
    | IsProfile p =>
        answers_by_question
          (filter (λ a, UserAnswer.user_id a = Profile.id p
                        ∧ UserAnswer.question_id a ∈ (Question.id <$> questions))
             (user_answers db))
    end in
  mk_section_data (Section_.id section) (or_empty (Section_.label section))
    (or_empty (Section_.title section))
    ((λ question,
        let answer := user_answers !! Question.id question in
        mk_question_data (Question.id question)
          (or_empty (Question.question question))
          (or_empty (Question.rating_3_text question))
          (or_empty (Question.rating_neg3_text question))
          (Question.show_rating_scale question)
          (answer ≫= UserAnswer.answer) (answer ≫= UserAnswer.rating))
       <$> questions).

(** [GET /get-question/] *)
Definition get_question (user : current_user) (db : Db) : response (list SectionData) :=
  Return (section_data user db <$> user_sections (company_id_of user) db).

(** [GET /get-questions-by-company/{company_id}] *)
Definition get_questions_by_company (company_id : Z) (db : Db)
  : response (list SectionReport) :=
  match first (λ c, Company.id c = company_id) (companies db) with
  | None => HTTPException 404 "Company not found"
  | Some _ =>
      let sections :=
        order_by_label
          (filter (λ s, Section_.company_id s = Some company_id) (sections db)) in
      Return
        ((λ section,
            let questions :=
              filter (λ q, Question.section_id q = Some (Section_.id section))
                (questions db) in
            mk_section_report (Section_.id section)
              (or_empty (Section_.label section)) (or_empty (Section_.title section))
              (Section_.company_id section)
              (omap (question_report db) questions))
           <$> sections)
  end.

End Listing.

(** ** Collaborators *)

(** A call that leaves the process. *)
Inductive call : Type :=
  | TextGeneration (prompt : string)
  | SendMail (attachment : string).

(** What a call to the text-generation service comes back with. *)
Inductive completion : Type :=
  | Completed (content : string)
  | Failed (error : string).

(** A handler that talks to collaborators: the calls it made, in order, and
    its response. An exception ends it with the calls made so far. *)
Definition io (A : Type) : Type := list call * response A.

Definition io_ret {A} (a : A) : io A := ([], Return a).

Definition io_raise {A} (status_code : Z) (detail : string) : io A :=
  ([], HTTPException status_code detail).

Definition io_bind {A B} (m : io A) (k : A → io B) : io B :=
  match m with
  | (calls, Return a) => let '(calls', r) := k a in (calls ++ calls', r)
  | (calls, HTTPException status_code detail) =>
      (calls, HTTPException status_code detail)
  end.

Notation "x ←io m ; k" := (io_bind m (λ x, k))
  (at level 20, m at level 100, k at level 200, right associativity,
   format "x  ←io  m ; '/' k").

Definition nl : string := String (ascii_of_nat 10) EmptyString.

Definition str_option (s : option string) : string := default "None" s.

Fixpoint join (sep : string) (parts : list string) : string :=
  match parts with
  | [] => ""
  | [p] => p
  | p :: rest => String.append p (String.append sep (join sep rest))
  end.

Fixpoint concat_str (parts : list string) : string :=
  match parts with
  | [] => ""
  | p :: rest => String.append p (concat_str rest)
  end.

Record ReportEntry : Type := mk_report_entry {
  re_question : string;
  re_avg_rating : option Q;
  re_rating_label : string;
  re_summary : string
}.

Inductive ReportBody : Type :=
  | Message (message : string)
  | FileResponse (filename : string) (media_type : string) (content : string).

Section Reporting.

(** The text-generation service, the SMTP relay ([None]: delivered), the
    SMTP credentials of the environment, and [str] of a number. *)
Variable chat_completion : string → completion.
Variable smtp_send : string → option string.
Variable smtp_email smtp_password : option string.
Variable format_number : Q → string.

Definition generate_feedback (prompt : string) : io string :=
  match chat_completion prompt with
  | Completed content => ([TextGeneration prompt], Return (strip content))
  | Failed e =>
      ([TextGeneration prompt],
       HTTPException 500 (String.append "Error generating feedback: " e))
  end.

Definition send_feedback_email_to_admin_with_attachment (attachment : string)
  : io unit :=
  if truthy_str smtp_email && truthy_str smtp_password then
    match smtp_send attachment with
    | None => ([SendMail attachment], Return ())
    | Some e =>
        ([SendMail attachment],
         HTTPException 500
           (String.append "Failed to send email with attachment: " e))
    end
  else io_raise 500 "SMTP credentials not configured".

(** [GET /generate-feedback/{answer_id}] *)
Definition generate_feedback_for_answer (answer_id : Z) (db : Db)
  : io (string * Z) * Db :=
  match first (λ a, UserAnswer.id a = answer_id) (user_answers db) with
  | None => (io_raise 404 "Answer not found", db)
  | Some db_answer =>
      let prompt :=
        String.append
          "You are a helpful assistant. Provide feedback on the following answer:"
          (String.append nl
             (String.append "Answer: " (str_option (UserAnswer.answer db_answer)))) in
      match generate_feedback prompt with
      | (calls, Return feedback) =>
          ((calls, Return (feedback, UserAnswer.id db_answer)),
           update_answer (UserAnswer.id db_answer)
             (λ a, UserAnswer.mk (UserAnswer.id a) (UserAnswer.question_id a)
                     (UserAnswer.user_id a) (UserAnswer.answer a)
                     (UserAnswer.rating a) (Some feedback) true
                     (UserAnswer.submitted_at a))
             db)
      | (calls, HTTPException status_code detail) =>
          ((calls, HTTPException status_code detail), db)
      end
  end.

Definition format_avg_rating (avg : option Q) : string :=
  match avg with
  | Some a => format_number a
  | None => "N/A"
  end.

Definition rating_label (avg : option Q) : string :=
  match avg with
  | Some a =>
      match (a ?= 0)%Q with
      | Gt => "Good"
      | Eq => "Neutral"
      | Lt => "Poor"
      end
  | None => "Poor"
  end.

Definition report_prompt (idx : nat) (q : Question.t) (avg : option Q)
  (answers : list UserAnswer.t) : string :=
  let all_user_answers :=
    join nl ((λ a, String.append "- " (str_option (UserAnswer.answer a)))
               <$> filter (λ a, truthy_str (UserAnswer.answer a) = true) answers) in
  concat_str
    ["You are an evaluator analyzing user answers."; nl;
     "Q"; pretty idx; ": "; str_option (Question.question q); nl;
     "Average Rating: "; format_avg_rating avg; " ("; rating_label avg; ")"; nl;
     "User Answers:"; nl; all_user_answers; nl;
     nl;
     "Generate an AI summary that captures sentiment, strengths, and common misunderstandings based on these user answers.";
     nl].

(** The loop over [enumerate(questions, 1)], from position [idx] on. *)
Fixpoint report_loop (db : Db) (idx : nat) (questions : list Question.t)
  (report : list ReportEntry) : io (list ReportEntry) :=
  match questions with
  | [] => io_ret report
  | q :: rest =>
      let answers := answers_to db q in
      match answers with
      | [] => report_loop db (S idx) rest report
      | _ =>
          let ratings := ratings_of answers in
          match
            match ratings with
            | [] => Some None
            | _ => m ← mean ratings; Some (Some (round m 2))
            end
          with
          | None => io_raise 500 "Internal Server Error"
          | Some avg =>
              ai_summary ←io generate_feedback (report_prompt idx q avg answers);
              report_loop db (S idx) rest
                (report ++
                 [mk_report_entry
                    (concat_str ["Q"; pretty idx; ": ";
                                 str_option (Question.question q)])
                    avg (rating_label avg) ai_summary])
          end
      end
  end.

Definition report_text (report : list ReportEntry) : string :=
  concat_str
    ((λ r, concat_str
             [re_question r; nl;
              "Rating: "; format_avg_rating (re_avg_rating r);
              " ("; re_rating_label r; ")"; nl;
              "Summary: "; re_summary r; nl;
              "---"; nl])
       <$> report).

(** [GET /generate-collective-report] *)
Definition generate_collective_feedback_report (db : Db) : io ReportBody :=
  match questions db with
  | [] => io_raise 404 "No questions found"
  | questions =>
      report ←io report_loop db 1 questions [];
      match report with
      | [] => io_ret (Message "No data available for collective report.")
      | _ =>
          _ ←io send_feedback_email_to_admin_with_attachment (report_text report);
          io_ret (FileResponse "collective_feedback_report.txt" "text/plain"
                    (report_text report))
      end
  end.

End Reporting.

(** ** Company deletion ([delete_company], [controller/admin.py]) *)

Definition clear_company {A} (company_id : A → option Z) (set_null : A → A)
  (cid : Z) (row : A) : A :=
  if decide (company_id row = Some cid) then set_null row else row.

Definition user_set_null (u : User.t) : User.t :=
  User.mk (User.id u) (User.email u) (User.name u) (User.hashed_password u) None
    (User.created_at u).

Definition section_set_null (s : Section_.t) : Section_.t :=
  Section_.mk (Section_.id s) (Section_.label s) (Section_.title s) None
    (Section_.created_at s).

Definition profile_set_null (p : Profile.t) : Profile.t :=
  Profile.mk (Profile.id p) (Profile.email p) (Profile.name p) None
    (Profile.created_at p).

(** [UPDATE users SET company_id = NULL WHERE company_id = :company_id] and
    the number of rows it matched. *)
Definition update_users_company_null (cid : Z) (db : Db) : nat * Db :=
  (length (filter (λ u, User.company_id u = Some cid) (users db)),
   mk_db (companies db) (sections db) (questions db) (user_answers db)
     (clear_company User.company_id user_set_null cid <$> users db)
     (profiles db) (user_answers_id_seq db)).

Definition update_sections_company_null (cid : Z) (db : Db) : nat * Db :=
  (length (filter (λ s, Section_.company_id s = Some cid) (sections db)),
   mk_db (companies db)
     (clear_company Section_.company_id section_set_null cid <$> sections db)
     (questions db) (user_answers db) (users db) (profiles db)
     (user_answers_id_seq db)).

(** [DELETE FROM companies WHERE id = :company_id] under the schema of
    [models.py]: the three foreign keys on [companies.id] ([users],
    [profiles], [sections]) are declared [ondelete='SET NULL']. *)
Definition delete_company_row (cid : Z) (db : Db) : Db :=
  mk_db (filter (λ c, Company.id c ≠ cid) (companies db))
    (clear_company Section_.company_id section_set_null cid <$> sections db)
    (questions db) (user_answers db)
    (clear_company User.company_id user_set_null cid <$> users db)
    (clear_company Profile.company_id profile_set_null cid <$> profiles db)
    (user_answers_id_seq db).

(** [DELETE /delete-company/{company_id}] *)
Definition delete_company (company_id : Z) (db : Db) : response string * Db :=
  match first (λ c, Company.id c = company_id) (companies db) with
  | None => (HTTPException 404 "Company not found", db)
  | Some company =>
      let '(users_updated, db1) := update_users_company_null company_id db in
      let '(sections_updated, db2) := update_sections_company_null company_id db1 in
      let db3 := delete_company_row (Company.id company) db2 in
      let message :=
        if bool_decide (0 < users_updated)%nat || bool_decide (0 < sections_updated)%nat
        then concat_str
               ["Company deleted successfully"; " "; pretty users_updated;
                " user(s) and "; pretty sections_updated;
                " section(s) had their company_id set to NULL."]
        else "Company deleted successfully" in
      (Return message, db3)
  end.

(** ** Vocabulary of the properties *)

(** The stored answers of a user to a question. *)
Definition slot (user_id : UUID) (question_id : Z) (db : Db) : list UserAnswer.t :=
  filter (answer_of user_id question_id) (user_answers db).

Definition question_exists (db : Db) (question_id : Z) : Prop :=
  question_id ∈ (Question.id <$> questions db).

#[global] Instance question_exists_dec db q : Decision (question_exists db q).
Proof. unfold question_exists. apply _. Defined.

(** What the schema and the handlers maintain on [user_answers]: primary
    keys are distinct and were issued by the sequence, and a user has at
    most one answer to a question. *)
Record store_ok (db : Db) : Prop := mk_store_ok {
  pk_unique : NoDup (UserAnswer.id <$> user_answers db);
  pk_issued : ∀ a, a ∈ user_answers db → UserAnswer.id a < user_answers_id_seq db;
  one_answer_per_pair : ∀ u q, (length (slot u q db) ≤ 1)%nat
}.

(** Two versions of a row that differ at most in [answer], [rating] and
    [submitted_at]. *)
Definition same_identity (a a' : UserAnswer.t) : Prop :=
  UserAnswer.id a' = UserAnswer.id a ∧
  UserAnswer.question_id a' = UserAnswer.question_id a ∧
  UserAnswer.user_id a' = UserAnswer.user_id a ∧
  UserAnswer.feedback a' = UserAnswer.feedback a ∧
  UserAnswer.feedback_generated a' = UserAnswer.feedback_generated a.

(** The row holds what the submitted tuple says. *)
Definition holds (fromisoformat : string → option datetime) (now : datetime)
  (t : AnswerSubmit.t) (a : UserAnswer.t) : Prop :=
  UserAnswer.answer a = Some (AnswerSubmit.answer t) ∧
  UserAnswer.rating a = AnswerSubmit.rating t ∧
  UserAnswer.submitted_at a
  = Some (resolve_submitted_at fromisoformat now (AnswerSubmit.submitted_at t)).

(** The row continues the first of the earlier rows of its pair or, when
    there were none, is a fresh row without feedback. *)
Definition upserted_from (before : list UserAnswer.t) (seq : Z) (a : UserAnswer.t)
  : Prop :=
  match before with
  | a0 :: _ => same_identity a0 a
  | [] =>
      UserAnswer.feedback a = None ∧ UserAnswer.feedback_generated a = false ∧
      seq ≤ UserAnswer.id a
  end.

(** The character occurs in the string. *)
Fixpoint contains_char (c : ascii) (s : string) : bool :=
  match s with
  | EmptyString => false
  | String c' s' => Ascii.eqb c' c || contains_char c s'
  end.

(** A section is shown to the users of a company, or to a user without
    one. *)
Definition visible_to (company_id : option Z) (s : Section_.t) : Prop :=
  match company_id with
  | Some c => Section_.company_id s = Some c ∨ Section_.company_id s = None
  | None => True
  end.

Definition listed_section_ids (body : list SectionData) : list Z :=
  sd_section_id <$> body.

Definition listed_question_ids (body : list SectionData) : list Z :=
  body ≫= λ sd, qd_question_id <$> sd_questions sd.

(** The answer text is missing, empty or made of white space. *)
Definition blank (text : option string) : Prop :=
  match text with
  | Some s => all_space s = true
  | None => True
  end.

Definition cannot_answer (a : UserAnswer.t) : Prop :=
  UserAnswer.rating a = Some 0 ∧ blank (UserAnswer.answer a).

Definition substantive (a : UserAnswer.t) : Prop :=
  (∃ r, UserAnswer.rating a = Some r ∧ r ≠ 0) ∧ ¬ blank (UserAnswer.answer a).

(** ** Sample stores and requests *)

Definition sample_fromisoformat (s : string) : option datetime :=
  if String.eqb s "2024-05-01T10:00:00+00:00"
  then Some (mk_datetime 1714557600000000 (Some 0))
  else None.

Definition sample_clock (i : nat) : datetime :=
  mk_datetime (1700000000000000 + Z.of_nat i) None.

Definition ann : Profile.t := Profile.mk 7%N "ann@example.com" "Ann" (Some 1) None.

Definition bob : Profile.t := Profile.mk 8%N "bob@example.com" "Bob" (Some 2) None.

Definition cat : Profile.t := Profile.mk 9%N "cat@example.com" "Cat" (Some 2) None.

Definition dan : Profile.t := Profile.mk 6%N "dan@example.com" "Dan" None None.

Definition sample_question (id : Z) (section_id : option Z) : Question.t :=
  Question.mk id section_id (Some "How was it?") None None None true None.

Definition sample_sections : list Section_.t :=
  [Section_.mk 10 (Some "A") (Some "General") None None;
   Section_.mk 11 (Some "B") (Some "Acme only") (Some 1) None].

Definition sample_questions : list Question.t :=
  [sample_question 1 (Some 10); sample_question 2 (Some 10);
   sample_question 3 (Some 11)].

Definition sample_answer (id question_id : Z) (user_id : UUID) (answer : string)
  (rating : option Z) : UserAnswer.t :=
  UserAnswer.mk id question_id user_id (Some answer) rating None false None.

Definition store_with (answers : list UserAnswer.t) (seq : Z) : Db :=
  mk_db [Company.mk 1 "Acme" None; Company.mk 2 "Globex" None]
    sample_sections sample_questions answers
    [User.mk 5 "root@example.com" "Root" "hash" (Some 1) None]
    [ann; bob; cat; dan] seq.

Definition sample_db : Db :=
  store_with
    [UserAnswer.mk 100 1 7%N (Some "old") (Some 2) (Some "well put") true None] 101.

Definition empty_db : Db := mk_db [] [] [] [] [] [] 1.

Definition unanswered_db : Db := store_with [] 1.

Definition complete_db : Db :=
  store_with
    [sample_answer 1 1 7%N "ok" (Some 2); sample_answer 2 2 7%N "ok" (Some 2);
     sample_answer 3 3 7%N "" (Some 0)] 4.

Definition partial_db : Db :=
  store_with
    [sample_answer 1 1 7%N "ok" (Some 2); sample_answer 2 2 7%N "ok" (Some 2)] 3.

Definition zero_with_text_db : Db :=
  store_with
    [sample_answer 1 1 7%N "ok" (Some 2); sample_answer 2 2 7%N "ok" (Some 2);
     sample_answer 3 3 7%N "no idea" (Some 0)] 4.

(** U+00A0, a white space outside ASCII. *)
Definition no_break_space : string := String "160"%char EmptyString.

(** [complete_db] with a "cannot answer" whose text is a no-break space. *)
Definition no_break_space_db : Db :=
  store_with
    [sample_answer 1 1 7%N "ok" (Some 2); sample_answer 2 2 7%N "ok" (Some 2);
     sample_answer 3 3 7%N no_break_space (Some 0)] 4.

Definition rated_db : Db :=
  store_with
    [sample_answer 1 1 7%N "great" (Some 3); sample_answer 2 1 8%N "fine" (Some 1);
     sample_answer 3 1 9%N "poor" (Some (-2)); sample_answer 4 1 6%N "skip" None] 5.

(** Eighty questions of a global section, the first 23 answered by Ann. *)
Definition eighty_db : Db :=
  mk_db [Company.mk 1 "Acme" None] sample_sections
    ((λ i, sample_question i (Some 10)) <$> seqZ 1 80)
    ((λ i, sample_answer i i 7%N "ok" (Some 2)) <$> seqZ 1 23)
    [] [ann] 24.

(** Question 1 rated 1 once and 0 sixty-three times, question 2 rated 1
    once and 0 thirty-nine times. *)
Definition tied_db : Db :=
  store_with
    (((λ i, sample_answer i 1 7%N "x" (Some (if bool_decide (i = 1) then 1 else 0)))
        <$> seqZ 1 64)
     ++ ((λ i, sample_answer i 2 8%N "x" (Some (if bool_decide (i = 65) then 1 else 0)))
           <$> seqZ 65 40)) 105.

Definition sample_batch : list AnswerSubmit.t :=
  [AnswerSubmit.mk 1 "first" (Some 1) None;
   AnswerSubmit.mk 1 "second" (Some 3) (Some "not-a-date")].

Definition sample_batch_with_unknown : list AnswerSubmit.t :=
  [AnswerSubmit.mk 1 "fine" (Some 2) None;
   AnswerSubmit.mk 99 "lost" (Some 1) None;
   AnswerSubmit.mk 2 "good" (Some 3) (Some "2024-05-01T10:00:00Z")].

Definition failing_chat (prompt : string) : completion := Failed "unavailable".

(** A completion that ends in a no-break space. *)
Definition padded_chat (prompt : string) : completion :=
  Completed (String.append " ok" no_break_space).

Definition sample_format_number (x : Q) : string := "0.0".

(** * The other handlers

    The management endpoints of [controller/admin.py] and the account
    endpoints of [controller/user.py]. Further conventions:
    - The key that a sequence hands out, the value of [uuid.uuid4()], the
      code of [random.randint] and [time.time()] are arguments of the handler
      that uses them; times in seconds are exact rationals.
    - The functions of [auth] (password hashes and tokens) are parameters.
    - An INSERT that no check of the handler protects fails where the schema
      forbids it (a foreign key without its row, a primary key in use); no
      handler catches that, and the response is the 500 of the framework.
    - [reset_codes], the dictionary of the module, is a finite map that the
      handlers take and return. *)

(** ** Request bodies of the management endpoints ([controller/basemodel.py]) *)

Module QuestionCreate.
Record t : Type := mk {
  subject : option string;
  question : string;
  section_id : option Z;
  rating_3_text : option string;
  rating_neg3_text : option string;
  positive_rating_text : option string;
  negative_rating_text : option string;
  show_rating_scale : option bool
}.
End QuestionCreate.

Module QuestionUpdate.
Record t : Type := mk {
  question : option string;
  section_id : option Z;
  rating_3_text : option string;
  rating_neg3_text : option string;
  positive_rating_text : option string;
  negative_rating_text : option string;
  show_rating_scale : option bool
}.
End QuestionUpdate.

Module SectionCreate.
Record t : Type := mk {
  label : string;
  title : string;
  company_id : option Z
}.
End SectionCreate.

Module SectionUpdate.
Record t : Type := mk {
  label : option string;
  title : option string;
  company_id : option Z
}.
End SectionUpdate.

Module UserCreate.
Record t : Type := mk {
  email : string;
  name : string;
  password : string;
  company_id : option Z
}.
End UserCreate.

Module UserLogin.
Record t : Type := mk {
  email : string;
  password : string
}.
End UserLogin.

#[global] Instance section_eq_dec : EqDecision Section_.t.
Proof. solve_decision. Defined.

#[global] Instance company_eq_dec : EqDecision Company.t.
Proof. solve_decision. Defined.

#[global] Instance profile_eq_dec : EqDecision Profile.t.
Proof. solve_decision. Defined.

#[global] Instance user_eq_dec : EqDecision User.t.
Proof. solve_decision. Defined.

(** [a or b] on nullable strings. *)
Definition or_else (a b : option string) : option string :=
  if truthy_str a then a else b.

(** The response to an exception no handler catches. *)
Definition internal_server_error {A} : response A :=
  HTTPException 500 "Internal Server Error".

(** [message] followed by [suffix] when [n > 0]. *)
Definition with_count (message : string) (n : nat) (suffix : string) : string :=
  if bool_decide (0 < n)%nat then String.append message suffix else message.

(** ** Questions ([controller/admin.py]) *)

(** [POST /create-question/]; [new_id] is the key the sequence of the table
    hands out and [now] the time of the database. A [section_id] that names
    no section violates the foreign key of [questions], which no handler
    catches. *)
Definition create_question (new_id : Z) (now : datetime) (question : QuestionCreate.t)
  (db : Db) : response (string * Z) * Db :=
  let rating_3 :=
    or_else (QuestionCreate.rating_3_text question)
      (QuestionCreate.positive_rating_text question) in
  let rating_neg3 :=
    or_else (QuestionCreate.rating_neg3_text question)
      (QuestionCreate.negative_rating_text question) in
  let show_rating := default true (QuestionCreate.show_rating_scale question) in
  let db_question :=
    Question.mk new_id (QuestionCreate.section_id question)
      (Some (QuestionCreate.question question)) (Some now) rating_3 rating_neg3
      show_rating (QuestionCreate.subject question) in
  match QuestionCreate.section_id question with
  | Some sid =>
      if decide (sid ∈ (Section_.id <$> sections db))
      then (Return ("Question created successfully!", new_id),
            mk_db (companies db) (sections db) (questions db ++ [db_question])
              (user_answers db) (users db) (profiles db) (user_answers_id_seq db))
      else (internal_server_error, db)
  | None =>
      (Return ("Question created successfully!", new_id),
       mk_db (companies db) (sections db) (questions db ++ [db_question])
         (user_answers db) (users db) (profiles db) (user_answers_id_seq db))
  end.

(** The assignments [update_question] makes on the loaded question. *)
Definition apply_question_update (u : QuestionUpdate.t) (q : Question.t) : Question.t :=
  let rating_3 :=
    or_else (QuestionUpdate.rating_3_text u) (QuestionUpdate.positive_rating_text u) in
  let rating_neg3 :=
    or_else (QuestionUpdate.rating_neg3_text u) (QuestionUpdate.negative_rating_text u) in
  Question.mk (Question.id q)
    (match QuestionUpdate.section_id u with
     | Some sid => Some sid
     | None => Question.section_id q
     end)
    (match QuestionUpdate.question u with
     | Some text => Some text
     | None => Question.question q
     end)
    (Question.created_at q)
    (match rating_3 with Some r => Some r | None => Question.rating_3_text q end)
    (match rating_neg3 with Some r => Some r | None => Question.rating_neg3_text q end)
    (default (Question.show_rating_scale q) (QuestionUpdate.show_rating_scale u))
    (Question.subject q).

(** [UPDATE questions SET ... WHERE id = :id] *)
Definition rewrite_question (id : Z) (f : Question.t → Question.t) (q : Question.t)
  : Question.t :=
  if decide (Question.id q = id) then f q else q.

(** [PUT /update-question/{question_id}] *)
Definition update_question (question_id : Z) (question_update : QuestionUpdate.t)
  (db : Db) : response (string * Z) * Db :=
  match first (λ q, Question.id q = question_id) (questions db) with
  | None => (HTTPException 404 "Question not found", db)
  | Some question =>
      let section_found :=
        match QuestionUpdate.section_id question_update with
        | Some sid =>
            bool_decide (is_Some (first (λ s, Section_.id s = sid) (sections db)))
        | None => true
        end in
      if section_found then
        (Return ("Question updated successfully", Question.id question),
         mk_db (companies db) (sections db)
           (rewrite_question (Question.id question)
              (apply_question_update question_update) <$> questions db)
           (user_answers db) (users db) (profiles db) (user_answers_id_seq db))
      else (HTTPException 404 "Section not found", db)
  end.

(** [DELETE /delete-question/{question_id}] *)
Definition delete_question (question_id : Z) (db : Db) : response string * Db :=
  match first (λ q, Question.id q = question_id) (questions db) with
  | None => (HTTPException 404 "Question not found", db)
  | Some question =>
      let answers_deleted :=
        length (filter (λ a, UserAnswer.question_id a = question_id) (user_answers db)) in
      (Return (with_count "Question deleted successfully" answers_deleted
                 (concat_str [". "; pretty answers_deleted;
                              " answer(s) were also deleted."])),
       mk_db (companies db) (sections db)
         (filter (λ q, Question.id q ≠ Question.id question) (questions db))
         (filter (λ a, UserAnswer.question_id a ≠ question_id) (user_answers db))
         (users db) (profiles db) (user_answers_id_seq db))
  end.

(** ** Sections ([controller/admin.py]) *)

(** [POST /create-section/] *)
Definition create_section (new_id : Z) (now : datetime) (section : SectionCreate.t)
  (db : Db) : response (string * Z) * Db :=
  let company_found :=
    match SectionCreate.company_id section with
    | Some cid => bool_decide (is_Some (first (λ c, Company.id c = cid) (companies db)))
    | None => true
    end in
  if company_found then
    (Return ("Section created successfully", new_id),
     mk_db (companies db)
       (sections db ++
        [Section_.mk new_id (Some (SectionCreate.label section))
           (Some (SectionCreate.title section)) (SectionCreate.company_id section)
           (Some now)])
       (questions db) (user_answers db) (users db) (profiles db)
       (user_answers_id_seq db))
  else (HTTPException 404 "Company not found", db).

(** The assignments [update_section_title] makes on the loaded section. *)
Definition apply_section_update (u : SectionUpdate.t) (s : Section_.t) : Section_.t :=
  Section_.mk (Section_.id s)
    (match SectionUpdate.label u with
     | Some l => Some l
     | None => Section_.label s
     end)
    (match SectionUpdate.title u with
     | Some t => Some t
     | None => Section_.title s
     end)
    (match SectionUpdate.company_id u with
     | Some cid => Some cid
     | None => Section_.company_id s
     end)
    (Section_.created_at s).

Definition rewrite_section (id : Z) (f : Section_.t → Section_.t) (s : Section_.t)
  : Section_.t :=
  if decide (Section_.id s = id) then f s else s.

Record SectionSummary : Type := mk_section_summary {
  ss_id : Z;
  ss_label : option string;
  ss_title : option string
}.

(** [PUT /update-section-title/{section_id}] *)
Definition update_section_title (section_id : Z) (section_update : SectionUpdate.t)
  (db : Db) : response (string * SectionSummary) * Db :=
  match first (λ s, Section_.id s = section_id) (sections db) with
  | None => (HTTPException 404 "Section not found", db)
  | Some section =>
      let company_found :=
        match SectionUpdate.company_id section_update with
        | Some cid =>
            bool_decide (is_Some (first (λ c, Company.id c = cid) (companies db)))
        | None => true
        end in
      if company_found then
        let section' := apply_section_update section_update section in
        (Return ("Section updated successfully",
                 mk_section_summary (Section_.id section') (Section_.label section')
                   (Section_.title section')),
         mk_db (companies db)
           (rewrite_section (Section_.id section)
              (apply_section_update section_update) <$> sections db)
           (questions db) (user_answers db) (users db) (profiles db)
           (user_answers_id_seq db))
      else (HTTPException 404 "Company not found", db)
  end.

Definition question_set_unsectioned (q : Question.t) : Question.t :=
  Question.mk (Question.id q) None (Question.question q) (Question.created_at q)
    (Question.rating_3_text q) (Question.rating_neg3_text q)
    (Question.show_rating_scale q) (Question.subject q).

(** [DELETE /delete-section/{section_id}] *)
Definition delete_section (section_id : Z) (db : Db) : response string * Db :=
  match first (λ s, Section_.id s = section_id) (sections db) with
  | None => (HTTPException 404 "Section not found", db)
  | Some section =>
      let questions_updated :=
        length (filter (λ q, Question.section_id q = Some section_id) (questions db)) in
      (Return (with_count "Section deleted successfully" questions_updated
                 (concat_str [". "; pretty questions_updated;
                              " question(s) had their section_id set to NULL."])),
       mk_db (companies db)
         (filter (λ s, Section_.id s ≠ Section_.id section) (sections db))
         ((λ q, if decide (Question.section_id q = Some section_id)
                then question_set_unsectioned q else q) <$> questions db)
         (user_answers db) (users db) (profiles db) (user_answers_id_seq db))
  end.

(** ** Companies ([controller/admin.py]) *)

Module admin.

(** [GET /admin/get-companies] *)
Definition get_companies (db : Db) : list (Z * string) :=
  (λ company, (Company.id company, Company.name company)) <$> companies db.

End admin.

(** [POST /add-company] *)
Definition add_company (new_id : Z) (now : datetime) (company_name : string) (db : Db)
  : response (string * (Z * string)) * Db :=
  match first (λ c, Company.name c = company_name) (companies db) with
  | Some _ => (HTTPException 400 "Company already exists", db)
  | None =>
      (Return ("Company added successfully", (new_id, company_name)),
       mk_db (companies db ++ [Company.mk new_id company_name (Some now)])
         (sections db) (questions db) (user_answers db) (users db) (profiles db)
         (user_answers_id_seq db))
  end.

(** [PUT /update-company/{company_id}] *)
Definition update_company (company_id : Z) (company_name : string) (db : Db)
  : response (string * (Z * string)) * Db :=
  match first (λ c, Company.id c = company_id) (companies db) with
  | None => (HTTPException 404 "Company not found", db)
  | Some company =>
      match first (λ c, Company.name c = company_name ∧ Company.id c ≠ company_id)
              (companies db) with
      | Some _ => (HTTPException 400 "Company name already exists", db)
      | None =>
          (Return ("Company updated successfully", (Company.id company, company_name)),
           mk_db
             ((λ c, if decide (Company.id c = Company.id company)
                    then Company.mk (Company.id c) company_name (Company.created_at c)
                    else c) <$> companies db)
             (sections db) (questions db) (user_answers db) (users db) (profiles db)
             (user_answers_id_seq db))
      end
  end.

Record DeletionCheck : Type := mk_deletion_check {
  dc_company_id : Z;
  dc_company_name : string;
  dc_users_count : nat;
  dc_sections_count : nat;
  dc_questions_via_sections_count : nat;
  dc_can_delete : bool
}.

(** [GET /check-company-deletion/{company_id}] *)
Definition check_company_deletion (company_id : Z) (db : Db) : response DeletionCheck :=
  match first (λ c, Company.id c = company_id) (companies db) with
  | None => HTTPException 404 "Company not found"
  | Some company =>
      let users_count :=
        length (filter (λ u, User.company_id u = Some company_id) (users db)) in
      let sections :=
        filter (λ s, Section_.company_id s = Some company_id) (sections db) in
      let sections_count := length sections in
      let section_ids := Section_.id <$> sections in
      let questions_count :=
        match section_ids with
        | [] => 0%nat
        | _ => length (filter (section_id_in section_ids) (questions db))
        end in
      Return (mk_deletion_check company_id (Company.name company) users_count
                sections_count questions_count
                (bool_decide (users_count = 0%nat) && bool_decide (sections_count = 0%nat)))
  end.

(** ** Users ([controller/admin.py]) *)

Record DeleteUserBody : Type := mk_delete_user_body {
  du_message : string;
  du_answers_deleted : nat
}.

Section DeleteUser.

(** [uuid.UUID(user_id)]: [None] for the [ValueError]. *)
Variable parse_uuid : string → option UUID.

(** [DELETE /delete-user/{user_id}] *)
Definition delete_user (user_id : string) (db : Db) : response DeleteUserBody * Db :=
  match parse_uuid user_id with
  | None => (HTTPException 400 "Invalid user ID format", db)
  | Some user_uuid =>
      match first (λ p, Profile.id p = user_uuid) (profiles db) with
      | None => (HTTPException 404 "User not found", db)
      | Some profile =>
          let answers_deleted := length (answers_of_user user_uuid db) in
          (Return (mk_delete_user_body "User deleted successfully" answers_deleted),
           mk_db (companies db) (sections db) (questions db)
             (filter (λ a, UserAnswer.user_id a ≠ user_uuid) (user_answers db))
             (users db)
             (filter (λ p, Profile.id p ≠ Profile.id profile) (profiles db))
             (user_answers_id_seq db))
      end
  end.

End DeleteUser.

(** ** Accounts ([controller/user.py]) *)

(** [GET /get-questions] *)
Definition get_questions (db : Db) : list Question.t := questions db.

(** [GET /get-user-answers] *)
Definition get_user_answers (user : current_user) (db : Db)
  : response (list (Z * option string * option Z)) :=
  match user with
  | IsUser _ => HTTPException 400 "Please use Profile account to view answers"
  | IsProfile p =>
      Return ((λ a, (UserAnswer.question_id a, UserAnswer.answer a, UserAnswer.rating a))
                <$> answers_of_user (Profile.id p) db)
  end.

(** [POST /signup]; [profile_id] is what [uuid.uuid4()] returns and [now]
    the time of the database. A [profile_id] already in use violates the
    primary key of [profiles], which no handler catches. *)
Definition signup (profile_id : UUID) (now : datetime) (user : UserCreate.t) (db : Db)
  : response (string * UUID) * Db :=
  match first (λ p, Profile.email p = UserCreate.email user) (profiles db) with
  | Some _ => (HTTPException 400 "Email already registered", db)
  | None =>
      let company_found :=
        match UserCreate.company_id user with
        | Some cid =>
            bool_decide (is_Some (first (λ c, Company.id c = cid) (companies db)))
        | None => true
        end in
      if company_found then
        if decide (profile_id ∈ (Profile.id <$> profiles db))
        then (internal_server_error, db)
        else
          (Return ("User created successfully", profile_id),
           mk_db (companies db) (sections db) (questions db) (user_answers db)
             (users db)
             (profiles db ++
              [Profile.mk profile_id (UserCreate.email user) (UserCreate.name user)
                 (UserCreate.company_id user) (Some now)])
             (user_answers_id_seq db))
      else (HTTPException 404 "Company not found", db)
  end.

(** What [create_access_token] is given to sign. *)
Record token_data : Type := mk_token_data {
  sub : string;
  profile_id : option UUID
}.

Record TokenBody : Type := mk_token_body {
  access_token : string;
  token_type : string
}.

Section Authentication.

(** [auth.verify_password], [auth.create_access_token] and
    [auth.decode_token] ([None] when it raises). *)
Variable verify_password : string → string → bool.
Variable create_access_token : token_data → string.
Variable decode_token : string → option string.

(** [POST /user/login] *)
Definition login (user : UserLogin.t) (db : Db) : response TokenBody :=
  let db_profile := first (λ p, Profile.email p = UserLogin.email user) (profiles db) in
  let db_user := first (λ u, User.email u = UserLogin.email user) (users db) in
  let profile_token :=
    match db_profile with
    | Some p =>
        Return (mk_token_body
                  (create_access_token
                     (mk_token_data (Profile.email p) (Some (Profile.id p))))
                  "bearer")
    | None => HTTPException 401 "Invalid email or password"
    end in
  match db_user with
  | Some u =>
      if verify_password (UserLogin.password user) (User.hashed_password u)
      then Return (mk_token_body (create_access_token (mk_token_data (User.email u) None))
                     "bearer")
      else profile_token
  | None => profile_token
  end.

(** [get_current_user]: the [HTTPException] 404 it raises for an unknown
    e-mail is raised inside its own [try], whose [except Exception] turns
    every exception into the 401. *)
Definition get_current_user (token : string) (db : Db) : response current_user :=
  match decode_token token with
  | None => HTTPException 401 "Invalid authentication credentials"
  | Some email =>
      match first (λ p, Profile.email p = email) (profiles db) with
      | Some profile => Return (IsProfile profile)
      | None =>
          match first (λ u, User.email u = email) (users db) with
          | Some user => Return (IsUser user)
          | None => HTTPException 401 "Invalid authentication credentials"
          end
      end
  end.

End Authentication.

(** ** Password reset ([controller/user.py]) *)

(** A reset request on record: the code and [time.time()] when it was
    made. *)
Record reset_record : Type := mk_reset_record {
  otp : string;
  timestamp : Q
}.

(** The message handed to the SMTP relay. *)
Record otp_mail : Type := mk_otp_mail {
  mail_subject : string;
  mail_from : string;
  mail_to : string;
  mail_text : string
}.

Definition OTP_EXPIRATION_SECONDS : Q := 300.

(** [not profile and not user] is false. *)
Definition known_email (email : string) (db : Db) : bool :=
  bool_decide (is_Some (first (λ p, Profile.email p = email) (profiles db))) ||
  bool_decide (is_Some (first (λ u, User.email u = email) (users db))).

Section PasswordReset.

(** The SMTP credentials of the environment, the relay ([None]: delivered)
    and [auth.get_password_hash]. *)
Variable smtp_email smtp_password : option string.
Variable smtp_send : otp_mail → option string.
Variable get_password_hash : string → string.

(** The body [forgot_password] and [resend_otp] have in common, up to their
    four texts; [otp] is what [random.randint(1000, 9999)] returns and [now]
    is [time.time()]. The code is put on record before the mail is
    attempted. The result lists the mails handed to the relay. *)
Definition send_code (subject text failure success : string) (otp : Z) (now : Q)
  (email : string) (reset_codes : gmap string reset_record) (db : Db)
  : (list otp_mail * response string) * gmap string reset_record :=
  if known_email email db then
    let reset_codes' := <[email := mk_reset_record (pretty otp) now]> reset_codes in
    if truthy_str smtp_email && truthy_str smtp_password then
      let msg :=
        mk_otp_mail subject (default "" smtp_email) email
          (String.append text (pretty otp)) in
      match smtp_send msg with
      | None => (([msg], Return success), reset_codes')
      | Some e => (([msg], HTTPException 500 (String.append failure e)), reset_codes')
      end
    else (([], HTTPException 500 "SMTP credentials not configured"), reset_codes')
  else (([], HTTPException 404 "User not found"), reset_codes).

(** [POST /forgot-password] *)
Definition forgot_password : Z → Q → string → gmap string reset_record → Db →
  (list otp_mail * response string) * gmap string reset_record :=
  send_code "Password Reset Code" "Your password reset verification code is: "
    "Failed to send email: " "Verification code sent to email.".

(** [POST /resend-otp] *)
Definition resend_otp : Z → Q → string → gmap string reset_record → Db →
  (list otp_mail * response string) * gmap string reset_record :=
  send_code "Resent Password Reset Code"
    "Your new password reset verification code is: "
    "Failed to resend email: " "Verification code resent to email.".

Definition user_set_password (hashed_password : string) (u : User.t) : User.t :=
  User.mk (User.id u) (User.email u) (User.name u) hashed_password (User.company_id u)
    (User.created_at u).

(** [POST /reset-password]; [now] is [time.time()]. *)
Definition reset_password (now : Q) (email code new_password : string)
  (reset_codes : gmap string reset_record) (db : Db)
  : response string * gmap string reset_record * Db :=
  match reset_codes !! email with
  | None => (HTTPException 400 "No reset request found", reset_codes, db)
  | Some record =>
      match (now - timestamp record ?= OTP_EXPIRATION_SECONDS)%Q with
      | Gt => (HTTPException 400 "Verification code expired", delete email reset_codes, db)
      | _ =>
          if negb (String.eqb (otp record) code)
          then (HTTPException 400 "Invalid verification code", reset_codes, db)
          else
            let profile := first (λ p, Profile.email p = email) (profiles db) in
            match first (λ u, User.email u = email) (users db), profile with
            | None, None => (HTTPException 404 "User not found", reset_codes, db)
            | Some user, _ =>
                (Return "Password reset successfully", delete email reset_codes,
                 mk_db (companies db) (sections db) (questions db) (user_answers db)
                   ((λ u, if decide (User.id u = User.id user)
                          then user_set_password (get_password_hash new_password) u
                          else u) <$> users db)
                   (profiles db) (user_answers_id_seq db))
            | None, Some _ =>
                (Return "Password reset successfully", delete email reset_codes, db)
            end
      end
  end.

End PasswordReset.

(** ** Referential integrity *)

(** Every reference of the store names a row, as the foreign keys of
    [database/models.py] ask. *)
Record references_ok (db : Db) : Prop := mk_references_ok {
  section_company : ∀ s cid,
    s ∈ sections db → Section_.company_id s = Some cid →
    cid ∈ (Company.id <$> companies db);
  question_section : ∀ q sid,
    q ∈ questions db → Question.section_id q = Some sid →
    sid ∈ (Section_.id <$> sections db);
  answer_question : ∀ a,
    a ∈ user_answers db → question_exists db (UserAnswer.question_id a);
  answer_profile : ∀ a,
    a ∈ user_answers db → UserAnswer.user_id a ∈ (Profile.id <$> profiles db);
  user_company : ∀ u cid,
    u ∈ users db → User.company_id u = Some cid →
    cid ∈ (Company.id <$> companies db);
  profile_company : ∀ p cid,
    p ∈ profiles db → Profile.company_id p = Some cid →
    cid ∈ (Company.id <$> companies db)
}.

(** The questions the collective report has something to say about. *)
Definition answered (db : Db) (questions : list Question.t) : list Question.t :=
  filter (λ q, answers_to db q ≠ []) questions.

(** ** Reading responses *)

(** The body a handler returned; nothing when it raised. *)
Definition returned {A} (r : response (list A)) : list A :=
  match r with
  | Return body => body
  | HTTPException _ _ => []
  end.

(** ** Further samples *)

Definition sample_parse_uuid (s : string) : option UUID :=
  if String.eqb s "00000000-0000-0000-0000-000000000007" then Some 7%N
  else if String.eqb s "00000000-0000-0000-0000-000000000005" then Some 5%N
  else None.

Definition sample_get_password_hash (password : string) : string :=
  String.append "hash:" password.

Definition sample_verify_password (plain_password hashed_password : string) : bool :=
  String.eqb (sample_get_password_hash plain_password) hashed_password.

Definition sample_create_access_token (data : token_data) : string := sub data.

Definition sample_decode_token (token : string) : option string := Some token.

Definition sample_reset_codes : gmap string reset_record :=
  {[ "root@example.com" := mk_reset_record "4711" 1000 ]}.

(** ** Text clean-up ([sanitize_text], [controller/admin.py]) *)

(** [re.sub(r'\s+', ' ', text)]; [in_run] says that the character before
    was white space. *)
Fixpoint sub_whitespace (in_run : bool) (text : string) : string :=
  match text with
  | EmptyString => EmptyString
  | String c rest =>
      if isspace c
      then if in_run then sub_whitespace true rest
           else String " " (sub_whitespace true rest)
      else String c (sub_whitespace false rest)
  end.

(** [text.split()]; [word] is the word read so far. *)
Fixpoint split_whitespace (word : string) (text : string) : list string :=
  match text with
  | EmptyString => if String.eqb word "" then [] else [word]
  | String c rest =>
      if isspace c
      then if String.eqb word "" then split_whitespace "" rest
           else word :: split_whitespace "" rest
      else split_whitespace (String.append word (String c "")) rest
  end.

(** [range(0, stop, step)]; [None] is the [ValueError] of a zero step. *)
Definition range (stop : nat) (step : Z) : option (list nat) :=
  if decide (step = 0) then None
  else if decide (step < 0) then Some []
  else Some ((λ k, (k * Z.to_nat step)%nat)
               <$> seq 0 ((stop + Z.to_nat step - 1) / Z.to_nat step)%nat).

(** [s[:stop]] *)
Definition slice_to (stop : Z) (s : string) : string :=
  if decide (0 ≤ stop) then substring 0 (Z.to_nat stop) s
  else substring 0 (String.length s - Z.to_nat (- stop)) s.

(** The loop that fills [broken_text]. *)
Fixpoint break_words (chunk_size : Z) (words : list string) : option (list string) :=
  match words with
  | [] => Some []
  | word :: rest =>
      if decide (chunk_size < Z.of_nat (String.length word)) then
        indices ← range (String.length word) chunk_size;
        broken_text ← break_words chunk_size rest;
        Some (((λ i, String.append (substring i (Z.to_nat chunk_size) word) " ")
                 <$> indices) ++ broken_text)
      else
        broken_text ← break_words chunk_size rest;
        Some (word :: broken_text)
  end.

(** [sanitize_text(text, max_length, chunk_size)]; [None] is the
    [ValueError]. *)
Definition sanitize_text (text : string) (max_length chunk_size : Z) : option string :=
  if String.eqb text "" then Some ""
  else
    broken_text ←
      break_words chunk_size (split_whitespace "" (sub_whitespace false text));
    Some (slice_to max_length (join " " broken_text)).

(** The length of the longest run of characters that are not white space,
    the run that ends where [s] starts having [run] characters. *)
Fixpoint longest_run (run : nat) (s : string) : nat :=
  match s with
  | EmptyString => run
  | String c rest =>
      if isspace c then Nat.max run (longest_run 0 rest)
      else longest_run (S run) rest
  end.

(** No character of the string is white space. *)
Fixpoint no_space (s : string) : bool :=
  match s with
  | EmptyString => true
  | String c rest => negb (isspace c) && no_space rest
  end.

(** * Properties *)

(** ** The upsert engine *)

Section ListFacts.
Context {A : Type} (P : A → Prop) `{!∀ x, Decision (P x)}.

Lemma first_None (l : list A) : first P l = None ↔ ∀ x, x ∈ l → ¬ P x.
Proof.
  unfold first. rewrite head_None. split.
  - intros Hnil x Hx HP. eapply filter_nil_not_elem_of; eauto.
  - intros Hall. induction l as [|y l IH]; [done|].
    rewrite filter_cons. destruct (decide (P y)) as [HP|HP].
    + exfalso. eapply Hall; [left|done].
    + apply IH. intros x Hx. apply Hall. by right.
Qed.

Lemma first_Some (l : list A) x : first P l = Some x → x ∈ l ∧ P x.
Proof.
  unfold first. intros Hh. apply head_Some_elem_of in Hh.
  apply list_elem_of_filter in Hh. tauto.
Qed.

Lemma first_filter_cons (l : list A) x :
  first P l = Some x → ∃ r, filter P l = x :: r.
Proof. unfold first. destruct (filter P l); naive_solver. Qed.
End ListFacts.

Lemma first_question db q :
  is_Some (first (λ x, Question.id x = q) (questions db)) ↔ question_exists db q.
Proof.
  unfold question_exists. rewrite list_elem_of_fmap. split.
  - intros [x Hx]. apply first_Some in Hx as [? ?]. eauto.
  - intros (x & -> & Hx).
    destruct (first _ _) eqn:E; [eauto|].
    rewrite first_None in E. naive_solver.
Qed.

Lemma NoDup_fmap_eq {A B} (f : A → B) (l : list A) x y :
  NoDup (f <$> l) → x ∈ l → y ∈ l → f x = f y → x = y.
Proof.
  induction l as [|z l IH]; simpl; [by intros _ ?%elem_of_nil|].
  rewrite NoDup_cons, !elem_of_cons, list_elem_of_fmap.
  intros [Hz Hnd] [->|Hx] [->|Hy] Hf; try done.
  - exfalso. apply Hz. eauto.
  - exfalso. apply Hz. eauto.
  - eauto.
Qed.


Lemma same_identity_refl a : same_identity a a.
Proof. by unfold same_identity. Qed.

Lemma same_identity_overwrite s r d a : same_identity a (overwrite s r d a).
Proof. by unfold same_identity. Qed.

Lemma same_identity_rewrite_row id s r d a :
  same_identity a (rewrite_row id (overwrite s r d) a).
Proof.
  unfold rewrite_row. case_decide; auto using same_identity_refl, same_identity_overwrite.
Qed.

Create HintDb upsert.
#[export] Hint Resolve same_identity_refl same_identity_overwrite
  same_identity_rewrite_row : upsert.

Lemma filter_answer_of_fmap u q (g : UserAnswer.t → UserAnswer.t)
  (l : list UserAnswer.t) :
  (∀ a, same_identity a (g a)) →
  filter (answer_of u q) (g <$> l) = g <$> filter (answer_of u q) l.
Proof.
  intros Hg. induction l as [|a l IH]; [done|].
  rewrite fmap_cons, !filter_cons, IH.
  destruct (Hg a) as (_ & Hq & Hu & _).
  assert (answer_of u q (g a) ↔ answer_of u q a) as Hiff
    by (unfold answer_of; by rewrite Hq, Hu).
  destruct (decide (answer_of u q (g a))), (decide (answer_of u q a)); tauto || done.
Qed.

Lemma user_answers_update id f db :
  user_answers (update_answer id f db) = rewrite_row id f <$> user_answers db.
Proof. done. Qed.

Lemma slot_update u q id s r d db :
  slot u q (update_answer id (overwrite s r d) db)
  = rewrite_row id (overwrite s r d) <$> slot u q db.
Proof.
  unfold slot. rewrite user_answers_update.
  apply filter_answer_of_fmap. intros a. apply same_identity_rewrite_row.
Qed.

Lemma slot_elem u q db a : a ∈ slot u q db ↔ answer_of u q a ∧ a ∈ user_answers db.
Proof. apply list_elem_of_filter. Qed.

Lemma slot_at_most_one u q db a :
  (length (slot u q db) ≤ 1)%nat → a ∈ slot u q db → slot u q db = [a].
Proof.
  intros Hlen Ha.
  destruct (slot u q db) as [|b [|c r]]; simpl in *; [by apply elem_of_nil in Ha| |lia].
  by apply list_elem_of_singleton in Ha as ->.
Qed.

Lemma slot_singleton u q db a :
  store_ok db → a ∈ slot u q db → slot u q db = [a].
Proof. intros Hok. apply slot_at_most_one, Hok. Qed.

Lemma slot_update_other u q u' q' a0 s r d db :
  store_ok db → a0 ∈ slot u q db → (u', q') ≠ (u, q) →
  slot u' q' (update_answer (UserAnswer.id a0) (overwrite s r d) db) = slot u' q' db.
Proof.
  intros Hok Ha0 Hne. rewrite slot_update.
  rewrite <- (list_fmap_id (slot u' q' db)) at 2.
  apply list_fmap_ext. intros i a Hi.
  apply list_elem_of_lookup_2 in Hi. unfold rewrite_row. case_decide as Hid; [|done].
  exfalso. apply Hne.
  apply slot_elem in Ha0 as [[Hu Hq] Hin0]. apply slot_elem in Hi as [[Hu' Hq'] Hin].
  assert (a = a0) as -> by (eapply NoDup_fmap_eq; eauto using pk_unique).
  congruence.
Qed.

Lemma slot_update_same u q a0 s r d db :
  store_ok db → a0 ∈ slot u q db →
  slot u q (update_answer (UserAnswer.id a0) (overwrite s r d) db) = [overwrite s r d a0].
Proof.
  intros Hok Ha0. rewrite slot_update, (slot_singleton u q db a0) by done.
  simpl. unfold rewrite_row. by rewrite decide_True.
Qed.

Lemma store_ok_update id s r d db :
  store_ok db → store_ok (update_answer id (overwrite s r d) db).
Proof.
  intros [Hnd Hlt Hone]. split.
  - rewrite user_answers_update, <- list_fmap_compose.
    erewrite list_fmap_ext; [exact Hnd|].
    intros i a _. simpl. apply same_identity_rewrite_row.
  - intros a'. rewrite user_answers_update, list_elem_of_fmap.
    intros (a & -> & Ha). simpl.
    destruct (same_identity_rewrite_row id s r d a) as [-> _]. auto.
  - intros u q. rewrite slot_update, length_fmap. apply Hone.
Qed.


Lemma add_answer_eq q u s r d db :
  add_answer q u s r d db =
  (user_answers_id_seq db,
   mk_db (companies db) (sections db) (questions db)
     (user_answers db ++ [new_row (user_answers_id_seq db) q u s r d])
     (users db) (profiles db) (user_answers_id_seq db + 1)).
Proof. done. Qed.

Lemma slot_add_same u q s r d db :
  slot u q (add_answer q u s r d db).2
  = slot u q db ++ [new_row (user_answers_id_seq db) q u s r d].
Proof.
  unfold slot. simpl. rewrite filter_app. f_equal.
  rewrite filter_cons_True; [done|]. by split.
Qed.

Lemma slot_add_other u q u' q' s r d db :
  (u', q') ≠ (u, q) → slot u' q' (add_answer q u s r d db).2 = slot u' q' db.
Proof.
  intros Hne. unfold slot. simpl. rewrite filter_app, filter_cons_False.
  - apply app_nil_r.
  - intros [Hu Hq]. simpl in *. congruence.
Qed.

Lemma store_ok_add u q s r d db :
  store_ok db → slot u q db = [] → store_ok (add_answer q u s r d db).2.
Proof.
  intros [Hnd Hlt Hone] Hempty. split.
  - simpl. rewrite fmap_app. apply NoDup_app. split_and!; [done| |apply NoDup_singleton].
    intros x Hx. rewrite list_elem_of_fmap in Hx. destruct Hx as (a & -> & Ha).
    simpl. rewrite list_elem_of_singleton. specialize (Hlt a Ha). lia.
  - simpl. intros a. rewrite elem_of_app, list_elem_of_singleton.
    intros [Ha| ->]; [specialize (Hlt a Ha)|simpl]; lia.
  - intros u' q'. destruct (decide ((u', q') = (u, q))) as [[= -> ->]|Hne].
    + rewrite slot_add_same, Hempty. simpl. lia.
    + rewrite slot_add_other by done. apply Hone.
Qed.

Section Engine.
Variable fromisoformat : string → option datetime.
Variable user_id : UUID.


Lemma step_skip now t db saved :
  ¬ question_exists db (AnswerSubmit.question_id t) →
  submit_answers_step fromisoformat user_id now t (db, saved) = (db, saved).
Proof.
  intros Hq. unfold submit_answers_step.
  destruct (first _ (questions db)) eqn:E; [|done].
  exfalso. apply Hq, first_question. eauto.
Qed.

Lemma step_accept now t db saved :
  store_ok db → question_exists db (AnswerSubmit.question_id t) →
  ∃ db' a',
    submit_answers_step fromisoformat user_id now t (db, saved)
    = (db', saved ++ [(AnswerSubmit.question_id t, UserAnswer.id a')]) ∧
    store_ok db' ∧
    questions db' = questions db ∧
    user_answers_id_seq db ≤ user_answers_id_seq db' ∧
    slot user_id (AnswerSubmit.question_id t) db' = [a'] ∧
    holds fromisoformat now t a' ∧
    upserted_from (slot user_id (AnswerSubmit.question_id t) db)
      (user_answers_id_seq db) a' ∧
    (∀ u' q', (u', q') ≠ (user_id, AnswerSubmit.question_id t) →
              slot u' q' db' = slot u' q' db) ∧
    (∀ a, a ∈ user_answers db → ∃ b, b ∈ user_answers db' ∧ same_identity a b).
Proof.
  intros Hok Hq. apply first_question in Hq as [x Hx].
  unfold submit_answers_step. rewrite Hx.
  set (q := AnswerSubmit.question_id t).
  set (d := resolve_submitted_at _ _ _).
  destruct (first (answer_of user_id q) (user_answers db)) as [a0|] eqn:E.
  - pose proof (first_filter_cons _ _ _ E) as [r Hr].
    assert (a0 ∈ slot user_id q db) as Ha0 by (unfold slot; rewrite Hr; left).
    eexists _, (overwrite _ _ d a0). split_and!; try done.
    + by apply store_ok_update.
    + by apply slot_update_same.
    + rewrite (slot_singleton _ _ _ _ Hok Ha0). apply same_identity_overwrite.
    + intros u' q' Hne. by eapply slot_update_other.
    + intros a Ha. eexists. split; [|apply same_identity_rewrite_row].
      rewrite user_answers_update. by apply list_elem_of_fmap_2.
  - assert (slot user_id q db = []) as Hempty.
    { unfold first in E. by apply head_None in E. }
    rewrite add_answer_eq.
    eexists _, (new_row (user_answers_id_seq db) q user_id _ _ d).
    split_and!; try done.
    + by apply (store_ok_add user_id q _ _ d).
    + simpl. lia.
    + pose proof (slot_add_same user_id q (AnswerSubmit.answer t)
                    (AnswerSubmit.rating t) d db) as Hs.
      rewrite add_answer_eq in Hs. simpl in Hs. by rewrite Hs, Hempty.
    + rewrite Hempty. simpl. split_and!; done || lia.
    + intros u' q' Hne.
      pose proof (slot_add_other user_id q u' q' (AnswerSubmit.answer t)
                    (AnswerSubmit.rating t) d db Hne) as Hs.
      by rewrite add_answer_eq in Hs.
    + intros a Ha. exists a. split; [|apply same_identity_refl].
      simpl. apply elem_of_app. by left.
Qed.

Lemma same_identity_trans a b c :
  same_identity a b → same_identity b c → same_identity a c.
Proof. unfold same_identity. intuition congruence. Qed.

Lemma upserted_from_trans before seq a b :
  upserted_from before seq a → same_identity a b → upserted_from before seq b.
Proof.
  unfold upserted_from. destruct before as [|a0 ?].
  - unfold same_identity. intuition congruence.
  - apply same_identity_trans.
Qed.

Lemma upserted_from_mono before seq seq' a :
  seq ≤ seq' → upserted_from before seq' a → upserted_from before seq a.
Proof. unfold upserted_from. destruct before; [|done]. intuition lia. Qed.

Lemma question_exists_same db db' q :
  questions db' = questions db → question_exists db' q ↔ question_exists db q.
Proof. unfold question_exists. by intros ->. Qed.

Variable clock : nat → datetime.

Lemma loop_spec answers : ∀ i db saved,
  store_ok db →
  ∃ db' accepted,
    submit_answers_loop fromisoformat user_id clock i answers (db, saved)
    = (db', saved ++ accepted) ∧
    store_ok db' ∧
    questions db' = questions db ∧
    user_answers_id_seq db ≤ user_answers_id_seq db' ∧
    (∀ a, a ∈ user_answers db → ∃ b, b ∈ user_answers db' ∧ same_identity a b) ∧
    accepted.*1
    = filter (question_exists db) (AnswerSubmit.question_id <$> answers) ∧
    (∀ q aid, (q, aid) ∈ accepted →
       ∃ a, a ∈ slot user_id q db' ∧ UserAnswer.id a = aid) ∧
    (∀ u' q',
       u' ≠ user_id
       ∨ ¬ (question_exists db q' ∧ q' ∈ (AnswerSubmit.question_id <$> answers)) →
       slot u' q' db' = slot u' q' db) ∧
    (∀ k t,
       answers !! k = Some t →
       question_exists db (AnswerSubmit.question_id t) →
       (∀ j t', (k < j)%nat → answers !! j = Some t' →
                AnswerSubmit.question_id t' ≠ AnswerSubmit.question_id t) →
       ∃ a, slot user_id (AnswerSubmit.question_id t) db' = [a] ∧
            holds fromisoformat (clock (i + k)) t a ∧
            upserted_from (slot user_id (AnswerSubmit.question_id t) db)
              (user_answers_id_seq db) a).
Proof.
  induction answers as [|t rest IH]; intros i db saved Hok.
  { exists db, []. simpl. rewrite app_nil_r. split_and!; try done.
    - eauto with upsert.
    - intros q aid []%elem_of_nil. }
  cbn [submit_answers_loop].
  destruct (decide (question_exists db (AnswerSubmit.question_id t))) as [Hq|Hq].
  - destruct (step_accept (clock i) t db saved Hok Hq)
      as (db1 & a1 & -> & Hok1 & Hqs1 & Hseq1 & Hslot1 & Hholds1 & Hfrom1 & Hother1 & Hid1).
    destruct (IH (S i) db1 (saved ++ [(AnswerSubmit.question_id t, UserAnswer.id a1)]) Hok1)
      as (db' & acc & -> & Hok' & Hqs' & Hseq' & Hid' & Hfst & Hrows & Hother' & Hlast).
    exists db', ((AnswerSubmit.question_id t, UserAnswer.id a1) :: acc).
    split_and!.
    + by rewrite <- app_assoc.
    + done.
    + congruence.
    + lia.
    + intros a Ha. destruct (Hid1 a Ha) as (b & Hb & Hab).
      destruct (Hid' b Hb) as (c & Hc & Hbc). eauto using same_identity_trans.
    + rewrite fmap_cons, fmap_cons, filter_cons_True by done. simpl. f_equal.
      rewrite Hfst. apply list_filter_iff. intros q. by apply question_exists_same.
    + intros q aid [[= -> ->]|Hin]%elem_of_cons; [|by apply Hrows].
      assert (a1 ∈ slot user_id (AnswerSubmit.question_id t) db1) as Ha1
        by (rewrite Hslot1; left).
      apply slot_elem in Ha1 as [[Hu Hqa] Ha1].
      destruct (Hid' a1 Ha1) as (b & Hb & (Hbid & Hbq & Hbu & _)).
      exists b. split; [|done]. apply slot_elem. split; [|done].
      split; congruence.
    + intros u' q' Hcond. rewrite Hother', Hother1; [done| |].
      * intros [= -> ->]. destruct Hcond as [?|Hn]; [done|].
        apply Hn. split; [done|]. rewrite fmap_cons. left.
      * destruct Hcond as [?|Hn]; [by left|right].
        intros [Hex Hin]. apply Hn. split.
        -- by eapply question_exists_same.
        -- rewrite fmap_cons. by right.
    + intros [|k] t' Hk Hqt' Hlater.
      * simpl in Hk. injection Hk as <-. exists a1.
        rewrite Nat.add_0_r. split_and!; [|done|done].
        rewrite Hother'; [done|]. right. intros [_ Hin].
        apply list_elem_of_fmap in Hin as (t' & Heq & Hin).
        apply list_elem_of_lookup in Hin as [j Hj].
        apply (Hlater (S j) t'); [lia|done|done].
      * simpl in Hk.
        destruct (Hlast k t' Hk) as (a & Hslot & Hholds & Hfrom).
        { by eapply question_exists_same. }
        { intros j t'' Hj Hlk. apply (Hlater (S j) t''); [lia|done]. }
        exists a. replace (i + S k)%nat with (S i + k)%nat by lia.
        split_and!; [done|done|].
        destruct (decide (AnswerSubmit.question_id t' = AnswerSubmit.question_id t))
          as [Heq|Hne].
        -- rewrite Heq in *. rewrite Hslot1 in Hfrom. simpl in Hfrom.
           eapply upserted_from_trans; eauto.
        -- rewrite Hother1 in Hfrom by congruence.
           eapply upserted_from_mono; eauto.
  - rewrite step_skip by done.
    destruct (IH (S i) db saved Hok)
      as (db' & acc & -> & Hok' & Hqs' & Hseq' & Hid' & Hfst & Hrows & Hother' & Hlast).
    exists db', acc. split_and!; try done.
    + by rewrite fmap_cons, filter_cons_False.
    + intros u' q' Hcond. apply Hother'.
      destruct Hcond as [?|Hn]; [by left|right].
      intros [Hex Hin]. apply Hn. split; [done|]. rewrite fmap_cons. by right.
    + intros [|k] t' Hk Hqt' Hlater.
      * simpl in Hk. congruence.
      * simpl in Hk. replace (i + S k)%nat with (S i + k)%nat by lia.
        apply Hlast; [done|done|].
        intros j t'' Hj Hlk. apply (Hlater (S j) t''); [lia|done].
Qed.

(** On a store that has no answer of the user to the questions of the
    batch, distinct accepted questions add one row each. *)
Lemma loop_fresh_length answers : ∀ i db saved,
  NoDup (filter (question_exists db) (AnswerSubmit.question_id <$> answers)) →
  (∀ t, t ∈ answers → slot user_id (AnswerSubmit.question_id t) db = []) →
  length (user_answers
            (submit_answers_loop fromisoformat user_id clock i answers (db, saved)).1)
  = (length (user_answers db)
     + length (filter (question_exists db) (AnswerSubmit.question_id <$> answers)))%nat.
Proof.
  induction answers as [|t rest IH]; intros i db saved Hnd Hfresh.
  { simpl. lia. }
  cbn [submit_answers_loop]. rewrite fmap_cons in Hnd |- *.
  destruct (decide (question_exists db (AnswerSubmit.question_id t))) as [Hq|Hq].
  - rewrite filter_cons_True in Hnd |- * by done.
    apply NoDup_cons in Hnd as [Hnotin Hnd].
    pose proof Hq as Hq'. apply first_question in Hq' as [x Hx].
    unfold submit_answers_step. rewrite Hx.
    assert (first (answer_of user_id (AnswerSubmit.question_id t)) (user_answers db)
            = None) as ->.
    { unfold first. fold (slot user_id (AnswerSubmit.question_id t) db).
      rewrite Hfresh; [done|left]. }
    rewrite add_answer_eq.
    set (db1 := mk_db _ _ _ _ _ _ _).
    assert (∀ q, question_exists db1 q ↔ question_exists db q) as Hex by done.
    assert (filter (question_exists db1) (AnswerSubmit.question_id <$> rest)
            = filter (question_exists db) (AnswerSubmit.question_id <$> rest)) as Hf
      by (by apply list_filter_iff).
    rewrite IH.
    + rewrite Hf. subst db1. cbn [user_answers length].
      rewrite length_app. simpl. lia.
    + by rewrite Hf.
    + intros t' Ht'.
      destruct (decide (AnswerSubmit.question_id t' = AnswerSubmit.question_id t))
        as [Heq|Hne].
      * exfalso. apply Hnotin. apply list_elem_of_filter. split; [done|].
        rewrite <- Heq. by apply list_elem_of_fmap_2.
      * pose proof (slot_add_other user_id (AnswerSubmit.question_id t) user_id
                      (AnswerSubmit.question_id t') (AnswerSubmit.answer t)
                      (AnswerSubmit.rating t)
                      (resolve_submitted_at fromisoformat (clock i)
                         (AnswerSubmit.submitted_at t)) db) as Hs.
        rewrite add_answer_eq in Hs. cbn [snd] in Hs. fold db1 in Hs.
        rewrite Hs by congruence. apply Hfresh. by right.
  - rewrite filter_cons_False in Hnd |- * by done.
    rewrite step_skip by done. apply IH; [done|].
    intros t' Ht'. apply Hfresh. by right.
Qed.
End Engine.

(** ** Batch submission *)

Lemma one_per_pair_of_NoDup (l : list UserAnswer.t) u q :
  NoDup ((λ a, (UserAnswer.user_id a, UserAnswer.question_id a)) <$> l) →
  (length (filter (answer_of u q) l) ≤ 1)%nat.
Proof.
  induction l as [|a l IH]; [simpl; lia|].
  rewrite fmap_cons, NoDup_cons. intros [Hnotin Hnd].
  rewrite filter_cons. case_decide as Ha; [|by apply IH].
  destruct Ha as [Hu Hq].
  assert (filter (answer_of u q) l = []) as ->; [|simpl; lia].
  destruct (filter (answer_of u q) l) as [|b r] eqn:E; [done|].
  exfalso. apply Hnotin.
  assert (b ∈ filter (answer_of u q) l) as Hb by (rewrite E; left).
  apply list_elem_of_filter in Hb as [[Hbu Hbq] Hb].
  apply list_elem_of_fmap. exists b. split; [|done]. congruence.
Qed.

Lemma store_ok_intro db :
  NoDup (UserAnswer.id <$> user_answers db) →
  (∀ a, a ∈ user_answers db → UserAnswer.id a < user_answers_id_seq db) →
  NoDup ((λ a, (UserAnswer.user_id a, UserAnswer.question_id a)) <$> user_answers db) →
  store_ok db.
Proof.
  intros Hpk Hseq Hpairs. split; [done|done|].
  intros u q. by apply one_per_pair_of_NoDup.
Qed.

Lemma sample_db_ok : store_ok sample_db.
Proof.
  apply store_ok_intro.
  - compute_done.
  - intros a Ha. apply list_elem_of_singleton in Ha as ->. simpl. lia.
  - compute_done.
Qed.

(** Claim C1. A batch submission by a Profile keeps the store well formed,
    so that afterwards a user still has at most one answer per question. The
    tuple that is the last of the batch for an existing question ends up as
    the only stored answer of its (user, question) pair: the row holds the
    tuple's answer, rating and resolved [submitted_at]; when the pair had an
    answer before, it is that row under its old id, and otherwise it is a new
    row with [feedback = None] and [feedback_generated = false]. Submitting a
    pair twice therefore leaves one row with the latest content. *)
Theorem submit_answers_upsert fromisoformat clock answers p db :
  store_ok db →
  ∃ body db',
    submit_answers fromisoformat clock answers (IsProfile p) db = (Return body, db') ∧
    store_ok db' ∧
    (∀ u q, (length (slot u q db') ≤ 1)%nat) ∧
    ∀ k t,
      answers !! k = Some t →
      question_exists db (AnswerSubmit.question_id t) →
      (∀ j t', (k < j)%nat → answers !! j = Some t' →
               AnswerSubmit.question_id t' ≠ AnswerSubmit.question_id t) →
      ∃ a,
        slot (Profile.id p) (AnswerSubmit.question_id t) db' = [a] ∧
        UserAnswer.answer a = Some (AnswerSubmit.answer t) ∧
        UserAnswer.rating a = AnswerSubmit.rating t ∧
        UserAnswer.submitted_at a
        = Some (resolve_submitted_at fromisoformat (clock k)
                  (AnswerSubmit.submitted_at t)) ∧
        match slot (Profile.id p) (AnswerSubmit.question_id t) db with
        | a0 :: _ => UserAnswer.id a = UserAnswer.id a0
        | [] => UserAnswer.feedback a = None ∧ UserAnswer.feedback_generated a = false
        end.
Proof.
  intros Hok. unfold submit_answers.
  destruct (loop_spec fromisoformat (Profile.id p) clock answers 0%nat db [] Hok)
    as (db' & acc & -> & Hok' & _ & _ & _ & _ & _ & _ & Hlast).
  eexists _, db'. split_and!; [done|done|apply Hok'|].
  intros k t Hk Hq Hlater.
  destruct (Hlast k t Hk Hq Hlater) as (a & Hslot & (Hans & Hrat & Hsub) & Hfrom).
  exists a. split_and!; try done.
  unfold upserted_from, same_identity in Hfrom.
  destruct (slot _ _ db); tauto.
Qed.


Lemma submit_answers_upsert_witness :
  store_ok sample_db ∧
  ∃ db' a,
    (submit_answers sample_fromisoformat sample_clock sample_batch
       (IsProfile ann) sample_db).2 = db' ∧
    slot 7%N 1 db' = [a] ∧
    UserAnswer.answer a = Some "second" ∧
    UserAnswer.rating a = Some 3 ∧
    UserAnswer.id a = 100.
Proof.
  split; [exact sample_db_ok|].
  destruct (submit_answers_upsert sample_fromisoformat sample_clock sample_batch
              ann sample_db sample_db_ok)
    as (body & db' & Hrun & _ & _ & Hlast).
  destruct (Hlast 1%nat (AnswerSubmit.mk 1 "second" (Some 3) (Some "not-a-date")))
    as (a & Hslot & Hans & Hrat & _ & Hid).
  - reflexivity.
  - compute_done.
  - intros [|[|[|j]]] t' Hj; [lia|lia|discriminate|discriminate].
  - exists db', a. rewrite Hrun. simpl in *. auto.
Defined.

Lemma NoDup_snd_of_fst {A B} (l : list (A * B)) :
  NoDup l.*1 → (∀ x y, x ∈ l → y ∈ l → x.2 = y.2 → x.1 = y.1) → NoDup l.*2.
Proof.
  induction l as [|[a b] l IH]; [constructor|].
  rewrite !fmap_cons, !NoDup_cons. simpl. intros [Hnotin Hnd] Hinj. split.
  - intros Hb. apply list_elem_of_fmap in Hb as ([a' b'] & Heq & Hin). simpl in Heq.
    subst b'. apply Hnotin. apply list_elem_of_fmap. exists (a', b). split; [|done].
    simpl. apply (Hinj (a, b) (a', b)); [left|by right|done].
  - apply IH; [done|]. intros x y Hx Hy. apply Hinj; by right.
Qed.

Lemma filter_all {A} (P : A → Prop) `{!∀ x, Decision (P x)} (l : list A) :
  Forall P l → filter P l = l.
Proof.
  induction 1 as [|x l Hx Hl IH]; [done|].
  by rewrite filter_cons_True, IH.
Qed.

Lemma distinct_positions {A B} (P : B → Prop) `{!∀ x, Decision (P x)} (f : A → B)
  (l : list A) (k j : nat) (x x' : A) :
  NoDup (filter P (f <$> l)) →
  l !! k = Some x → l !! j = Some x' → (k < j)%nat → P (f x) → f x' ≠ f x.
Proof.
  revert k j. induction l as [|a l IH]; intros k j Hnd Hk Hj Hlt HP; [done|].
  rewrite fmap_cons in Hnd. destruct k as [|k], j as [|j]; try lia.
  - simpl in Hk, Hj. injection Hk as ->.
    rewrite filter_cons_True in Hnd by done. apply NoDup_cons in Hnd as [Hnotin _].
    intros Heq. apply Hnotin. apply list_elem_of_filter. split; [done|].
    rewrite <- Heq. apply list_elem_of_fmap_2. by eapply list_elem_of_lookup_2.
  - simpl in Hk, Hj. apply (IH k j); [|done|done|lia|done].
    rewrite filter_cons in Hnd. case_decide; [|done].
    by apply NoDup_cons in Hnd as [_ ?].
Qed.

Lemma last_occurrence {A B} `{EqDecision B} (f : A → B) (l : list A) (y : B) :
  y ∈ f <$> l →
  ∃ k x, l !! k = Some x ∧ f x = y ∧
         ∀ j x', (k < j)%nat → l !! j = Some x' → f x' ≠ y.
Proof.
  induction l as [|a l IH]; [by intros ?%elem_of_nil|].
  rewrite fmap_cons. intros Hin.
  destruct (decide (y ∈ f <$> l)) as [Hl|Hl].
  - destruct (IH Hl) as (k & x & Hk & Hx & Hlater).
    exists (S k), x. split_and!; [done|done|].
    intros [|j] x' Hj Hx'; [lia|]. apply (Hlater j x'); [lia|done].
  - apply elem_of_cons in Hin as [->|Hin]; [|done].
    exists 0%nat, a. split_and!; [done|done|].
    intros [|j] x' Hj Hx'; [lia|]. simpl in Hx'.
    intros Heq. apply Hl. rewrite <- Heq. apply list_elem_of_fmap_2.
    by eapply list_elem_of_lookup_2.
Qed.

(** Claim C4. In a batch submission by a Profile the tuples whose
    [question_id] names no existing question are skipped and the others are
    accepted, in order: the reported pairs are those of the tuples with an
    existing question, each pair names a stored row of the user for that
    question, and distinct accepted questions are stored in distinct rows.
    The tuple that is the last of the batch for an existing question is
    what its row holds afterwards (answer, rating and resolved
    [submitted_at]), under the [answer_id] reported for that question.
    Nothing else is written: the answers of other users, and of the user to
    questions that do not exist or are not in the batch, stay as they were,
    and every row of the store afterwards is a row of the store before or
    holds a tuple of the batch whose question exists. A batch of N tuples
    with exactly one unknown [question_id] reports N-1 pairs, one for each
    of the other tuples; when their questions are distinct each is stored as
    the one row of its pair, and on a store without answers of the user to
    them the table grows by exactly N-1 rows. *)
Theorem submit_answers_skips_unknown_questions fromisoformat clock answers p db :
  store_ok db →
  ∃ body db',
    submit_answers fromisoformat clock answers (IsProfile p) db = (Return body, db') ∧
    (sab_answers body).*1
    = filter (question_exists db) (AnswerSubmit.question_id <$> answers) ∧
    (∀ q aid, (q, aid) ∈ sab_answers body →
       ∃ a, a ∈ user_answers db' ∧ UserAnswer.id a = aid ∧
            UserAnswer.user_id a = Profile.id p ∧ UserAnswer.question_id a = q) ∧
    (NoDup (sab_answers body).*1 → NoDup (sab_answers body).*2) ∧
    (∀ k t,
       answers !! k = Some t →
       question_exists db (AnswerSubmit.question_id t) →
       (∀ j t', (k < j)%nat → answers !! j = Some t' →
                AnswerSubmit.question_id t' ≠ AnswerSubmit.question_id t) →
       ∃ a,
         slot (Profile.id p) (AnswerSubmit.question_id t) db' = [a] ∧
         UserAnswer.answer a = Some (AnswerSubmit.answer t) ∧
         UserAnswer.rating a = AnswerSubmit.rating t ∧
         UserAnswer.submitted_at a
         = Some (resolve_submitted_at fromisoformat (clock k)
                   (AnswerSubmit.submitted_at t)) ∧
         (∀ aid, (AnswerSubmit.question_id t, aid) ∈ sab_answers body →
                 aid = UserAnswer.id a)) ∧
    (∀ u q,
       u ≠ Profile.id p
       ∨ ¬ (question_exists db q ∧ q ∈ (AnswerSubmit.question_id <$> answers)) →
       slot u q db' = slot u q db) ∧
    (∀ b, b ∈ user_answers db' →
       b ∈ user_answers db ∨
       UserAnswer.user_id b = Profile.id p ∧
       ∃ k t,
         answers !! k = Some t ∧
         question_exists db (AnswerSubmit.question_id t) ∧
         UserAnswer.question_id b = AnswerSubmit.question_id t ∧
         UserAnswer.answer b = Some (AnswerSubmit.answer t) ∧
         UserAnswer.rating b = AnswerSubmit.rating t ∧
         UserAnswer.submitted_at b
         = Some (resolve_submitted_at fromisoformat (clock k)
                   (AnswerSubmit.submitted_at t))) ∧
    (∀ before bad after,
       answers = before ++ bad :: after →
       ¬ question_exists db (AnswerSubmit.question_id bad) →
       Forall (λ t, question_exists db (AnswerSubmit.question_id t)) (before ++ after) →
       S (length (sab_answers body)) = length answers ∧
       (sab_answers body).*1 = AnswerSubmit.question_id <$> (before ++ after) ∧
       (NoDup (AnswerSubmit.question_id <$> (before ++ after)) →
          (∀ t, t ∈ before ++ after →
                ∃ a,
                  slot (Profile.id p) (AnswerSubmit.question_id t) db' = [a] ∧
                  UserAnswer.answer a = Some (AnswerSubmit.answer t) ∧
                  UserAnswer.rating a = AnswerSubmit.rating t ∧
                  (AnswerSubmit.question_id t, UserAnswer.id a) ∈ sab_answers body) ∧
          ((∀ t, t ∈ answers →
                 slot (Profile.id p) (AnswerSubmit.question_id t) db = []) →
           length (user_answers db')
           = (length (user_answers db) + length (before ++ after))%nat))).
Proof.
  intros Hok. unfold submit_answers.
  pose proof (loop_fresh_length fromisoformat (Profile.id p) clock answers 0%nat db [])
    as Hfreshlen.
  destruct (loop_spec fromisoformat (Profile.id p) clock answers 0%nat db [] Hok)
    as (db' & acc & Hloop & Hok' & _ & _ & _ & Hfst & Hrows & Hother & Hlast).
  rewrite Hloop in Hfreshlen |- *. cbn [fst] in Hfreshlen.
  assert (∀ k t,
            answers !! k = Some t →
            question_exists db (AnswerSubmit.question_id t) →
            (∀ j t', (k < j)%nat → answers !! j = Some t' →
                     AnswerSubmit.question_id t' ≠ AnswerSubmit.question_id t) →
            ∃ a,
              slot (Profile.id p) (AnswerSubmit.question_id t) db' = [a] ∧
              UserAnswer.answer a = Some (AnswerSubmit.answer t) ∧
              UserAnswer.rating a = AnswerSubmit.rating t ∧
              UserAnswer.submitted_at a
              = Some (resolve_submitted_at fromisoformat (clock k)
                        (AnswerSubmit.submitted_at t)) ∧
              (∀ aid, (AnswerSubmit.question_id t, aid) ∈ acc →
                      aid = UserAnswer.id a)) as Hcontent.
  { intros k t Hk Hq Hlater.
    destruct (Hlast k t Hk Hq Hlater) as (a & Hslot & (Hans & Hrat & Hsub) & _).
    exists a. split_and!; [done..|].
    intros aid Hin. destruct (Hrows _ _ Hin) as (a' & Ha' & <-).
    rewrite Hslot in Ha'. by apply list_elem_of_singleton in Ha' as ->. }
  eexists _, db'. cbn [sab_answers app]. split_and!; [done|done| | |done|done| |].
  - intros q aid Hin. destruct (Hrows q aid Hin) as (a & Ha & Hid).
    apply slot_elem in Ha as [[Hu Hq] Ha]. eauto.
  - intros Hnd. apply NoDup_snd_of_fst; [done|].
    intros [q1 a1] [q2 a2] H1 H2. simpl. intros <-.
    destruct (Hrows q1 a1 H1) as (r1 & Hr1 & Hid1).
    destruct (Hrows q2 a1 H2) as (r2 & Hr2 & Hid2).
    apply slot_elem in Hr1 as [[_ Hq1] Hr1]. apply slot_elem in Hr2 as [[_ Hq2] Hr2].
    assert (r1 = r2) as -> by
      (eapply NoDup_fmap_eq; eauto using pk_unique; congruence).
    congruence.
  - intros b Hb.
    assert (b ∈ slot (UserAnswer.user_id b) (UserAnswer.question_id b) db') as Hbs
      by (by apply slot_elem).
    destruct (decide (UserAnswer.user_id b = Profile.id p)) as [Hu|Hu]; cycle 1.
    { left. rewrite Hother in Hbs by (by left). by apply slot_elem in Hbs as [_ ?]. }
    destruct (decide (question_exists db (UserAnswer.question_id b) ∧
                      UserAnswer.question_id b
                      ∈ (AnswerSubmit.question_id <$> answers))) as [[Hq Hin]|Hn]; cycle 1.
    { left. rewrite Hother in Hbs by (by right). by apply slot_elem in Hbs as [_ ?]. }
    right. split; [done|].
    destruct (last_occurrence _ _ _ Hin) as (k & t & Hk & Hqt & Hlater).
    rewrite <- Hqt in Hq.
    destruct (Hcontent k t Hk Hq) as (a & Hslot & Hans & Hrat & Hsub & _).
    { intros j t' Hj Ht'. rewrite Hqt. by eapply Hlater. }
    rewrite Hu, <- Hqt, Hslot in Hbs. apply list_elem_of_singleton in Hbs as ->.
    assert (a ∈ slot (Profile.id p) (AnswerSubmit.question_id t) db') as Ha
      by (rewrite Hslot; left).
    apply slot_elem in Ha as [[_ Hqa] _].
    exists k, t. split_and!; done.
  - intros before bad after -> Hbad Hgood.
    assert (acc.*1 = AnswerSubmit.question_id <$> (before ++ after)) as Hacc.
    { rewrite Hfst, !fmap_app, fmap_cons, !filter_app.
      rewrite filter_cons_False by done.
      apply Forall_app in Hgood as [Hb Ha].
      f_equal; apply filter_all; by apply Forall_fmap. }
    assert (length acc = length (before ++ after)) as Hlen
      by (rewrite <- (length_fmap fst acc), Hacc; apply length_fmap).
    cbn [sab_answers app].
    split_and!; [rewrite Hlen, !length_app; cbn [length]; lia|done|].
    intros Hnd. split.
    + intros t Ht.
      assert (t ∈ before ++ bad :: after) as Ht'.
      { apply elem_of_app in Ht as [?|?]; apply elem_of_app; [by left|].
        right. by right. }
      apply list_elem_of_lookup in Ht' as [k Hk].
      assert (question_exists db (AnswerSubmit.question_id t)) as Hq
        by (by apply (proj1 (Forall_forall _ _) Hgood)).
      destruct (Hcontent k t Hk Hq) as (a & Hslot & Hans & Hrat & _ & Hid).
      { intros j t' Hj Hj' Heq.
        assert (filter (question_exists db)
                  (AnswerSubmit.question_id <$> (before ++ bad :: after))
                = AnswerSubmit.question_id <$> (before ++ after)) as Hfilt
          by (by rewrite <- Hfst).
        assert (NoDup (filter (question_exists db)
                         (AnswerSubmit.question_id <$> (before ++ bad :: after))))
          as Hnd' by (by rewrite Hfilt).
        apply (distinct_positions (question_exists db) AnswerSubmit.question_id
                 (before ++ bad :: after) k j t t'); done. }
      exists a. split_and!; [done..|].
      assert (AnswerSubmit.question_id t ∈ acc.*1) as Hin.
      { rewrite Hacc. by apply list_elem_of_fmap_2. }
      apply list_elem_of_fmap in Hin as ([q aid] & Hq' & Hin). simpl in Hq'. subst q.
      by rewrite <- (Hid aid Hin).
    + intros Hfresh. rewrite Hfreshlen; [|by rewrite <- Hfst, Hacc|done].
      by rewrite <- Hfst, Hacc, length_fmap.
Qed.

Lemma submit_answers_skips_unknown_questions_witness :
  store_ok sample_db ∧
  ∃ body db' a,
    submit_answers sample_fromisoformat sample_clock sample_batch_with_unknown
      (IsProfile ann) sample_db = (Return body, db') ∧
    S (length (sab_answers body)) = length sample_batch_with_unknown ∧
    (sab_answers body).*1 = [1; 2] ∧
    slot 7%N 2 db' = [a] ∧
    UserAnswer.answer a = Some "good" ∧
    UserAnswer.rating a = Some 3 ∧
    (2, UserAnswer.id a) ∈ sab_answers body.
Proof.
  split; [exact sample_db_ok|].
  destruct (submit_answers_skips_unknown_questions sample_fromisoformat sample_clock
              sample_batch_with_unknown ann sample_db sample_db_ok)
    as (body & db' & Hrun & _ & _ & _ & _ & _ & _ & Hone).
  destruct (Hone [AnswerSubmit.mk 1 "fine" (Some 2) None]
              (AnswerSubmit.mk 99 "lost" (Some 1) None)
              [AnswerSubmit.mk 2 "good" (Some 3) (Some "2024-05-01T10:00:00Z")])
    as (Hlen & Hids & Hrows).
  - reflexivity.
  - compute_done.
  - compute_done.
  - destruct Hrows as [Hrows _]; [compute_done|].
    destruct (Hrows (AnswerSubmit.mk 2 "good" (Some 3) (Some "2024-05-01T10:00:00Z")))
      as (a & Hslot & Hans & Hrat & Hid); [simpl; right; left|].
    exists body, db', a. split_and!; done.
Defined.

Lemma append_cons c (s t : string) :
  String.append (String c s) t = String c (String.append s t).
Proof. reflexivity. Qed.

Lemma append_assoc (s1 s2 s3 : string) :
  String.append s1 (String.append s2 s3) = String.append (String.append s1 s2) s3.
Proof. induction s1 as [|c s1 IH]; [done|]. rewrite !append_cons. by f_equal. Qed.

Lemma append_empty_r (s : string) : String.append s "" = s.
Proof. induction s as [|c s IH]; [done|]. rewrite append_cons. by f_equal. Qed.

Lemma replace_absent old new s :
  contains_char old s = false → replace old new s = s.
Proof.
  induction s as [|c s IH]; simpl; [done|].
  intros [Hc Hs]%orb_false_iff. rewrite Hc. f_equal. auto.
Qed.

Lemma replace_app old new s1 s2 :
  replace old new (String.append s1 s2)
  = String.append (replace old new s1) (replace old new s2).
Proof.
  induction s1 as [|c s1 IH]; [done|].
  rewrite append_cons. simpl.
  destruct (Ascii.eqb c old); rewrite IH; [|done].
  apply append_assoc.
Qed.

Lemma replace_trailing old new s :
  contains_char old s = false →
  replace old new (String.append s (String old EmptyString)) = String.append s new.
Proof.
  intros Hs. rewrite replace_app, (replace_absent _ _ _ Hs). simpl.
  rewrite Ascii.eqb_refl. f_equal. apply append_empty_r.
Qed.

Lemma truthy_str_Some s : s ≠ "" → truthy_str (Some s) = true.
Proof. intros Hs. simpl. by destruct s. Qed.

(** Claim C5. The [submitted_at] of a tuple resolves to the server time when
    it is absent; to the value [fromisoformat] gives on the string with ["Z"]
    replaced by ["+00:00"] when that parses (for a string whose only ["Z"] is
    the last character this is the string with the trailing ["Z"] read as
    offset [+00:00]); to the value of the string itself when only that parses;
    and to the server time when neither parses. A batch submission by a
    Profile never fails, and the row stored for a tuple carries the resolved
    value. *)
Theorem submitted_at_resolution fromisoformat :
  (∀ now, resolve_submitted_at fromisoformat now None = now) ∧
  (∀ now s d, s ≠ "" → fromisoformat (replace "Z" "+00:00" s) = Some d →
     resolve_submitted_at fromisoformat now (Some s) = d) ∧
  (∀ s, contains_char "Z" s = false →
     replace "Z" "+00:00" (String.append s "Z") = String.append s "+00:00" ∧
     replace "Z" "+00:00" s = s) ∧
  (∀ now s d, s ≠ "" → fromisoformat (replace "Z" "+00:00" s) = None →
     fromisoformat s = Some d →
     resolve_submitted_at fromisoformat now (Some s) = d) ∧
  (∀ now s, fromisoformat (replace "Z" "+00:00" s) = None → fromisoformat s = None →
     resolve_submitted_at fromisoformat now (Some s) = now) ∧
  (∀ clock answers p db,
     store_ok db →
     ∃ body db',
       submit_answers fromisoformat clock answers (IsProfile p) db = (Return body, db') ∧
       ∀ k t,
         answers !! k = Some t →
         question_exists db (AnswerSubmit.question_id t) →
         (∀ j t', (k < j)%nat → answers !! j = Some t' →
                  AnswerSubmit.question_id t' ≠ AnswerSubmit.question_id t) →
         ∃ a, slot (Profile.id p) (AnswerSubmit.question_id t) db' = [a] ∧
              UserAnswer.submitted_at a
              = Some (resolve_submitted_at fromisoformat (clock k)
                        (AnswerSubmit.submitted_at t))).
Proof.
  split_and!.
  - done.
  - intros now s d Hs Hd. unfold resolve_submitted_at.
    rewrite truthy_str_Some by done. simpl. by rewrite Hd.
  - intros s Hs. split; [by apply replace_trailing|by apply replace_absent].
  - intros now s d Hs Hr Hd. unfold resolve_submitted_at.
    rewrite truthy_str_Some by done. simpl. by rewrite Hr, Hd.
  - intros now s Hr Hd. unfold resolve_submitted_at.
    destruct (truthy_str (Some s)); [|done]. simpl. by rewrite Hr, Hd.
  - intros clock answers p db Hok. unfold submit_answers.
    destruct (loop_spec fromisoformat (Profile.id p) clock answers 0%nat db [] Hok)
      as (db' & acc & -> & _ & _ & _ & _ & _ & _ & _ & Hlast).
    eexists _, db'. split; [done|].
    intros k t Hk Hq Hlater.
    destruct (Hlast k t Hk Hq Hlater) as (a & Hslot & (_ & _ & Hsub) & _). eauto.
Qed.

Lemma submitted_at_resolution_witness :
  resolve_submitted_at sample_fromisoformat (sample_clock 0) (Some "not-a-date")
  = sample_clock 0 ∧
  resolve_submitted_at sample_fromisoformat (sample_clock 0)
    (Some "2024-05-01T10:00:00Z")
  = mk_datetime 1714557600000000 (Some 0) ∧
  (store_ok sample_db ∧
   ∃ db' a,
     (submit_answers sample_fromisoformat sample_clock sample_batch
        (IsProfile ann) sample_db).2 = db' ∧
     slot 7%N 1 db' = [a] ∧
     UserAnswer.submitted_at a = Some (sample_clock 1)).
Proof.
  destruct (submitted_at_resolution sample_fromisoformat)
    as (_ & Hparsed & _ & _ & Hfails & Hstored).
  split_and!.
  - apply Hfails; reflexivity.
  - apply Hparsed; [discriminate|reflexivity].
  - exact sample_db_ok.
  - destruct (Hstored sample_clock sample_batch ann sample_db sample_db_ok)
      as (body & db' & Hrun & Hlast).
    destruct (Hlast 1%nat (AnswerSubmit.mk 1 "second" (Some 3) (Some "not-a-date")))
      as (a & Hslot & Hsub).
    + reflexivity.
    + compute_done.
    + intros [|[|[|j]]] t' Hj; [lia|lia|discriminate|discriminate].
    + exists db', a. rewrite Hrun. split_and!; [done|done|].
      rewrite Hsub. reflexivity.
Defined.

Lemma step_keeps_identity fromisoformat u now t db saved a :
  a ∈ user_answers db →
  ∃ b, b ∈ user_answers (submit_answers_step fromisoformat u now t (db, saved)).1
       ∧ same_identity a b.
Proof.
  intros Ha. unfold submit_answers_step.
  destruct (first _ (questions db)); [|eauto with upsert].
  destruct (first _ (user_answers db)) as [a0|]; simpl.
  - eexists. split; [|apply same_identity_rewrite_row].
    by apply list_elem_of_fmap_2.
  - exists a. split; [|apply same_identity_refl]. apply elem_of_app. by left.
Qed.

Lemma loop_keeps_identity fromisoformat u clock answers : ∀ i db saved a,
  a ∈ user_answers db →
  ∃ b, b ∈ user_answers (submit_answers_loop fromisoformat u clock i answers (db, saved)).1
       ∧ same_identity a b.
Proof.
  induction answers as [|t rest IH]; intros i db saved a Ha.
  { eauto with upsert. }
  cbn [submit_answers_loop].
  destruct (step_keeps_identity fromisoformat u (clock i) t db saved a Ha)
    as (b & Hb & Hab).
  destruct (submit_answers_step fromisoformat u (clock i) t (db, saved)) as [db1 saved1].
  destruct (IH (S i) db1 saved1 b Hb) as (c & Hc & Hbc).
  eauto using same_identity_trans.
Qed.

Lemma submit_answers_keeps_identity fromisoformat clock answers user db a :
  a ∈ user_answers db →
  ∃ b, b ∈ user_answers (submit_answers fromisoformat clock answers user db).2
       ∧ same_identity a b.
Proof.
  intros Ha. unfold submit_answers. destruct user as [p|u].
  - destruct (loop_keeps_identity fromisoformat (Profile.id p) clock answers
                0%nat db [] a Ha) as (b & Hb & Hab).
    destruct (submit_answers_loop _ _ _ _ _ _) as [db' saved]. eauto.
  - eauto with upsert.
Qed.

Lemma submit_answer_keeps_identity now question_id answer user db a :
  a ∈ user_answers db →
  ∃ b, b ∈ user_answers (submit_answer now question_id answer user db).2
       ∧ same_identity a b.
Proof.
  intros Ha. unfold submit_answer.
  destruct (first _ (questions db)); [|eauto with upsert].
  destruct user as [p|u]; [|eauto with upsert].
  destruct (first _ (user_answers db)) as [a0|]; simpl.
  - eexists. split; [|apply same_identity_rewrite_row].
    by apply list_elem_of_fmap_2.
  - exists a. split; [|apply same_identity_refl]. apply elem_of_app. by left.
Qed.

(** Claim C10. A submission, batch or single, leaves [id], [question_id],
    [user_id], [feedback] and [feedback_generated] of every stored answer as
    they were. When it updates the existing answer of the user to the
    question, the row gets the new [answer], [rating] and [submitted_at] and
    keeps its [feedback] and [feedback_generated], so feedback generated for
    the old text stays attached to the new one. *)
Theorem submission_keeps_feedback fromisoformat user db a :
  a ∈ user_answers db →
  (∀ clock answers,
     ∃ b, b ∈ user_answers (submit_answers fromisoformat clock answers user db).2 ∧
          UserAnswer.id b = UserAnswer.id a ∧
          UserAnswer.question_id b = UserAnswer.question_id a ∧
          UserAnswer.user_id b = UserAnswer.user_id a ∧
          UserAnswer.feedback b = UserAnswer.feedback a ∧
          UserAnswer.feedback_generated b = UserAnswer.feedback_generated a) ∧
  (∀ now question_id answer,
     ∃ b, b ∈ user_answers (submit_answer now question_id answer user db).2 ∧
          UserAnswer.id b = UserAnswer.id a ∧
          UserAnswer.question_id b = UserAnswer.question_id a ∧
          UserAnswer.user_id b = UserAnswer.user_id a ∧
          UserAnswer.feedback b = UserAnswer.feedback a ∧
          UserAnswer.feedback_generated b = UserAnswer.feedback_generated a) ∧
  (∀ p question_id,
     user = IsProfile p →
     question_exists db question_id →
     first (answer_of (Profile.id p) question_id) (user_answers db) = Some a →
     (∀ now answer,
        ∃ b, b ∈ user_answers (submit_answer now question_id answer user db).2 ∧
             UserAnswer.id b = UserAnswer.id a ∧
             UserAnswer.answer b = Some (AnswerCreate.answer answer) ∧
             UserAnswer.rating b = AnswerCreate.rating answer ∧
             UserAnswer.submitted_at b = Some now ∧
             UserAnswer.feedback b = UserAnswer.feedback a ∧
             UserAnswer.feedback_generated b = UserAnswer.feedback_generated a) ∧
     (∀ clock answer rating submitted_at,
        ∃ b, b ∈ user_answers
                   (submit_answers fromisoformat clock
                      [AnswerSubmit.mk question_id answer rating submitted_at]
                      user db).2 ∧
             UserAnswer.id b = UserAnswer.id a ∧
             UserAnswer.answer b = Some answer ∧
             UserAnswer.rating b = rating ∧
             UserAnswer.submitted_at b
             = Some (resolve_submitted_at fromisoformat (clock 0%nat) submitted_at) ∧
             UserAnswer.feedback b = UserAnswer.feedback a ∧
             UserAnswer.feedback_generated b = UserAnswer.feedback_generated a)).
Proof.
  intros Ha. split_and!.
  - intros clock answers.
    destruct (submit_answers_keeps_identity fromisoformat clock answers user db a Ha)
      as (b & Hb & Hab). exists b. split; [done|apply Hab].
  - intros now question_id answer.
    destruct (submit_answer_keeps_identity now question_id answer user db a Ha)
      as (b & Hb & Hab). exists b. split; [done|apply Hab].
  - intros p question_id -> Hq Hfirst.
    apply first_question in Hq as [x Hx]. split.
    + intros now answer. unfold submit_answer. rewrite Hx, Hfirst. simpl.
      exists (overwrite (AnswerCreate.answer answer) (AnswerCreate.rating answer) now a).
      split; [|done].
      apply list_elem_of_fmap. exists a. split; [|done].
      unfold rewrite_row. by rewrite decide_True.
    + intros clock answer rating submitted_at. unfold submit_answers.
      cbn [submit_answers_loop]. unfold submit_answers_step.
      cbn [AnswerSubmit.question_id AnswerSubmit.answer AnswerSubmit.rating
           AnswerSubmit.submitted_at].
      rewrite Hx, Hfirst. simpl.
      exists (overwrite answer rating
                (resolve_submitted_at fromisoformat (clock 0%nat) submitted_at) a).
      split; [|done].
      apply list_elem_of_fmap. exists a. split; [|done].
      unfold rewrite_row. by rewrite decide_True.
Qed.

Lemma submission_keeps_feedback_witness :
  ∃ b,
    b ∈ user_answers
          (submit_answer (sample_clock 0) 1 (AnswerCreate.mk "rewritten" (Some (-1)))
             (IsProfile ann) sample_db).2 ∧
    UserAnswer.id b = 100 ∧
    UserAnswer.answer b = Some "rewritten" ∧
    UserAnswer.feedback b = Some "well put" ∧
    UserAnswer.feedback_generated b = true.
Proof.
  destruct (submission_keeps_feedback sample_fromisoformat (IsProfile ann) sample_db
              (UserAnswer.mk 100 1 7%N (Some "old") (Some 2) (Some "well put") true None))
    as (_ & _ & Hupdate).
  - left.
  - destruct (Hupdate ann 1) as [Hsingle _].
    + reflexivity.
    + compute_done.
    + reflexivity.
    + destruct (Hsingle (sample_clock 0) (AnswerCreate.mk "rewritten" (Some (-1))))
        as (b & Hb & Hid & Hans & _ & _ & Hfb & Hfg).
      exists b. split_and!; done.
Defined.

(** ** Reports, company deletion and visibility *)

Section ReportFacts.
Variable chat_completion : string → completion.
Variable smtp_send : string → option string.
Variable smtp_email smtp_password : option string.
Variable format_number : Q → string.

Lemma report_loop_no_answers db questions : ∀ idx report,
  (∀ q, q ∈ questions → answers_to db q = []) →
  report_loop chat_completion format_number db idx questions report
  = ([], Return report).
Proof.
  induction questions as [|q rest IH]; intros idx report Hnone; [done|].
  cbn [report_loop]. fold (answers_to db q).
  rewrite (Hnone q) by left. apply IH. intros q' Hq'. apply Hnone. by right.
Qed.

(** Claim C3, amended. When no question has any answer, the collective
  report makes no call to the text-generation service or to the mail relay;
  it returns the message "No data available for collective report." when
  the store has at least one question, and raises the 404 error
  "No questions found" when it has none. *)
Theorem collective_report_without_answers db :
  (∀ q, q ∈ questions db → answers_to db q = []) →
  generate_collective_feedback_report chat_completion smtp_send smtp_email
    smtp_password format_number db
  = match questions db with
    | [] => ([], HTTPException 404 "No questions found")
    | _ => ([], Return (Message "No data available for collective report."))
    end.
Proof.
  intros Hnone. unfold generate_collective_feedback_report.
  destruct (questions db) as [|q rest] eqn:E; [done|].
  rewrite report_loop_no_answers by done. done.
Qed.
End ReportFacts.

Lemma collective_report_without_answers_witness :
  (∀ q, q ∈ questions unanswered_db → answers_to unanswered_db q = []) ∧
  generate_collective_feedback_report failing_chat (λ _, None) None None
    sample_format_number unanswered_db
  = ([], Return (Message "No data available for collective report.")).
Proof.
  assert (∀ q, q ∈ questions unanswered_db → answers_to unanswered_db q = [])
    as Hnone by done.
  split; [exact Hnone|].
  exact (collective_report_without_answers failing_chat (λ _, None) None None
           sample_format_number unanswered_db Hnone).
Defined.

Lemma collective_report_no_questions_counterexample :
  ¬ (∀ chat_completion smtp_send smtp_email smtp_password format_number db,
       (∀ q, q ∈ questions db → answers_to db q = []) →
       ∃ message,
         generate_collective_feedback_report chat_completion smtp_send smtp_email
           smtp_password format_number db
         = ([], Return (Message message))).
Proof.
  intros Hclaim.
  destruct (Hclaim failing_chat (λ _, None) None None sample_format_number empty_db)
    as [message Hrun].
  - intros q Hq. by apply elem_of_nil in Hq.
  - discriminate Hrun.
Qed.

Lemma clear_company_idem {A} (company_id : A → option Z) (set_null : A → A) cid row :
  (∀ r, company_id (set_null r) = None) →
  clear_company company_id set_null cid (clear_company company_id set_null cid row)
  = clear_company company_id set_null cid row.
Proof.
  intros Hnull. unfold clear_company.
  destruct (decide (company_id row = Some cid)) as [Hc|Hc].
  - rewrite decide_False; [done|]. by rewrite Hnull.
  - by rewrite decide_False.
Qed.

Lemma clear_company_twice {A} (company_id : A → option Z) (set_null : A → A) cid
  (rows : list A) :
  (∀ r, company_id (set_null r) = None) →
  clear_company company_id set_null cid
    <$> (clear_company company_id set_null cid <$> rows)
  = clear_company company_id set_null cid <$> rows.
Proof.
  intros Hnull. rewrite <- list_fmap_compose. apply list_fmap_ext.
  intros i r _. simpl. by apply clear_company_idem.
Qed.

(** Claim C9. Deleting an existing company removes its row and sets
    [company_id] to null on every user, profile and section that referenced
    it; no such row is deleted, its other fields are unchanged, rows that
    referenced another company or none are untouched, and so are questions
    and answers. *)
Theorem delete_company_nulls_references company_id db :
  company_id ∈ (Company.id <$> companies db) →
  ∃ message db',
    delete_company company_id db = (Return message, db') ∧
    companies db' = filter (λ c, Company.id c ≠ company_id) (companies db) ∧
    users db'
    = (λ u, if decide (User.company_id u = Some company_id)
            then User.mk (User.id u) (User.email u) (User.name u)
                   (User.hashed_password u) None (User.created_at u)
            else u) <$> users db ∧
    profiles db'
    = (λ p, if decide (Profile.company_id p = Some company_id)
            then Profile.mk (Profile.id p) (Profile.email p) (Profile.name p)
                   None (Profile.created_at p)
            else p) <$> profiles db ∧
    sections db'
    = (λ s, if decide (Section_.company_id s = Some company_id)
            then Section_.mk (Section_.id s) (Section_.label s) (Section_.title s)
                   None (Section_.created_at s)
            else s) <$> sections db ∧
    questions db' = questions db ∧
    user_answers db' = user_answers db.
Proof.
  intros Hin. unfold delete_company.
  destruct (first _ (companies db)) as [company|] eqn:E.
  - apply first_Some in E as [_ Hid]. rewrite Hid.
    eexists _, _. split; [reflexivity|]. simpl.
    split_and!; try done.
    + by apply (clear_company_twice User.company_id user_set_null).
    + by apply (clear_company_twice Section_.company_id section_set_null).
  - exfalso. rewrite first_None in E.
    apply list_elem_of_fmap in Hin as (c & -> & Hc). by apply (E c).
Qed.


Lemma delete_company_nulls_references_witness :
  1 ∈ (Company.id <$> companies sample_db) ∧
  ∃ message db',
    delete_company 1 sample_db = (Return message, db') ∧
    profiles db'
    = [Profile.mk 7%N "ann@example.com" "Ann" None None; bob; cat; dan] ∧
    users db' = [User.mk 5 "root@example.com" "Root" "hash" None None] ∧
    sections db'
    = [Section_.mk 10 (Some "A") (Some "General") None None;
       Section_.mk 11 (Some "B") (Some "Acme only") None None].
Proof.
  assert (1 ∈ (Company.id <$> companies sample_db)) as Hin by compute_done.
  split; [exact Hin|].
  destruct (delete_company_nulls_references 1 sample_db Hin)
    as (message & db' & Hrun & _ & Husers & Hprofiles & Hsections & _).
  exists message, db'. split_and!; [done| | |].
  - rewrite Hprofiles. reflexivity.
  - rewrite Husers. reflexivity.
  - rewrite Hsections. reflexivity.
Defined.


Lemma company_sections_elem c db s :
  s ∈ company_sections c db ↔ s ∈ sections db ∧ visible_to (Some c) s.
Proof.
  unfold company_sections. rewrite list_elem_of_filter.
  unfold company_or_global, visible_to. tauto.
Qed.

Lemma company_questions_elem c db q :
  q ∈ company_questions c db ↔
  q ∈ questions db ∧
  ∃ s, s ∈ sections db ∧ Question.section_id q = Some (Section_.id s) ∧
       visible_to (Some c) s.
Proof.
  unfold company_questions.
  assert (q ∈ filter (section_id_in (Section_.id <$> company_sections c db))
                (questions db)
          ↔ q ∈ questions db ∧
            ∃ s, s ∈ sections db ∧ Question.section_id q = Some (Section_.id s) ∧
                 visible_to (Some c) s) as Hfilter.
  { rewrite list_elem_of_filter. unfold section_id_in. split.
    - intros [Hsid Hq]. split; [done|].
      destruct (Question.section_id q) as [sid|]; [|done].
      apply list_elem_of_fmap in Hsid as (s & -> & Hs).
      apply company_sections_elem in Hs as [Hs Hv]. eauto.
    - intros [Hq (s & Hs & Hsid & Hv)]. split; [|done]. rewrite Hsid.
      apply list_elem_of_fmap_2. by apply company_sections_elem. }
  destruct (Section_.id <$> company_sections c db) eqn:E; [|done].
  split; [by intros ?%elem_of_nil|].
  intros Hq. apply Hfilter in Hq.
  apply list_elem_of_filter in Hq as [Hsid _].
  unfold section_id_in in Hsid. destruct (Question.section_id q); [|done].
  by apply elem_of_nil in Hsid.
Qed.

Section ListingFacts.
Variable order_by_label : list Section_.t → list Section_.t.
Hypothesis order_by_label_perm : ∀ l, order_by_label l ≡ₚ l.

Lemma user_sections_elem company_id db s :
  s ∈ user_sections order_by_label company_id db
  ↔ s ∈ sections db ∧ visible_to company_id s.
Proof.
  unfold user_sections, visible_to. destruct company_id as [c|].
  - rewrite order_by_label_perm, list_elem_of_filter.
    unfold company_or_global. tauto.
  - rewrite order_by_label_perm. tauto.
Qed.

(** Claim C7. The sections listed for a Profile are those whose company is
  the Profile's company or null, and all sections when the Profile has no
  company; the questions listed are the questions of these sections. A
  section with a null company is listed for every Profile. Completion
  accounting for a company counts the questions of the sections whose
  company is that company or null. *)
Theorem visible_questions_by_company p db :
  ∃ body,
    get_question order_by_label (IsProfile p) db = Return body ∧
    (∀ sid, sid ∈ listed_section_ids body ↔
            ∃ s, s ∈ sections db ∧ Section_.id s = sid ∧
                 visible_to (Profile.company_id p) s) ∧
    (∀ qid, qid ∈ listed_question_ids body ↔
            ∃ q s, q ∈ questions db ∧ s ∈ sections db ∧ Question.id q = qid ∧
                   Question.section_id q = Some (Section_.id s) ∧
                   visible_to (Profile.company_id p) s) ∧
    (∀ s, s ∈ sections db → Section_.company_id s = None →
          Section_.id s ∈ listed_section_ids body) ∧
    (Profile.company_id p = None →
     ∀ s, s ∈ sections db → Section_.id s ∈ listed_section_ids body) ∧
    (∀ c q, q ∈ company_questions c db ↔
            q ∈ questions db ∧
            ∃ s, s ∈ sections db ∧ Question.section_id q = Some (Section_.id s) ∧
                 (Section_.company_id s = Some c ∨ Section_.company_id s = None)).
Proof.
  eexists. split; [reflexivity|].
  assert (∀ sid,
            sid ∈ listed_section_ids
                    (section_data (IsProfile p) db
                       <$> user_sections order_by_label (Profile.company_id p) db)
            ↔ ∃ s, s ∈ sections db ∧ Section_.id s = sid ∧
                   visible_to (Profile.company_id p) s) as Hsections.
  { intros sid. unfold listed_section_ids.
    rewrite <- list_fmap_compose, list_elem_of_fmap. split.
    - intros (s & -> & Hs). apply user_sections_elem in Hs as [Hs Hv]. eauto.
    - intros (s & Hs & <- & Hv). exists s. split; [done|].
      by apply user_sections_elem. }
  split_and!.
  - exact Hsections.
  - intros qid. unfold listed_question_ids.
    rewrite list_elem_of_bind. split.
    + intros (sd & Hqid & Hsd).
      apply list_elem_of_fmap in Hsd as (s & -> & Hs).
      apply user_sections_elem in Hs as [Hs Hv].
      simpl in Hqid. rewrite <- list_fmap_compose in Hqid.
      apply list_elem_of_fmap in Hqid as (q & -> & Hq).
      apply list_elem_of_filter in Hq as [Hsid Hq].
      exists q, s. split_and!; done.
    + intros (q & s & Hq & Hs & <- & Hsid & Hv).
      exists (section_data (IsProfile p) db s). split.
      * simpl. rewrite <- list_fmap_compose.
        apply list_elem_of_fmap. exists q. split; [done|].
        by apply list_elem_of_filter.
      * apply list_elem_of_fmap_2. by apply user_sections_elem.
  - intros s Hs Hglobal. apply Hsections. exists s. split_and!; [done|done|].
    unfold visible_to. destruct (Profile.company_id p); auto.
  - intros Hnone s Hs. apply Hsections. exists s. split_and!; [done|done|].
    by rewrite Hnone.
  - intros c q. apply company_questions_elem.
Qed.
End ListingFacts.

Lemma visible_questions_by_company_witness :
  (∀ l : list Section_.t, id l ≡ₚ l) ∧
  ∃ body,
    get_question id (IsProfile bob)
      sample_db = Return body ∧
    listed_section_ids body = [10] ∧
    listed_question_ids body = [1; 2].
Proof.
  assert (∀ l : list Section_.t, id l ≡ₚ l) as Hperm by done.
  split; [exact Hperm|].
  destruct (visible_questions_by_company id Hperm
              bob sample_db)
    as (body & Hrun & _).
  exists body. split; [done|].
  injection Hrun as <-. split; reflexivity.
Defined.

(** ** Rating statistics *)

Lemma round_half_even_nearest (x : Q) :
  (Qabs (x - inject_Z (round_half_even x)) <= 1 # 2)%Q.
Proof.
  unfold round_half_even. cbv zeta.
  pose proof (Qfloor_le x) as Hlo. pose proof (Qlt_floor x) as Hhi.
  rewrite !inject_Z_plus in *. change (inject_Z 1) with 1%Q in *.
  destruct (x - inject_Z (Qfloor x) ?= 1 # 2)%Q eqn:E.
  - apply Qeq_alt in E.
    destruct (Z.even (Qfloor x)); [|rewrite inject_Z_plus];
      change (inject_Z 1) with 1%Q; apply Qabs_case; intros; lra.
  - apply Qlt_alt in E. apply Qabs_case; intros; lra.
  - apply Qgt_alt in E. rewrite inject_Z_plus. change (inject_Z 1) with 1%Q.
    apply Qabs_case; intros; lra.
Qed.

Lemma round_half_even_proper (x y : Q) :
  (x == y)%Q → round_half_even x = round_half_even y.
Proof.
  intros Hxy. unfold round_half_even. cbv zeta.
  assert (Qfloor x = Qfloor y) as -> by (by apply Qfloor_comp).
  assert ((x - inject_Z (Qfloor y) ?= 1 # 2) = (y - inject_Z (Qfloor y) ?= 1 # 2))%Q
    as -> by (by rewrite Hxy).
  done.
Qed.

Lemma round_proper (x y : Q) n : (x == y)%Q → round x n = round y n.
Proof.
  intros Hxy. unfold round. f_equal. apply round_half_even_proper. by rewrite Hxy.
Qed.

(** [round x n] is a multiple of [10^-n] within half a unit of [x]. *)
Lemma round_nearest (x : Q) (n : nat) :
  (Qabs (x - round x n) <= 1 # (2 * pow10 n))%Q.
Proof.
  unfold round. set (P := pow10 n).
  pose proof (round_half_even_nearest (x * inject_Z (Z.pos P))) as Hn.
  set (h := round_half_even _) in *.
  assert (h # P == inject_Z h / inject_Z (Z.pos P))%Q as -> by apply Qmake_Qdiv.
  assert (0 < inject_Z (Z.pos P))%Q as HP by (unfold Qlt; simpl; lia).
  assert (1 # 2 * P == (1 # 2) / inject_Z (Z.pos P))%Q as ->.
  { unfold Qeq, Qdiv, Qmult, Qinv. simpl. lia. }
  assert (x - inject_Z h / inject_Z (Z.pos P)
          == (x * inject_Z (Z.pos P) - inject_Z h) / inject_Z (Z.pos P))%Q as ->.
  { field. lra. }
  unfold Qdiv at 1. rewrite Qabs_Qmult.
  rewrite (Qabs_pos (/ _)) by (apply Qlt_le_weak, Qinv_lt_0_compat, HP).
  apply Qmult_le_compat_r; [done|]. apply Qlt_le_weak, Qinv_lt_0_compat, HP.
Qed.

(** *** Floating point *)

Lemma pow2_pos (e : Z) : (0 < 2 ^ e)%Q.
Proof. by apply Qpower_0_lt. Qed.

Lemma pow2_inject (n : Z) : 0 ≤ n → (2 ^ n == inject_Z (2 ^ n))%Q.
Proof. intros Hn. by rewrite Zpower_Qpower. Qed.

(** [binade x] is the exponent of [x]: [2 ^ binade x <= x < 2 ^ (binade x + 1)]. *)
Lemma binade_le (x : Q) : (0 < x)%Q → (2 ^ binade x <= x)%Q.
Proof.
  intros Hx. unfold binade. cbv zeta.
  destruct (Qle_bool _ x) eqn:E; [by apply Qle_bool_iff|]. clear E.
  destruct x as [a b]. cbn [Qnum Qden].
  assert (0 < a) as Ha by (unfold Qlt in Hx; simpl in Hx; lia).
  pose proof (Z.log2_spec a Ha) as [Hla _].
  pose proof (Z.log2_spec (Z.pos b) ltac:(lia)) as [_ Hlb].
  pose proof (Z.log2_nonneg a) as H0a.
  pose proof (Z.log2_nonneg (Z.pos b)) as H0b.
  set (la := Z.log2 a) in *. set (lb := Z.log2 (Z.pos b)) in *.
  replace (la - lb - 1) with (la - (lb + 1)) by lia.
  rewrite Qpower_minus by done.
  rewrite (pow2_inject la), (pow2_inject (lb + 1)) by lia.
  replace (Z.succ lb) with (lb + 1) in Hlb by lia.
  assert (0 < 2 ^ la) as Hpa by (apply Z.pow_pos_nonneg; lia).
  assert (inject_Z (2 ^ la) <= inject_Z a)%Q as Hqa by (by rewrite <- Zle_Qle).
  assert (inject_Z (Z.pos b) < inject_Z (2 ^ (lb + 1)))%Q as Hqb
    by (by rewrite <- Zlt_Qlt).
  assert (0 < inject_Z (Z.pos b))%Q as Hb0 by (unfold Qlt; simpl; lia).
  assert (0 < inject_Z (2 ^ la))%Q as Hqpa.
  { change 0%Q with (inject_Z 0). by rewrite <- Zlt_Qlt. }
  rewrite (Qmake_Qdiv a b).
  apply Qle_shift_div_r; [lra|].
  assert (inject_Z a / inject_Z (Z.pos b) * inject_Z (2 ^ (lb + 1))
          == inject_Z a * (inject_Z (2 ^ (lb + 1)) / inject_Z (Z.pos b)))%Q as ->.
  { field. lra. }
  assert (1 <= inject_Z (2 ^ (lb + 1)) / inject_Z (Z.pos b))%Q.
  { apply Qle_shift_div_l; lra. }
  nra.
Qed.

Lemma binade_lt (x : Q) : (0 < x)%Q → (x < 2 ^ (binade x + 1))%Q.
Proof.
  intros Hx. unfold binade. cbv zeta.
  destruct (Qle_bool _ x) eqn:E.
  - clear E. destruct x as [a b]. cbn [Qnum Qden].
    assert (0 < a) as Ha by (unfold Qlt in Hx; simpl in Hx; lia).
    pose proof (Z.log2_spec a Ha) as [_ Hla].
    pose proof (Z.log2_spec (Z.pos b) ltac:(lia)) as [Hlb _].
    pose proof (Z.log2_nonneg a) as H0a.
    pose proof (Z.log2_nonneg (Z.pos b)) as H0b.
    set (la := Z.log2 a) in *. set (lb := Z.log2 (Z.pos b)) in *.
    replace (la - lb + 1) with (la + 1 - lb) by lia.
    rewrite Qpower_minus by done.
    rewrite (pow2_inject (la + 1)), (pow2_inject lb) by lia.
    replace (Z.succ la) with (la + 1) in Hla by lia.
    assert (0 < 2 ^ lb) as Hpb by (apply Z.pow_pos_nonneg; lia).
    assert (inject_Z a < inject_Z (2 ^ (la + 1)))%Q as Hqa by (by rewrite <- Zlt_Qlt).
    assert (inject_Z (2 ^ lb) <= inject_Z (Z.pos b))%Q as Hqb by (by rewrite <- Zle_Qle).
    assert (0 < inject_Z (2 ^ lb))%Q as Hqpb.
    { change 0%Q with (inject_Z 0). by rewrite <- Zlt_Qlt. }
    assert (0 < inject_Z a)%Q as Hqa0.
    { change 0%Q with (inject_Z 0). by rewrite <- Zlt_Qlt. }
    rewrite (Qmake_Qdiv a b).
    apply Qlt_shift_div_l; [lra|].
    assert (0 < inject_Z (Z.pos b))%Q as Hb0 by lra.
    assert (inject_Z a / inject_Z (Z.pos b) * inject_Z (2 ^ lb)
            == inject_Z a * (inject_Z (2 ^ lb) / inject_Z (Z.pos b)))%Q
      as -> by (field; lra).
    assert (inject_Z (2 ^ lb) / inject_Z (Z.pos b) <= 1)%Q
      by (apply Qle_shift_div_r; lra).
    nra.
  - replace (Z.log2 (Qnum x) - Z.log2 (Z.pos (Qden x)) - 1 + 1)
      with (Z.log2 (Qnum x) - Z.log2 (Z.pos (Qden x))) by lia.
    apply Qnot_le_lt. intros Hle. apply Qle_bool_iff in Hle. congruence.
Qed.

(** A double is within half a unit in the last place of the number it
    rounds: a relative error of at most [2^-53]. *)
Lemma binary64_nearest (x : Q) :
  (Qabs (binary64 x - x) <= Qabs x * (1 # 2 ^ 53))%Q.
Proof.
  assert (∀ x e, (0 < x)%Q → (2 ^ e <= x)%Q →
            Qabs (inject_Z (round_half_even (x / 2 ^ (e - 52))) * 2 ^ (e - 52) - x)
            <= x * (1 # 2 ^ 53) ∧
            Qabs (inject_Z (round_half_even (- x / 2 ^ (e - 52))) * 2 ^ (e - 52) - - x)
            <= x * (1 # 2 ^ 53))%Q as Hkey.
  { clear x. intros x e Hx He.
    pose proof (pow2_pos (e - 52)) as Hu. set (u := (2 ^ (e - 52))%Q) in *.
    assert (2 ^ e == u * inject_Z (2 ^ 52))%Q as Heu.
    { subst u. rewrite <- pow2_inject by lia. rewrite <- Qpower_plus by done.
      by replace (e - 52 + 52) with e by lia. }
    assert (u * (1 # 2) <= x * (1 # 2 ^ 53))%Q as Hhalf.
    { rewrite Heu in He.
      change (inject_Z (2 ^ 52)) with (4503599627370496 # 1)%Q in He.
      change (1 # 2 ^ 53)%Q with (1 # 9007199254740992)%Q. lra. }
    split.
    - pose proof (round_half_even_nearest (x / u)) as Hn.
      set (r := inject_Z (round_half_even (x / u))) in *.
      assert (r * u - x == - ((x / u - r) * u))%Q as -> by (field; lra).
      rewrite Qabs_opp, Qabs_Qmult, (Qabs_pos u) by lra.
      assert (Qabs (x / u - r) * u <= (1 # 2) * u)%Q
        by (apply Qmult_le_compat_r; lra).
      lra.
    - pose proof (round_half_even_nearest (- x / u)) as Hn.
      set (r := inject_Z (round_half_even (- x / u))) in *.
      assert (r * u - - x == - ((- x / u - r) * u))%Q as -> by (field; lra).
      rewrite Qabs_opp, Qabs_Qmult, (Qabs_pos u) by lra.
      assert (Qabs (- x / u - r) * u <= (1 # 2) * u)%Q
        by (apply Qmult_le_compat_r; lra).
      lra. }
  unfold binary64. destruct (x ?= 0)%Q eqn:E.
  - apply Qeq_alt in E. rewrite E. done.
  - apply Qlt_alt in E. cbv zeta.
    assert (0 < - x)%Q as Hx by lra.
    destruct (Hkey (- x)%Q (binade (- x)) Hx (binade_le _ Hx)) as [_ Hk].
    rewrite (Qabs_neg x) by lra.
    assert (- - x / 2 ^ (binade (- x) - 52) == x / 2 ^ (binade (- x) - 52))%Q as Hxx.
    { pose proof (pow2_pos (binade (- x) - 52)). field. lra. }
    rewrite (round_half_even_proper _ _ Hxx) in Hk.
    by rewrite Qopp_involutive in Hk.
  - apply Qgt_alt in E. cbv zeta.
    destruct (Hkey x (binade x) E (binade_le _ E)) as [Hk _].
    by rewrite (Qabs_pos x) by lra.
Qed.

Lemma convert_nearest (x : Q) :
  (Qabs (convert x - x) <= Qabs x * (1 # 2 ^ 53))%Q.
Proof.
  unfold convert. destruct (_ =? 1); [|apply binary64_nearest].
  assert (x - x == 0)%Q as -> by ring.
  apply Qmult_le_0_compat; [apply Qabs_nonneg|done].
Qed.

Lemma Qsquare_le (a b : Q) : (0 <= a)%Q → (a <= b)%Q → (a * a <= b * b)%Q.
Proof. intros. nra. Qed.

Lemma sqrt_bracket (M y u d : Q) :
  (inject_Z (2 ^ 52) <= M)%Q → (0 < u)%Q →
  (M * M <= y)%Q → (y <= (M + 1) * (M + 1))%Q →
  ((d == M * u)%Q ∧ (y <= (M + (1 # 2)) * (M + (1 # 2)))%Q ∨
   (d == (M + 1) * u)%Q ∧ ((M + (1 # 2)) * (M + (1 # 2)) <= y)%Q) →
  (0 <= d)%Q ∧
  (d * (1 - (1 # 2 ^ 53)) * (d * (1 - (1 # 2 ^ 53))) <= y * (u * u))%Q ∧
  (y * (u * u) <= d * (1 + (1 # 2 ^ 53)) * (d * (1 + (1 # 2 ^ 53))))%Q.
Proof.
  change (inject_Z (2 ^ 52)) with (4503599627370496 # 1)%Q.
  change (1 # 2 ^ 53)%Q with (1 # 9007199254740992)%Q.
  intros HM Hu Hlo Hhi [[Hd Hy]|[Hd Hy]].
  - assert (0 <= M * u)%Q as H0 by (apply Qmult_le_0_compat; lra).
    split; [lra|]. rewrite Hd. split.
    + assert (M * u * (1 - (1 # 9007199254740992)) * (M * u * (1 - (1 # 9007199254740992)))
              <= M * u * (M * u))%Q as H1.
      { apply Qsquare_le; [|lra]. apply Qmult_le_0_compat; lra. }
      assert (M * u * (M * u) == M * M * (u * u))%Q as H2 by ring.
      assert (M * M * (u * u) <= y * (u * u))%Q as H3.
      { apply Qmult_le_compat_r; [done|]. nra. }
      lra.
    + assert ((M + (1 # 2)) * u * ((M + (1 # 2)) * u)
              <= M * u * (1 + (1 # 9007199254740992))
                 * (M * u * (1 + (1 # 9007199254740992))))%Q as H1.
      { apply Qsquare_le; [apply Qmult_le_0_compat; lra|].
        assert (M * u * (1 + (1 # 9007199254740992))
                == (M * (1 + (1 # 9007199254740992))) * u)%Q as -> by ring.
        apply Qmult_le_compat_r; lra. }
      assert ((M + (1 # 2)) * u * ((M + (1 # 2)) * u)
              == (M + (1 # 2)) * (M + (1 # 2)) * (u * u))%Q as H2 by ring.
      assert (y * (u * u) <= (M + (1 # 2)) * (M + (1 # 2)) * (u * u))%Q as H3.
      { apply Qmult_le_compat_r; [done|]. nra. }
      lra.
  - assert (0 <= (M + 1) * u)%Q as H0 by (apply Qmult_le_0_compat; lra).
    split; [lra|]. rewrite Hd. split.
    + assert ((M + 1) * u * (1 - (1 # 9007199254740992))
              * ((M + 1) * u * (1 - (1 # 9007199254740992)))
              <= (M + (1 # 2)) * u * ((M + (1 # 2)) * u))%Q as H1.
      { apply Qsquare_le.
        - apply Qmult_le_0_compat; lra.
        - assert ((M + 1) * u * (1 - (1 # 9007199254740992))
                  == ((M + 1) * (1 - (1 # 9007199254740992))) * u)%Q as -> by ring.
          apply Qmult_le_compat_r; lra. }
      assert ((M + (1 # 2)) * u * ((M + (1 # 2)) * u)
              == (M + (1 # 2)) * (M + (1 # 2)) * (u * u))%Q as H2 by ring.
      assert ((M + (1 # 2)) * (M + (1 # 2)) * (u * u) <= y * (u * u))%Q as H3.
      { apply Qmult_le_compat_r; [done|]. nra. }
      lra.
    + assert ((M + 1) * u * ((M + 1) * u)
              <= (M + 1) * u * (1 + (1 # 9007199254740992))
                 * ((M + 1) * u * (1 + (1 # 9007199254740992))))%Q as H1.
      { apply Qsquare_le; [done|].
        assert (0 <= (M + 1) * u * (1 # 9007199254740992))%Q
          by (apply Qmult_le_0_compat; lra).
        lra. }
      assert ((M + 1) * u * ((M + 1) * u) == (M + 1) * (M + 1) * (u * u))%Q as H2 by ring.
      assert (y * (u * u) <= (M + 1) * (M + 1) * (u * u))%Q as H3.
      { apply Qmult_le_compat_r; [done|]. nra. }
      lra.
Qed.

(** [float_sqrt_of_frac v] is within a relative error of [2^-53] of the
    square root of [v]. *)
Lemma float_sqrt_of_frac_spec (v : Q) :
  (0 <= v)%Q →
  let d := float_sqrt_of_frac v in
  (0 <= d)%Q ∧
  (d * (1 - (1 # 2 ^ 53)) * (d * (1 - (1 # 2 ^ 53))) <= v)%Q ∧
  (v <= d * (1 + (1 # 2 ^ 53)) * (d * (1 + (1 # 2 ^ 53))))%Q.
Proof.
  intros Hv d. subst d. unfold float_sqrt_of_frac.
  destruct (v ?= 0)%Q eqn:E.
  - apply Qeq_alt in E. rewrite E. done.
  - apply Qlt_alt in E. lra.
  - apply Qgt_alt in E. cbv zeta.
    set (e2 := binade v / 2).
    pose proof (pow2_pos (e2 - 52)) as Hu. set (u := (2 ^ (e2 - 52))%Q) in *.
    assert (0 < u * u)%Q as Huu by nra.
    set (y := (v / (u * u))%Q).
    assert (v == y * (u * u))%Q as Hvy by (subst y; field; lra).
    assert (inject_Z (2 ^ 104) <= y)%Q as Hy.
    { subst y. apply Qle_shift_div_l; [done|].
      apply Qle_trans with (2 ^ binade v)%Q; [|by apply binade_le].
      apply Qle_trans with (2 ^ (2 * e2))%Q.
      - rewrite <- pow2_inject by lia. subst u.
        rewrite <- !Qpower_plus by done.
        replace (104 + (e2 - 52 + (e2 - 52))) with (2 * e2) by lia. apply Qle_refl.
      - apply Qpower_le_compat_l; [|done].
        subst e2. pose proof (Z.mul_div_le (binade v) 2). lia. }
    assert (2 ^ 104 ≤ Qfloor y) as HF.
    { rewrite <- (Qfloor_Z (2 ^ 104)). by apply Qfloor_resp_le. }
    pose proof (Z.sqrt_spec (Qfloor y) ltac:(lia)) as [Hlo Hhi].
    set (m := Z.sqrt (Qfloor y)) in *.
    assert (2 ^ 52 ≤ m) as Hm.
    { change (2 ^ 104) with (2 ^ 52 * 2 ^ 52) in HF.
      assert (0 ≤ m) by apply Z.sqrt_nonneg. nia. }
    pose proof (Qfloor_le y) as HlW. pose proof (Qlt_floor y) as HhW.
    assert (inject_Z m * inject_Z m <= y)%Q as Hlo'.
    { rewrite <- inject_Z_mult. apply Qle_trans with (inject_Z (Qfloor y)); [|done].
      by rewrite <- Zle_Qle. }
    assert (y <= (inject_Z m + 1) * (inject_Z m + 1))%Q as Hhi'.
    { apply Qle_trans with (inject_Z (Qfloor y + 1)); [lra|].
      change 1%Q with (inject_Z 1). rewrite <- inject_Z_plus, <- inject_Z_mult.
      rewrite <- Zle_Qle. lia. }
    assert (inject_Z (2 ^ 52) <= inject_Z m)%Q as HM by (by rewrite <- Zle_Qle).
    rewrite Hvy.
    apply (sqrt_bracket (inject_Z m) y u); [done..|].
    destruct (y ?= _)%Q eqn:Ec.
    + apply Qeq_alt in Ec. destruct (Z.even m).
      * left. split; [reflexivity|lra].
      * right. split; [|lra]. rewrite inject_Z_plus. reflexivity.
    + apply Qlt_alt in Ec. left. split; [reflexivity|lra].
    + apply Qgt_alt in Ec. right. split; [|lra]. rewrite inject_Z_plus. reflexivity.
Qed.

Lemma round_half_even_nonneg (x : Q) : (0 <= x)%Q → 0 ≤ round_half_even x.
Proof.
  intros Hx. unfold round_half_even. cbv zeta.
  assert (0 ≤ Qfloor x) as Hf.
  { change 0 with (Qfloor 0). by apply Qfloor_resp_le. }
  destruct (_ ?= _)%Q; [destruct (Z.even _)|..]; lia.
Qed.

(** A multiple [h / p] lying within half a step of [S / n], up to a
    tolerance too small to reach the next midpoint, lies within half a
    step. *)
Lemma nearest_of_tolerant (S h : Z) (n p : positive) (tol : Q) :
  (Qabs ((S # n) - (h # p)) <= (1 # 2 * p) + tol)%Q →
  (tol * inject_Z (Z.pos (2 * p * n)) < 1)%Q →
  (Qabs ((S # n) - (h # p)) <= 1 # 2 * p)%Q.
Proof.
  intros Htol Hsmall.
  set (k := S * Z.pos p - h * Z.pos n).
  assert ((S # n) - (h # p) == k # (n * p))%Q as Hk.
  { unfold Qeq, Qminus, Qplus, Qopp. subst k. simpl. lia. }
  rewrite Hk in *.
  assert (Qabs (k # n * p) = (Z.abs k # n * p)%Q) as Habs by done.
  rewrite Habs in *.
  destruct (Z_le_gt_dec (2 * Z.abs k) (Z.pos n)) as [Hle|Hgt].
  { unfold Qle. simpl. nia. }
  exfalso.
  set (K := inject_Z (Z.abs k)) in *.
  set (N := inject_Z (Z.pos n)). set (P := inject_Z (Z.pos p)).
  assert (0 < N)%Q as HN by (unfold Qlt; simpl; lia).
  assert (0 < P)%Q as HP by (unfold Qlt; simpl; lia).
  assert (Z.abs k # n * p == K / (N * P))%Q as HK.
  { rewrite Qmake_Qdiv. subst K N P. rewrite Pos2Z.inj_mul, inject_Z_mult. done. }
  assert (1 # 2 * p == 1 / (2 * P))%Q as HP2.
  { rewrite Qmake_Qdiv. subst P. rewrite Pos2Z.inj_mul, inject_Z_mult. done. }
  assert (inject_Z (Z.pos (2 * p * n)) == 2 * P * N)%Q as HPN.
  { subst P N. rewrite !Pos2Z.inj_mul, !inject_Z_mult. done. }
  rewrite HK, HP2 in Htol. rewrite HPN in Hsmall.
  assert (0 < N * P)%Q as HNP by nra.
  assert (K / (N * P) * (2 * P * N) <= (1 / (2 * P) + tol) * (2 * P * N))%Q as Hm.
  { apply Qmult_le_compat_r; [done|]. nra. }
  assert (K / (N * P) * (2 * P * N) == 2 * K)%Q as HmL by (field; lra).
  assert ((1 / (2 * P) + tol) * (2 * P * N) == N + tol * (2 * P * N))%Q as HmR
    by (field; lra).
  rewrite HmL, HmR in Hm.
  assert (2 * K < N + 1)%Q as Hlt by lra.
  subst K N. change 2%Q with (inject_Z 2) in Hlt. change 1%Q with (inject_Z 1) in Hlt.
  rewrite <- inject_Z_mult, <- inject_Z_plus, <- Zlt_Qlt in Hlt. lia.
Qed.

(** The rounded root of [v]: a non-negative multiple of 0.01 within 0.005
    of the square root of [v], up to the relative error of a double. *)
Lemma round_sqrt_bounds (v : Q) :
  (0 <= v)%Q →
  let sd := round (float_sqrt_of_frac v) 2 in
  let eps := (1 # 2 ^ 53)%Q in
  (∃ h, 0 ≤ h ∧ sd = h # 100) ∧
  ((1 # 200) <= sd →
     (sd - (1 # 200)) * (1 - eps) * ((sd - (1 # 200)) * (1 - eps)) <= v)%Q ∧
  (v <= (sd + (1 # 200)) * (1 + eps) * ((sd + (1 # 200)) * (1 + eps)))%Q.
Proof.
  intros Hv sd eps.
  destruct (float_sqrt_of_frac_spec v Hv) as (Hd0 & Hlo & Hhi).
  set (d := float_sqrt_of_frac v) in *.
  pose proof (round_nearest d 2) as Hn. fold sd in Hn.
  change (1 # 2 * pow10 2)%Q with (1 # 200)%Q in Hn.
  apply Qabs_Qle_condition in Hn as [Hn1 Hn2].
  fold eps in Hlo, Hhi.
  assert (0 < eps)%Q as He0 by done.
  assert (eps < 1)%Q as He1 by done.
  split_and!.
  - eexists. split; [|reflexivity].
    apply round_half_even_nonneg. apply Qmult_le_0_compat; [done|].
    unfold Qle. simpl. lia.
  - intros Hge.
    apply Qle_trans with (d * (1 - eps) * (d * (1 - eps)))%Q; [|done].
    apply Qsquare_le.
    + apply Qmult_le_0_compat; lra.
    + apply Qmult_le_compat_r; lra.
  - apply Qle_trans with (d * (1 + eps) * (d * (1 + eps)))%Q; [done|].
    apply Qsquare_le.
    + apply Qmult_le_0_compat; lra.
    + apply Qmult_le_compat_r; lra.
Qed.

(** When the variance [W / D] is too coarse for the error of a double to
    reach a midpoint between two multiples of 0.01, the rounded root is
    within 0.005 of the exact root. *)
Lemma root_nearest_of_tolerant (W h : Z) (D : positive) :
  let v := (W # D)%Q in
  let sd := (h # 100)%Q in
  let eps := (1 # 2 ^ 53)%Q in
  0 ≤ h →
  120000 * W < 2 ^ 53 →
  ((1 # 200) <= sd →
     (sd - (1 # 200)) * (1 - eps) * ((sd - (1 # 200)) * (1 - eps)) <= v)%Q →
  (v <= (sd + (1 # 200)) * (1 + eps) * ((sd + (1 # 200)) * (1 + eps)))%Q →
  ((1 # 200) <= sd → (sd - (1 # 200)) * (sd - (1 # 200)) <= v)%Q ∧
  (v <= (sd + (1 # 200)) * (sd + (1 # 200)))%Q.
Proof.
  intros v sd eps Hh HW Hlo Hhi. subst v sd eps.
  change (2 ^ 53) with 9007199254740992 in HW.
  split.
  - intros Hge. specialize (Hlo Hge).
    assert (1 ≤ h) as Hh1 by (unfold Qle in Hge; simpl in Hge; lia).
    assert (0 ≤ (2 * h - 1) * (2 * h - 1) * Z.pos D) as HB by nia.
    unfold Qle in Hlo |- *. cbn in Hlo |- *. lia.
  - assert (0 ≤ (2 * h + 1) * (2 * h + 1) * Z.pos D) as HA by nia.
    unfold Qle in Hhi |- *. cbn in Hhi |- *. lia.
Qed.

Lemma sum_sq_dev_nonneg m data : (0 <= sum_sq_dev m data)%Q.
Proof.
  induction data as [|x data IH]; simpl; [lra|].
  set (d := (inject_Z x - m)%Q). nra.
Qed.

Lemma sum_sq_dev_expand m data :
  (sum_sq_dev m data
   == inject_Z (list_sum ((λ x, x * x)%Z <$> data))
      - 2 * m * inject_Z (list_sum data)
      + inject_Z (Z.of_nat (length data)) * m * m)%Q.
Proof.
  induction data as [|x data IH].
  - simpl. ring.
  - unfold sum_sq_dev, list_sum in *. rewrite fmap_cons. cbn [foldr length].
    rewrite IH, Nat2Z.inj_succ, <- Z.add_1_r, !inject_Z_plus, inject_Z_mult.
    change (inject_Z 1) with 1%Q. ring.
Qed.

(** The exact sample variance as one fraction of integers. *)
Lemma sample_variance_fraction (data : list Z) :
  (2 ≤ length data)%nat →
  let n := Z.of_nat (length data) in
  (sum_sq_dev (list_sum data # Pos.of_nat (length data)) data / inject_Z (n - 1)
   == (n * list_sum ((λ x, x * x)%Z <$> data) - list_sum data * list_sum data)%Z
      # Z.to_pos (n * (n - 1)))%Q.
Proof.
  intros Hlen n. rewrite sum_sq_dev_expand. fold n.
  rewrite (Qmake_Qdiv (list_sum data)), (Qmake_Qdiv (n * _ - _)).
  assert (Z.pos (Pos.of_nat (length data)) = n) as ->.
  { subst n. destruct (length data) as [|k]; [lia|].
    rewrite <- Pos.of_nat_succ, Zpos_P_of_succ_nat. lia. }
  rewrite Z2Pos.id by (subst n; nia).
  unfold Z.sub. rewrite ?inject_Z_plus, ?inject_Z_mult, ?inject_Z_opp.
  rewrite ?inject_Z_plus, ?inject_Z_mult, ?inject_Z_opp.
  change (inject_Z 1) with 1%Q.
  assert (0 < inject_Z n)%Q as Hn.
  { change 0%Q with (inject_Z 0). rewrite <- Zlt_Qlt. subst n. lia. }
  assert (0 < inject_Z n + - (1))%Q as Hn1.
  { change 1%Q with (inject_Z 1). rewrite <- inject_Z_opp, <- inject_Z_plus.
    change 0%Q with (inject_Z 0). rewrite <- Zlt_Qlt. subst n. lia. }
  field. lra.
Qed.

Lemma mean_Some data :
  data ≠ [] → mean data = Some (convert (exact_mean data)).
Proof. by destruct data. Qed.

Lemma variance_Some data :
  (2 ≤ length data)%nat →
  variance data
  = Some (sum_sq_dev (list_sum data # Pos.of_nat (length data)) data
          / inject_Z (Z.of_nat (length data) - 1))%Q.
Proof. destruct data as [|x [|y data]]; simpl; intros; [lia|lia|done]. Qed.

Lemma variance_nonneg data v : variance data = Some v → (0 <= v)%Q.
Proof.
  destruct (decide (2 ≤ length data)%nat) as [Hlen|Hlen].
  - rewrite variance_Some by done. intros [= <-].
    apply Qle_shift_div_l.
    + unfold Qlt. simpl. lia.
    + rewrite Qmult_0_l. apply sum_sq_dev_nonneg.
  - destruct data as [|x [|y data]]; simpl in *; intros; (done || lia).
Qed.

Lemma avg_rating_spec (ratings : list Z) :
  ∃ avg, avg_rating ratings = Some avg ∧
         (avg = None ↔ ratings = []) ∧
         (∀ a, avg = Some a →
               a = round (convert (list_sum ratings # Pos.of_nat (length ratings))) 2).
Proof.
  unfold avg_rating. destruct (decide (ratings = [])) as [->|Hne].
  - exists None. split_and!; done.
  - rewrite mean_Some by done. destruct ratings as [|r rs]; [done|].
    cbn [mbind option_bind].
    eexists. split; [reflexivity|]. split; [done|]. by intros a [= <-].
Qed.

Lemma std_dev_spec (ratings : list Z) :
  ∃ sd, std_dev ratings = Some sd ∧
        (sd = None ↔ (length ratings < 2)%nat) ∧
        (∀ s, sd = Some s →
              s = round
                    (float_sqrt_of_frac
                       (sum_sq_dev (list_sum ratings # Pos.of_nat (length ratings)) ratings
                        / inject_Z (Z.of_nat (length ratings) - 1))) 2).
Proof.
  unfold std_dev. case_bool_decide as Hlen.
  - unfold stdev. rewrite variance_Some by lia. cbn [fmap option_fmap option_map mbind option_bind].
    eexists. split; [reflexivity|]. split; [split; [done|lia]|].
    by intros s [= <-].
  - exists None. split_and!; [done| |done]. split; [lia|done].
Qed.

(** Claim C8. For a question, over the non-null ratings of the stored
    answers to it: [avg_rating] is absent exactly when there is no rating,
    and otherwise is a multiple of 0.01 within 0.005 of the arithmetic mean,
    up to the relative error [2^-53] of the double that is rounded, and
    within 0.005 outright when [200 * |sum| < 2^53]; [std_dev] is absent
    exactly when there are fewer than two ratings, and otherwise is a
    non-negative multiple of 0.01 within 0.005 of the square root of the
    sample variance, up to the same relative error, and within 0.005 outright
    when [120000 * (n * sum of squares - sum^2) < 2^53]. Ratings [3; 1; -2]
    give 0.67 and 2.52, and a single rating gives no [std_dev]. At a
    midpoint either neighbour is met: a 1 and thirty-nine 0 (mean 0.025)
    give 0.03, a 1 and sixty-three 0 (deviation 0.125) give 0.12. *)
Theorem rating_statistics (db : Db) (question : Question.t) :
  let ratings :=
    omap UserAnswer.rating
      (filter (λ a, UserAnswer.question_id a = Question.id question)
         (user_answers db)) in
  let n := length ratings in
  let m := (list_sum ratings # Pos.of_nat n)%Q in
  let v := (sum_sq_dev m ratings / inject_Z (Z.of_nat n - 1))%Q in
  let eps := (1 # 2 ^ 53)%Q in
  ∃ report,
    question_report db question = Some report ∧
    (qr_avg_rating report = None ↔ ratings = []) ∧
    (∀ avg, qr_avg_rating report = Some avg →
       (∃ h, avg = h # 100) ∧
       (Qabs (m - avg) <= (1 # 200) + Qabs m * eps)%Q ∧
       (200 * Z.abs (list_sum ratings) < 2 ^ 53 →
          (Qabs (m - avg) <= 1 # 200)%Q)) ∧
    (qr_std_dev report = None ↔ (n < 2)%nat) ∧
    (∀ sd, qr_std_dev report = Some sd →
       (∃ h, sd = h # 100) ∧
       (0 <= sd)%Q ∧
       ((1 # 200) <= sd →
          (sd - (1 # 200)) * (1 - eps) * ((sd - (1 # 200)) * (1 - eps)) <= v)%Q ∧
       (v <= (sd + (1 # 200)) * (1 + eps) * ((sd + (1 # 200)) * (1 + eps)))%Q ∧
       (120000 * (Z.of_nat n * list_sum ((λ r, r * r) <$> ratings)
                  - list_sum ratings * list_sum ratings) < 2 ^ 53 →
          ((1 # 200) <= sd → (sd - (1 # 200)) * (sd - (1 # 200)) <= v)%Q ∧
          (v <= (sd + (1 # 200)) * (sd + (1 # 200)))%Q)) ∧
    (ratings = [3; 1; -2] →
       qr_avg_rating report = Some (67 # 100) ∧ qr_std_dev report = Some (252 # 100)) ∧
    (ratings = 1 :: replicate 39 0 → qr_avg_rating report = Some (3 # 100)) ∧
    (ratings = 1 :: replicate 63 0 → qr_std_dev report = Some (12 # 100)) ∧
    (∀ r, ratings = [r] → qr_std_dev report = None).
Proof.
  intros ratings n m v eps. unfold question_report. unfold answers_to, ratings_of.
  fold ratings. subst n. clearbody ratings.
  destruct (avg_rating_spec ratings) as (avg & -> & Hnone & Havg).
  destruct (std_dev_spec ratings) as (sd & -> & Hsnone & Hsd).
  eexists. split; [reflexivity|]. cbn [qr_avg_rating qr_std_dev].
  split_and!.
  - exact Hnone.
  - intros a Ha. fold m in Havg. rewrite (Havg a Ha).
    assert (Qabs (m - round (convert m) 2) <= (1 # 200) + Qabs m * eps)%Q as Htol.
    { pose proof (convert_nearest m) as Hc. fold eps in Hc.
      pose proof (round_nearest (convert m) 2) as Hr.
      change (1 # 2 * pow10 2)%Q with (1 # 200)%Q in Hr.
      assert (m - round (convert m) 2
              == - (convert m - m) + (convert m - round (convert m) 2))%Q as -> by ring.
      eapply Qle_trans; [apply Qabs_triangle|]. rewrite Qabs_opp. lra. }
    split_and!.
    + by eexists.
    + exact Htol.
    + intros Hsum. unfold round in Htol |- *. subst m.
      change (pow10 2) with 100%positive in Htol |- *.
      apply (nearest_of_tolerant _ _ _ 100
               (Qabs (list_sum ratings # Pos.of_nat (length ratings)) * eps));
        [exact Htol|].
      change (Qabs (list_sum ratings # Pos.of_nat (length ratings)))
        with (Z.abs (list_sum ratings) # Pos.of_nat (length ratings))%Q.
      subst eps. change (2 ^ 53) with 9007199254740992 in Hsum.
      unfold Qlt. cbn. nia.
  - exact Hsnone.
  - intros s Hs. fold m v in Hsd. rewrite (Hsd s Hs).
    assert (2 ≤ length ratings)%nat as Hlen.
    { destruct sd as [s'|]; [|done].
      assert (¬ (length ratings < 2)%nat) as Hn by (rewrite <- Hsnone; done). lia. }
    assert (0 <= v)%Q as Hv.
    { apply (variance_nonneg ratings). subst v m. by apply variance_Some. }
    destruct (round_sqrt_bounds v Hv) as ((h & Hh & Hsd') & Hlo & Hhi).
    fold eps in Hlo, Hhi.
    split_and!.
    + by eexists.
    + rewrite Hsd'. unfold Qle. simpl. lia.
    + exact Hlo.
    + exact Hhi.
    + intros HW. rewrite Hsd' in Hlo, Hhi |- *.
      pose proof (sample_variance_fraction ratings Hlen) as HvW.
      cbv zeta in HvW. fold m v in HvW.
      rewrite HvW in Hlo, Hhi |- *.
      by apply root_nearest_of_tolerant.
  - intros ->.
    split.
    + destruct avg as [a|]; [|by destruct Hnone as [Hn _]; specialize (Hn eq_refl)].
      rewrite (Havg a eq_refl). vm_compute. reflexivity.
    + destruct sd as [s|].
      * rewrite (Hsd s eq_refl). vm_compute. reflexivity.
      * destruct Hsnone as [Hn _]. specialize (Hn eq_refl). simpl in Hn. lia.
  - intros ->.
    destruct avg as [a|]; [|by destruct Hnone as [Hn _]; specialize (Hn eq_refl)].
    rewrite (Havg a eq_refl). vm_compute. reflexivity.
  - intros ->.
    destruct sd as [s|].
    + rewrite (Hsd s eq_refl). vm_compute. reflexivity.
    + destruct Hsnone as [Hn _]. specialize (Hn eq_refl). simpl in Hn. lia.
  - intros r ->. apply Hsnone. simpl. lia.
Qed.

Lemma rating_statistics_witness :
  (∃ report,
     question_report rated_db (sample_question 1 (Some 10)) = Some report ∧
     qr_avg_rating report = Some (67 # 100) ∧
     qr_std_dev report = Some (252 # 100)) ∧
  (∃ report,
     question_report tied_db (sample_question 1 (Some 10)) = Some report ∧
     qr_std_dev report = Some (12 # 100)) ∧
  (∃ report,
     question_report tied_db (sample_question 2 (Some 10)) = Some report ∧
     qr_avg_rating report = Some (3 # 100)).
Proof.
  split_and!.
  - destruct (rating_statistics rated_db (sample_question 1 (Some 10)))
      as (report & Hrun & _ & _ & _ & _ & Hexample & _).
    exists report. split; [exact Hrun|].
    apply Hexample. reflexivity.
  - destruct (rating_statistics tied_db (sample_question 1 (Some 10)))
      as (report & Hrun & _ & _ & _ & _ & _ & _ & Hexample & _).
    exists report. split; [exact Hrun|].
    apply Hexample. reflexivity.
  - destruct (rating_statistics tied_db (sample_question 2 (Some 10)))
      as (report & Hrun & _ & _ & _ & _ & _ & Hexample & _).
    exists report. split; [exact Hrun|].
    apply Hexample. reflexivity.
Defined.

(** ** Completion accounting *)

Lemma rstrip_empty s : rstrip s = "" ↔ all_space s = true.
Proof.
  induction s as [|c s IH]; simpl; [done|].
  destruct (rstrip s) as [|c' r] eqn:E.
  - assert (all_space s = true) as -> by (by apply IH).
    rewrite andb_true_r. destruct (isspace c); split; done.
  - assert (all_space s ≠ true) as Hs by (rewrite <- IH; done).
    apply not_true_is_false in Hs. rewrite Hs, andb_false_r. split; done.
Qed.

Lemma all_space_lstrip s : all_space (lstrip s) = all_space s.
Proof.
  induction s as [|c s IH]; simpl; [done|].
  destruct (isspace c) eqn:E; simpl; [done|]. by rewrite E.
Qed.

Lemma strip_empty s : strip s = "" ↔ all_space s = true.
Proof. unfold strip. by rewrite rstrip_empty, all_space_lstrip. Qed.

Lemma eqb_strip_empty s : String.eqb (strip s) "" = all_space s.
Proof.
  destruct (all_space s) eqn:E.
  - apply String.eqb_eq. by apply strip_empty.
  - apply String.eqb_neq. rewrite strip_empty. congruence.
Qed.

Lemma is_cant_answer_spec a : is_cant_answer a = true ↔ cannot_answer a.
Proof.
  unfold is_cant_answer, cannot_answer, has_rating, blank.
  rewrite !andb_true_iff, orb_true_iff, negb_true_iff, !bool_decide_eq_true.
  rewrite eqb_strip_empty.
  destruct (UserAnswer.answer a) as [s|]; simpl.
  - rewrite negb_false_iff, String.eqb_eq. split.
    + intros [[_ Hr] [->|Hs]]; done.
    + intros [Hr Hs]. rewrite Hr. auto.
  - split; [by intros [[_ Hr] _]|]. intros [Hr _]. rewrite Hr. auto.
Qed.

Lemma has_answer_text_spec a :
  has_answer_text a = true ↔ ¬ blank (UserAnswer.answer a).
Proof.
  unfold has_answer_text, blank. rewrite eqb_strip_empty.
  destruct (UserAnswer.answer a) as [s|]; simpl; [|split; [done|tauto]].
  rewrite andb_true_iff, !negb_true_iff, String.eqb_neq. split.
  - intros [_ Hs]. congruence.
  - intros Hs. apply not_true_is_false in Hs. split; [|done].
    intros ->. done.
Qed.

Lemma is_complete_spec a : is_complete a = true ↔ cannot_answer a ∨ substantive a.
Proof.
  unfold is_complete. rewrite orb_true_iff, is_cant_answer_spec.
  rewrite !andb_true_iff, has_answer_text_spec. unfold has_rating, substantive.
  rewrite !bool_decide_eq_true.
  assert (UserAnswer.rating a ≠ None ∧ UserAnswer.rating a ≠ Some 0
          ↔ ∃ r, UserAnswer.rating a = Some r ∧ r ≠ 0) as ->; [|done].
  destruct (UserAnswer.rating a) as [r|]; split.
  - intros [_ Hr]. exists r. split; [done|]. congruence.
  - intros (r' & [= <-] & Hr). split; congruence.
  - intros [? _]. done.
  - intros (r' & ? & _). done.
Qed.


Lemma first_of_user u q db :
  first (λ a, UserAnswer.question_id a = q) (answers_of_user u db)
  = head (slot u q db).
Proof.
  unfold first, answers_of_user, slot. f_equal.
  rewrite list_filter_filter. apply list_filter_iff.
  intros a. unfold answer_of. tauto.
Qed.

Lemma every_question_complete_spec u db questions :
  every_question_complete (answers_of_user u db) questions = true ↔
  ∀ q, q ∈ questions →
       ∃ a, head (slot u (Question.id q) db) = Some a ∧ is_complete a = true.
Proof.
  induction questions as [|q rest IH]; simpl.
  - split; [|done]. by intros _ q ?%elem_of_nil.
  - rewrite first_of_user.
    destruct (head (slot u (Question.id q) db)) as [a|] eqn:E.
    + destruct (is_complete a) eqn:Ec.
      * rewrite IH. split.
        -- intros Hrest q' [->|Hq']%elem_of_cons; [eauto|by apply Hrest].
        -- intros Hall q' Hq'. apply Hall. by right.
      * split; [done|]. intros Hall.
        destruct (Hall q) as (a' & Ha' & Hc); [left|]. congruence.
    + split; [done|]. intros Hall.
      destruct (Hall q) as (a' & Ha' & Hc); [left|]. congruence.
Qed.

Lemma head_slot_unique u q db a :
  (length (slot u q db) ≤ 1)%nat →
  head (slot u q db) = Some a ↔ a ∈ user_answers db ∧ answer_of u q a.
Proof.
  intros Hone. split.
  - intros Hh. apply head_Some_elem_of in Hh. apply slot_elem in Hh. tauto.
  - intros [Ha Hof].
    rewrite (slot_at_most_one u q db a Hone); [done|]. by apply slot_elem.
Qed.

Lemma store_with_ok answers seq :
  NoDup (UserAnswer.id <$> answers) →
  Forall (λ a, UserAnswer.id a < seq) answers →
  NoDup ((λ a, (UserAnswer.user_id a, UserAnswer.question_id a)) <$> answers) →
  store_ok (store_with answers seq).
Proof.
  intros Hpk Hseq Hpairs. apply store_ok_intro; [done| |done].
  intros a Ha. by apply (proj1 (Forall_forall _ _) Hseq).
Qed.

Lemma complete_db_ok : store_ok complete_db.
Proof. apply store_with_ok; compute_done. Qed.

Lemma zero_with_text_db_ok : store_ok zero_with_text_db.
Proof. apply store_with_ok; compute_done. Qed.

Lemma no_break_space_db_ok : store_ok no_break_space_db.
Proof. apply store_with_ok; compute_done. Qed.

(** Claim C2. On a store with at most one answer per (user, question), for
    every profile and the questions counted for the company,
    [completely_answered] is true exactly when every such question has an
    answer of the profile that is a "cannot answer" (rating 0 and blank text)
    or a substantive answer (non-zero rating and non-blank text) and the
    answered count equals the number of questions. An answer with rating 0
    and non-blank text makes [completely_answered] false. *)
Theorem completely_answered_iff company_id db :
  (∀ u q, (length (slot u q db) ≤ 1)%nat) →
  company_id ∈ (Company.id <$> companies db) →
  ∃ body,
    get_users_by_company company_id db = Return body ∧
    ubc_users body
    = user_status (company_questions company_id db) db
        <$> filter (λ p, Profile.company_id p = Some company_id) (profiles db) ∧
    ∀ profile,
      let st := user_status (company_questions company_id db) db profile in
      (us_completely_answered st = true ↔
         (∀ q, q ∈ company_questions company_id db →
               ∃ a, a ∈ user_answers db ∧
                    UserAnswer.user_id a = Profile.id profile ∧
                    UserAnswer.question_id a = Question.id q ∧
                    (cannot_answer a ∨ substantive a)) ∧
         us_answered_count st = us_total_questions st) ∧
      (∀ q a, q ∈ company_questions company_id db →
              a ∈ user_answers db →
              UserAnswer.user_id a = Profile.id profile →
              UserAnswer.question_id a = Question.id q →
              UserAnswer.rating a = Some 0 →
              ¬ blank (UserAnswer.answer a) →
              us_completely_answered st = false).
Proof.
  intros Hok Hin. unfold get_users_by_company.
  destruct (first _ (companies db)) as [company|] eqn:E; cycle 1.
  { exfalso. rewrite first_None in E.
    apply list_elem_of_fmap in Hin as (c & -> & Hc). by apply (E c). }
  eexists. split; [reflexivity|]. split; [reflexivity|].
  intros profile.
  set (st := user_status (company_questions company_id db) db profile).
  set (qs := company_questions company_id db) in *.
  assert (us_completely_answered st = true ↔
          (∀ q, q ∈ qs →
                ∃ a, head (slot (Profile.id profile) (Question.id q) db) = Some a ∧
                     is_complete a = true) ∧
          us_answered_count st = us_total_questions st) as Hmain.
  { subst st. unfold user_status. cbn [us_completely_answered us_answered_count
                                        us_total_questions].
    fold (answers_of_user (Profile.id profile) db).
    rewrite andb_true_iff, bool_decide_eq_true.
    case_bool_decide as Hlen.
    - by rewrite every_question_complete_spec.
    - destruct qs; [|simpl in Hlen; lia].
      split; intros [_ Hc]; (split; [|done]); [by intros q ?%elem_of_nil|done]. }
  split.
  - rewrite Hmain. split; intros [Hall Hcount]; (split; [|done]); intros q Hq.
    + destruct (Hall q Hq) as (a & Ha & Hc).
      apply (head_slot_unique _ _ _ _ (Hok _ _)) in Ha as [Ha [Hu Hqa]].
      apply is_complete_spec in Hc. eauto 10.
    + destruct (Hall q Hq) as (a & Ha & Hu & Hqa & Hc).
      exists a. split; [|by apply is_complete_spec].
      by apply (head_slot_unique _ _ _ _ (Hok _ _)).
  - intros q a Hq Ha Hu Hqa Hr Hb.
    apply not_true_is_false. rewrite Hmain. intros [Hall _].
    destruct (Hall q Hq) as (a' & Ha' & Hc).
    assert (head (slot (Profile.id profile) (Question.id q) db) = Some a) as Ha2
      by (by apply (head_slot_unique _ _ _ _ (Hok _ _))).
    assert (a' = a) as -> by congruence.
    apply is_complete_spec in Hc as [[_ Hblank]|[(r & Hr' & Hne) _]]; [done|].
    congruence.
Qed.

Lemma completely_answered_iff_witness :
  ((∀ u q, (length (slot u q complete_db) ≤ 1)%nat) ∧
   1 ∈ (Company.id <$> companies complete_db) ∧
   us_completely_answered (user_status (company_questions 1 complete_db) complete_db ann)
   = true ∧
   ∀ q, q ∈ company_questions 1 complete_db →
        ∃ a, a ∈ user_answers complete_db ∧
             UserAnswer.user_id a = Profile.id ann ∧
             UserAnswer.question_id a = Question.id q ∧
             (cannot_answer a ∨ substantive a)) ∧
  ((∀ u q, (length (slot u q zero_with_text_db) ≤ 1)%nat) ∧
   us_completely_answered
     (user_status (company_questions 1 zero_with_text_db) zero_with_text_db ann)
   = false) ∧
  ((∀ u q, (length (slot u q no_break_space_db) ≤ 1)%nat) ∧
   us_completely_answered
     (user_status (company_questions 1 no_break_space_db) no_break_space_db ann)
   = true ∧
   ∃ a, a ∈ user_answers no_break_space_db ∧
        UserAnswer.answer a = Some no_break_space ∧
        (cannot_answer a ∨ substantive a)).
Proof.
  assert (1 ∈ (Company.id <$> companies complete_db)) as Hin by compute_done.
  split; [|split].
  - destruct (completely_answered_iff 1 complete_db
                (one_answer_per_pair _ complete_db_ok) Hin)
      as (body & _ & _ & Hst).
    destruct (Hst ann) as [Hiff _].
    split_and!; [exact (one_answer_per_pair _ complete_db_ok)|exact Hin|reflexivity|].
    apply Hiff. reflexivity.
  - destruct (completely_answered_iff 1 zero_with_text_db
                (one_answer_per_pair _ zero_with_text_db_ok) Hin)
      as (body & _ & _ & Hst).
    destruct (Hst ann) as [_ Hzero].
    split; [exact (one_answer_per_pair _ zero_with_text_db_ok)|].
    apply (Hzero (sample_question 3 (Some 11)) (sample_answer 3 3 7%N "no idea" (Some 0))).
    + compute_done.
    + compute_done.
    + reflexivity.
    + reflexivity.
    + reflexivity.
    + simpl. discriminate.
  - destruct (completely_answered_iff 1 no_break_space_db
                (one_answer_per_pair _ no_break_space_db_ok) Hin)
      as (body & _ & _ & Hst).
    destruct (Hst ann) as [Hiff _].
    split_and!; [exact (one_answer_per_pair _ no_break_space_db_ok)|reflexivity|].
    destruct (proj1 Hiff eq_refl) as [Hall _].
    destruct (Hall (sample_question 3 (Some 11))) as (a & Ha & Hu & Hq & Hc);
      [compute_done|].
    exists a. split_and!; [done| |done].
    unfold no_break_space_db, store_with in Ha. cbn [user_answers] in Ha.
    repeat (apply elem_of_cons in Ha as [->|Ha]);
      [discriminate Hq|discriminate Hq|reflexivity|by apply elem_of_nil in Ha].
Defined.

Lemma NoDup_fmap_filter {A B} (f : A → B) (P : A → Prop) `{!∀ x, Decision (P x)}
  (l : list A) :
  NoDup (f <$> l) → NoDup (f <$> filter P l).
Proof.
  induction l as [|x l IH]; [done|].
  rewrite fmap_cons, NoDup_cons. intros [Hx Hl].
  rewrite filter_cons. case_decide; [|by apply IH].
  rewrite fmap_cons, NoDup_cons. split; [|by apply IH].
  intros Hin. apply Hx. apply list_elem_of_fmap in Hin as (y & -> & Hy).
  apply list_elem_of_filter in Hy as [_ Hy]. by apply list_elem_of_fmap_2.
Qed.

Lemma answered_question_ids_elem u db x :
  x ∈ answered_question_ids (answers_of_user u db) ↔ slot u x db ≠ [].
Proof.
  unfold answered_question_ids. rewrite elem_of_list_to_set, list_elem_of_fmap.
  split.
  - intros (a & -> & Ha). apply list_elem_of_filter in Ha as [Hu Ha].
    intros Hnil. apply (filter_nil_not_elem_of _ _ a Hnil); [|done]. by split.
  - intros Hne. destruct (slot u x db) as [|a r] eqn:E; [done|].
    assert (a ∈ slot u x db) as Ha by (rewrite E; left).
    apply slot_elem in Ha as [[Hu Hq] Ha].
    exists a. split; [done|]. by apply list_elem_of_filter.
Qed.

Lemma answered_count_spec u db (qs : list Question.t) :
  NoDup (Question.id <$> qs) →
  length (filter (λ qid, qid ∈ (Question.id <$> qs))
            (elements (answered_question_ids (answers_of_user u db))))
  = length (filter (λ q, slot u (Question.id q) db ≠ []) qs).
Proof.
  intros Hnd.
  rewrite <- (length_fmap Question.id (filter _ qs)).
  apply Permutation_length, NoDup_Permutation.
  - apply NoDup_filter, NoDup_elements.
  - by apply NoDup_fmap_filter.
  - intros x. rewrite list_elem_of_filter, elem_of_elements,
      answered_question_ids_elem, !list_elem_of_fmap.
    split.
    + intros [(q & -> & Hq) Hne]. exists q. split; [done|].
      by apply list_elem_of_filter.
    + intros (q & -> & Hq). apply list_elem_of_filter in Hq as [Hne Hq]. eauto.
Qed.

Lemma company_questions_NoDup c db :
  NoDup (Question.id <$> questions db) →
  NoDup (Question.id <$> company_questions c db).
Proof.
  intros Hnd. unfold company_questions.
  destruct (Section_.id <$> company_sections c db); [constructor|].
  by apply NoDup_fmap_filter.
Qed.

(** The percentage of a ratio [x], computed as the code does: the quotient
    and its product with 100 are doubles, and [round] gives a multiple of
    0.1 within 0.05 of [100 * x], up to the relative error of the two
    doubles. *)
Lemma percentage_tolerant (x : Q) :
  (0 <= x)%Q →
  (Qabs (100 * x - round (binary64 (binary64 x * 100)) 1)
   <= (1 # 20) + 100 * x * (1 # 2 ^ 51))%Q.
Proof.
  intros Hx.
  pose proof (binary64_nearest x) as H1.
  rewrite (Qabs_pos x) in H1 by done.
  apply Qabs_Qle_condition in H1 as [H1a H1b].
  set (x1 := binary64 x) in *.
  change (1 # 2 ^ 53)%Q with (1 # 9007199254740992)%Q in *.
  assert (0 <= x1)%Q as Hx1 by lra.
  pose proof (binary64_nearest (x1 * 100)) as H2.
  rewrite (Qabs_pos (x1 * 100)) in H2 by lra.
  apply Qabs_Qle_condition in H2 as [H2a H2b].
  set (x2 := binary64 (x1 * 100)) in *.
  change (1 # 2 ^ 53)%Q with (1 # 9007199254740992)%Q in *.
  pose proof (round_nearest x2 1) as H3.
  change (1 # 2 * pow10 1)%Q with (1 # 20)%Q in H3.
  apply Qabs_Qle_condition in H3 as [H3a H3b].
  change (1 # 2 ^ 51)%Q with (1 # 2251799813685248)%Q.
  apply Qabs_Qle_condition. split; lra.
Qed.

(** Claim C6, corrected. With distinct question ids, [total_questions] is
    the number of questions counted for the company, [answered_count] is the
    number of them for which the profile has at least one answer, however
    classified, and [completion_percentage] is 0 when there is no question
    and otherwise [round((answered_count / total_questions) * 100, 1)] as
    floating point computes it: a multiple of 0.1 within 0.05 of the exact
    percentage (for fewer than [2^51 / 2000] answered questions; up to the
    relative error of the doubles in general). 2 answered of 3 give 66.7;
    23 answered of 80 give 28.7, where [round(100 * 23 / 80, 1)] is 28.8. *)
Theorem completion_percentage_spec company_id db :
  NoDup (Question.id <$> questions db) →
  company_id ∈ (Company.id <$> companies db) →
  ∃ body,
    get_users_by_company company_id db = Return body ∧
    ubc_users body
    = user_status (company_questions company_id db) db
        <$> filter (λ p, Profile.company_id p = Some company_id) (profiles db) ∧
    ∀ profile,
      let st := user_status (company_questions company_id db) db profile in
      let total := inject_Z (Z.of_nat (us_total_questions st)) in
      let answered := inject_Z (Z.of_nat (us_answered_count st)) in
      us_total_questions st = length (company_questions company_id db) ∧
      us_answered_count st
      = length (filter (λ q, slot (Profile.id profile) (Question.id q) db ≠ [])
                  (company_questions company_id db)) ∧
      (us_total_questions st = 0%nat → us_completion_percentage st = 0%Q) ∧
      (us_total_questions st ≠ 0%nat →
         us_completion_percentage st
         = round (binary64 (binary64 (answered / total) * 100)) 1 ∧
         (∃ h, us_completion_percentage st = h # 10) ∧
         (Qabs (100 * answered / total - us_completion_percentage st)
          <= (1 # 20) + 100 * answered / total * (1 # 2 ^ 51))%Q ∧
         (2000 * Z.of_nat (us_answered_count st) < 2 ^ 51 →
            (Qabs (100 * answered / total - us_completion_percentage st)
             <= 1 # 20)%Q)) ∧
      (us_answered_count st = 2%nat → us_total_questions st = 3%nat →
         us_completion_percentage st = 667 # 10) ∧
      (us_answered_count st = 23%nat → us_total_questions st = 80%nat →
         us_completion_percentage st = 287 # 10).
Proof.
  intros Hnd Hin. unfold get_users_by_company.
  destruct (first _ (companies db)) as [company|] eqn:E; cycle 1.
  { exfalso. rewrite first_None in E.
    apply list_elem_of_fmap in Hin as (c & -> & Hc). by apply (E c). }
  eexists. split; [reflexivity|]. split; [reflexivity|].
  intros profile.
  set (qs := company_questions company_id db).
  set (st := user_status qs db profile).
  assert (us_answered_count st
          = length (filter (λ q, slot (Profile.id profile) (Question.id q) db ≠ []) qs))
    as Hcount.
  { subst st. unfold user_status. cbn [us_answered_count].
    fold (answers_of_user (Profile.id profile) db).
    apply answered_count_spec. by apply company_questions_NoDup. }
  assert (us_total_questions st ≠ 0%nat →
          us_completion_percentage st
          = round (binary64
                     (binary64 (inject_Z (Z.of_nat (us_answered_count st))
                                / inject_Z (Z.of_nat (us_total_questions st)))
                      * 100)) 1) as Hpct.
  { intros Hpos. subst st. unfold user_status in *.
    cbn [us_answered_count us_total_questions us_completion_percentage] in *.
    by rewrite bool_decide_eq_true_2 by lia. }
  cbv zeta. split_and!.
  - done.
  - exact Hcount.
  - intros Hzero. subst st. unfold user_status in *.
    cbn [us_total_questions us_completion_percentage] in *.
    by rewrite bool_decide_eq_false_2 by lia.
  - intros Hpos. rewrite (Hpct Hpos).
    set (a := Z.of_nat (us_answered_count st)).
    set (t := Z.of_nat (us_total_questions st)).
    assert (0 ≤ a) as Ha by (subst a; lia).
    assert (0 < t) as Ht by (subst t; lia).
    assert (0 <= inject_Z a)%Q as Hqa.
    { change 0%Q with (inject_Z 0). by rewrite <- Zle_Qle. }
    assert (0 < inject_Z t)%Q as Hqt.
    { change 0%Q with (inject_Z 0). by rewrite <- Zlt_Qlt. }
    assert (0 <= inject_Z a / inject_Z t)%Q as Hx.
    { apply Qle_shift_div_l; [done|]. lra. }
    pose proof (percentage_tolerant _ Hx) as Htol.
    set (pct := round (binary64 (binary64 (inject_Z a / inject_Z t) * 100)) 1) in *.
    assert (100 * inject_Z a / inject_Z t == 100 * (inject_Z a / inject_Z t))%Q as Hmul
      by (field; lra).
    split_and!.
    + done.
    + by eexists.
    + by rewrite Hmul.
    + intros Hsmall. rewrite Hmul.
      assert (100 * (inject_Z a / inject_Z t) == (100 * a) # Z.to_pos t)%Q as Hfrac.
      { rewrite (Qmake_Qdiv (100 * a)), Z2Pos.id, inject_Z_mult by done.
        change (inject_Z 100) with 100%Q. field. lra. }
      rewrite Hfrac in Htol |- *.
      subst pct. unfold round in Htol |- *.
      change (pow10 1) with 10%positive in Htol |- *.
      apply (nearest_of_tolerant _ _ _ 10 (((100 * a) # Z.to_pos t) * (1 # 2 ^ 51)));
        [exact Htol|].
      change (2 ^ 51) with 2251799813685248 in Hsmall.
      unfold Qlt. cbn. nia.
  - intros H2 H3. rewrite Hpct by lia. rewrite H2, H3. vm_compute. reflexivity.
  - intros H2 H3. rewrite Hpct by lia. rewrite H2, H3. vm_compute. reflexivity.
Qed.

Lemma completion_percentage_spec_witness :
  (NoDup (Question.id <$> questions partial_db) ∧
   1 ∈ (Company.id <$> companies partial_db) ∧
   us_answered_count (user_status (company_questions 1 partial_db) partial_db ann)
   = 2%nat ∧
   us_completion_percentage (user_status (company_questions 1 partial_db) partial_db ann)
   = 667 # 10) ∧
  (NoDup (Question.id <$> questions eighty_db) ∧
   1 ∈ (Company.id <$> companies eighty_db) ∧
   us_answered_count (user_status (company_questions 1 eighty_db) eighty_db ann)
   = 23%nat ∧
   us_total_questions (user_status (company_questions 1 eighty_db) eighty_db ann)
   = 80%nat ∧
   us_completion_percentage (user_status (company_questions 1 eighty_db) eighty_db ann)
   = 287 # 10).
Proof.
  split.
  - assert (NoDup (Question.id <$> questions partial_db)) as Hnd by compute_done.
    assert (1 ∈ (Company.id <$> companies partial_db)) as Hin by compute_done.
    destruct (completion_percentage_spec 1 partial_db Hnd Hin) as (body & _ & _ & Hst).
    destruct (Hst ann) as (_ & _ & _ & _ & Hexample & _).
    split_and!; [exact Hnd|exact Hin|reflexivity|].
    apply Hexample; reflexivity.
  - assert (NoDup (Question.id <$> questions eighty_db)) as Hnd by compute_done.
    assert (1 ∈ (Company.id <$> companies eighty_db)) as Hin by compute_done.
    destruct (completion_percentage_spec 1 eighty_db Hnd Hin) as (body & _ & _ & Hst).
    destruct (Hst ann) as (_ & _ & _ & _ & _ & Hexample).
    split_and!; [exact Hnd|exact Hin|reflexivity|reflexivity|].
    apply Hexample; reflexivity.
Defined.

(** The percentage is not [round(100 * answered_count / total_questions, 1)],
    whether that quotient is taken exactly or in floating point: for 23
    answered questions of 80 both give 28.8 and the handler reports 28.7. *)
Lemma completion_percentage_counterexample :
  ¬ (∀ company_id db body st,
       NoDup (Question.id <$> questions db) →
       get_users_by_company company_id db = Return body →
       st ∈ ubc_users body →
       us_total_questions st ≠ 0%nat →
       let exact := (100 * inject_Z (Z.of_nat (us_answered_count st))
                     / inject_Z (Z.of_nat (us_total_questions st)))%Q in
       us_completion_percentage st = round exact 1 ∨
       us_completion_percentage st = round (binary64 exact) 1).
Proof.
  intros Hclaim.
  destruct (Hclaim 1 eighty_db
              (mk_users_by_company 1 "Acme"
                 [user_status (company_questions 1 eighty_db) eighty_db ann])
              (user_status (company_questions 1 eighty_db) eighty_db ann))
    as [Hexact|Hfloat].
  - compute_done.
  - reflexivity.
  - left.
  - vm_compute. discriminate.
  - vm_compute in Hexact. discriminate Hexact.
  - vm_compute in Hfloat. discriminate Hfloat.
Qed.

(** ** The store invariant across requests *)

Lemma store_ok_empty : store_ok empty_db.
Proof. apply store_ok_intro; simpl; [constructor| |constructor]. by intros a ?%elem_of_nil. Qed.

Lemma store_ok_submit_answers fromisoformat clock answers user db :
  store_ok db → store_ok (submit_answers fromisoformat clock answers user db).2.
Proof.
  intros Hok. unfold submit_answers. destruct user as [p|u]; [|done].
  destruct (loop_spec fromisoformat (Profile.id p) clock answers 0%nat db [] Hok)
    as (db' & acc & -> & Hok' & _). done.
Qed.

Lemma store_ok_submit_answer now question_id answer user db :
  store_ok db → store_ok (submit_answer now question_id answer user db).2.
Proof.
  intros Hok. unfold submit_answer.
  destruct (first _ (questions db)); [|done].
  destruct user as [p|u]; [|done].
  destruct (first _ (user_answers db)) as [a0|] eqn:E; simpl.
  - by apply store_ok_update.
  - apply (store_ok_add (Profile.id p) question_id (AnswerCreate.answer answer)
             (AnswerCreate.rating answer) now db Hok).
    unfold first in E. by apply head_None in E.
Qed.

Lemma submit_answers_store fromisoformat clock answers p db :
  (submit_answers fromisoformat clock answers (IsProfile p) db).2
  = (submit_answers_loop fromisoformat (Profile.id p) clock 0 answers (db, [])).1.
Proof. unfold submit_answers. by destruct (submit_answers_loop _ _ _ _ _ _). Qed.

(** Two requests for the same pair, one after the other: one row, with the
    content of the second. *)
Lemma submit_answers_twice fromisoformat clock1 clock2 p db t1 t2 :
  store_ok db →
  question_exists db (AnswerSubmit.question_id t1) →
  AnswerSubmit.question_id t2 = AnswerSubmit.question_id t1 →
  let db1 := (submit_answers fromisoformat clock1 [t1] (IsProfile p) db).2 in
  let db2 := (submit_answers fromisoformat clock2 [t2] (IsProfile p) db1).2 in
  ∃ a1 a2,
    slot (Profile.id p) (AnswerSubmit.question_id t1) db1 = [a1] ∧
    slot (Profile.id p) (AnswerSubmit.question_id t1) db2 = [a2] ∧
    UserAnswer.id a2 = UserAnswer.id a1 ∧
    UserAnswer.answer a2 = Some (AnswerSubmit.answer t2) ∧
    UserAnswer.rating a2 = AnswerSubmit.rating t2.
Proof.
  intros Hok Hq Heq db1 db2. subst db1 db2. rewrite !submit_answers_store.
  destruct (loop_spec fromisoformat (Profile.id p) clock1 [t1] 0%nat db [] Hok)
    as (db1 & acc1 & -> & Hok1 & Hqs1 & _ & _ & _ & _ & _ & Hlast1).
  cbn [fst].
  destruct (Hlast1 0%nat t1 eq_refl Hq) as (a1 & Hslot1 & _ & _).
  { intros [|j] t' Hj Hl; [lia|discriminate]. }
  destruct (loop_spec fromisoformat (Profile.id p) clock2 [t2] 0%nat db1 [] Hok1)
    as (db2 & acc2 & -> & _ & _ & _ & _ & _ & _ & _ & Hlast2).
  cbn [fst].
  destruct (Hlast2 0%nat t2 eq_refl) as (a2 & Hslot2 & (Hans & Hrat & _) & Hfrom).
  { rewrite Heq. by eapply question_exists_same. }
  { intros [|j] t' Hj Hl; [lia|discriminate]. }
  rewrite Heq in Hslot2, Hfrom. rewrite Hslot1 in Hfrom.
  exists a1, a2. simpl. split_and!; try done. apply Hfrom.
Qed.

(** ** The scenarios of the specification, evaluated *)

Example completion_correctness :
  get_users_by_company 1 complete_db
  = Return (mk_users_by_company 1 "Acme"
              [mk_user_status 7%N "ann@example.com" "Ann" (Some 1) 3 3 (1000 # 10)
                 true None]).
Proof. reflexivity. Qed.

Example partial_completion :
  get_users_by_company 1 partial_db
  = Return (mk_users_by_company 1 "Acme"
              [mk_user_status 7%N "ann@example.com" "Ann" (Some 1) 3 2 (667 # 10)
                 false None]).
Proof. reflexivity. Qed.

Example zero_rating_with_text_is_incomplete :
  get_users_by_company 1 zero_with_text_db
  = Return (mk_users_by_company 1 "Acme"
              [mk_user_status 7%N "ann@example.com" "Ann" (Some 1) 3 3 (1000 # 10)
                 false None]).
Proof. reflexivity. Qed.

Example unknown_company :
  get_users_by_company 3 complete_db = HTTPException 404 "Company not found".
Proof. reflexivity. Qed.

Example invalid_question_skip :
  (submit_answers sample_fromisoformat sample_clock sample_batch_with_unknown
     (IsProfile ann) sample_db).1
  = Return (mk_submit_answers_body "Successfully saved 2 answer(s)"
              [(1, 100); (2, 101)]).
Proof. reflexivity. Qed.

Example integer_account_rejected :
  submit_answers sample_fromisoformat sample_clock sample_batch
    (IsUser (User.mk 5 "root@example.com" "Root" "hash" (Some 1) None)) sample_db
  = (HTTPException 400 "Please use Profile account to submit answers", sample_db).
Proof. reflexivity. Qed.

Example timestamp_leniency :
  user_answers
    (submit_answers sample_fromisoformat sample_clock
       [AnswerSubmit.mk 2 "late" None (Some "not-a-date")] (IsProfile ann)
       unanswered_db).2
  = [UserAnswer.mk 1 2 7%N (Some "late") None None false (Some (sample_clock 0))].
Proof. reflexivity. Qed.

Example report_on_empty_store :
  generate_collective_feedback_report failing_chat (λ _, None) None None
    sample_format_number empty_db
  = ([], HTTPException 404 "No questions found").
Proof. reflexivity. Qed.

Example report_calls :
  (generate_collective_feedback_report (λ _, Completed " mixed ") (λ _, None)
     (Some "relay@example.com") (Some "secret") sample_format_number rated_db).1
  = [TextGeneration
       (report_prompt sample_format_number 1 (sample_question 1 (Some 10))
          (Some (67 # 100)) (answers_to rated_db (sample_question 1 (Some 10))));
     SendMail
       (report_text sample_format_number
          [mk_report_entry "Q1: How was it?" (Some (67 # 100)) "Good" "mixed"])].
Proof. reflexivity. Qed.

Example report_stops_when_generation_fails :
  generate_collective_feedback_report failing_chat (λ _, None)
    (Some "relay@example.com") (Some "secret") sample_format_number rated_db
  = ([TextGeneration
        (report_prompt sample_format_number 1 (sample_question 1 (Some 10))
           (Some (67 # 100)) (answers_to rated_db (sample_question 1 (Some 10))))],
     HTTPException 500 "Error generating feedback: unavailable").
Proof. reflexivity. Qed.


(** * Properties of the other handlers *)

(** ** Deleting questions and users *)

Lemma first_is_Some {A} (P : A → Prop) `{!∀ x, Decision (P x)} (l : list A) :
  is_Some (first P l) ↔ ∃ x, x ∈ l ∧ P x.
Proof.
  split.
  - intros [x Hx]. apply first_Some in Hx. eauto.
  - intros (x & Hx & HP). destruct (first P l) eqn:E; [eauto|].
    rewrite first_None in E. by destruct (E x Hx).
Qed.

Lemma first_by_key {A K} `{EqDecision K} (key : A → K) (k : K) (l : list A) :
  is_Some (first (λ x, key x = k) l) ↔ k ∈ (key <$> l).
Proof.
  rewrite first_is_Some, list_elem_of_fmap. split.
  - intros (x & Hx & <-). eauto.
  - intros (x & -> & Hx). eauto.
Qed.

Lemma filter_filter_comm {A} (P Q : A → Prop) `{!∀ x, Decision (P x)}
  `{!∀ x, Decision (Q x)} (l : list A) :
  filter P (filter Q l) = filter Q (filter P l).
Proof.
  induction l as [|x l IH]; [done|].
  rewrite !filter_cons.
  destruct (decide (Q x)), (decide (P x)); rewrite ?filter_cons;
    repeat case_decide; try done; by rewrite IH.
Qed.

(** Removing answers keeps the table of answers well formed. *)
Lemma store_ok_remove_answers (Q : UserAnswer.t → Prop) `{!∀ a, Decision (Q a)}
  cs ss qs us ps db :
  store_ok db →
  store_ok (mk_db cs ss qs (filter Q (user_answers db)) us ps (user_answers_id_seq db)).
Proof.
  intros [Hpk Hseq Hone]. split; simpl.
  - by apply NoDup_fmap_filter.
  - intros a Ha. apply list_elem_of_filter in Ha as [_ Ha]. by apply Hseq.
  - intros u q. unfold slot. simpl. rewrite filter_filter_comm.
    etrans; [apply length_filter|]. apply Hone.
Qed.

(** Property X1. delete_question answers 404 "Question not found" and changes
    nothing when no question has the id; otherwise it removes exactly the
    questions with that id and exactly the answers to it, keeps every other row
    of every table, leaves no answer pointing at a missing question when there
    was none before, and keeps user_answers well-formed (distinct keys issued by
    the sequence, at most one answer per user and question). *)
Theorem delete_question_cascade question_id db :
  (¬ question_exists db question_id →
   delete_question question_id db = (HTTPException 404 "Question not found", db)) ∧
  (question_exists db question_id →
   ∃ message db',
     delete_question question_id db = (Return message, db') ∧
     ¬ question_exists db' question_id ∧
     (∀ q, q ∈ questions db' ↔ q ∈ questions db ∧ Question.id q ≠ question_id) ∧
     (∀ a, a ∈ user_answers db' ↔
           a ∈ user_answers db ∧ UserAnswer.question_id a ≠ question_id) ∧
     ((∀ a, a ∈ user_answers db → question_exists db (UserAnswer.question_id a)) →
      ∀ a, a ∈ user_answers db' → question_exists db' (UserAnswer.question_id a)) ∧
     (store_ok db → store_ok db') ∧
     sections db' = sections db ∧ companies db' = companies db ∧
     profiles db' = profiles db ∧ users db' = users db).
Proof.
  unfold delete_question. split.
  - intros Hq. destruct (first _ (questions db)) eqn:E; [|done].
    exfalso. apply Hq, first_question. eauto.
  - intros Hq. apply first_question in Hq as [question Hfirst]. rewrite Hfirst.
    apply first_Some in Hfirst as [Hin Hid]. rewrite Hid.
    eexists _, _. split; [reflexivity|]. simpl.
    assert (∀ q, q ∈ filter (λ q, Question.id q ≠ question_id) (questions db)
                 ↔ q ∈ questions db ∧ Question.id q ≠ question_id) as Hqs
      by (intros q; rewrite list_elem_of_filter; tauto).
    assert (∀ a, a ∈ filter (λ a, UserAnswer.question_id a ≠ question_id) (user_answers db)
                 ↔ a ∈ user_answers db ∧ UserAnswer.question_id a ≠ question_id) as Has
      by (intros a; rewrite list_elem_of_filter; tauto).
    split_and!; try done.
    + unfold question_exists. simpl. rewrite list_elem_of_fmap.
      intros (q & -> & Hq). apply Hqs in Hq. tauto.
    + intros Hfk a Ha. apply Has in Ha as [Ha Hne].
      specialize (Hfk a Ha). unfold question_exists in *. simpl.
      apply list_elem_of_fmap in Hfk as (q & Heq & Hq).
      apply list_elem_of_fmap. exists q. split; [done|]. apply Hqs. split; congruence.
    + intros Hok.
      apply (store_ok_remove_answers (λ a, UserAnswer.question_id a ≠ question_id)).
      exact Hok.
Qed.

Lemma delete_question_cascade_witness :
  ∃ message db',
    delete_question 1 sample_db = (Return message, db') ∧
    user_answers db' = [] ∧
    Question.id <$> questions db' = [2; 3] ∧
    store_ok db'.
Proof.
  destruct (delete_question_cascade 1 sample_db) as [_ Hdel].
  destruct Hdel as (message & db' & Hrun & _ & _ & _ & _ & Hok & _).
  - compute_done.
  - exists message, db'. split; [exact Hrun|].
    injection Hrun as <- <-. split_and!; [reflexivity|reflexivity|].
    apply Hok, sample_db_ok.
Defined.

(** Property X2. delete_user answers 400 "Invalid user ID format" for an id that
    is no UUID and 404 "User not found" for an unknown profile, both without
    change; for a stored profile it reports as answers_deleted the number of
    answers of that profile, removes the profile and exactly its answers, and
    leaves the answers of every other user and all other tables as they were,
    user_answers staying well-formed. *)
Theorem delete_user_cascade parse_uuid user_id db :
  (parse_uuid user_id = None →
   delete_user parse_uuid user_id db = (HTTPException 400 "Invalid user ID format", db)) ∧
  (∀ user_uuid,
     parse_uuid user_id = Some user_uuid →
     (user_uuid ∉ (Profile.id <$> profiles db) →
      delete_user parse_uuid user_id db = (HTTPException 404 "User not found", db)) ∧
     (user_uuid ∈ (Profile.id <$> profiles db) →
      ∃ body db',
        delete_user parse_uuid user_id db = (Return body, db') ∧
        du_answers_deleted body = length (answers_of_user user_uuid db) ∧
        (user_uuid ∉ (Profile.id <$> profiles db')) ∧
        (∀ p, p ∈ profiles db' ↔ p ∈ profiles db ∧ Profile.id p ≠ user_uuid) ∧
        answers_of_user user_uuid db' = [] ∧
        (∀ u, u ≠ user_uuid → answers_of_user u db' = answers_of_user u db) ∧
        (store_ok db → store_ok db') ∧
        questions db' = questions db ∧ sections db' = sections db ∧
        companies db' = companies db ∧ users db' = users db)).
Proof.
  unfold delete_user. split; [by intros ->|].
  intros user_uuid ->. split.
  - intros Hnot. destruct (first _ (profiles db)) as [p|] eqn:E; [|done].
    exfalso. apply Hnot. apply first_Some in E as [Hp <-].
    by apply list_elem_of_fmap_2.
  - intros Hin. apply list_elem_of_fmap in Hin as (p0 & Hid0 & Hp0).
    destruct (first _ (profiles db)) as [profile|] eqn:E; cycle 1.
    { rewrite first_None in E. by destruct (E p0 Hp0). }
    apply first_Some in E as [Hp Hid]. rewrite Hid.
    eexists _, _. split; [reflexivity|]. simpl.
    split_and!; try done.
    + rewrite list_elem_of_fmap. intros (p & Heq & Hin).
      apply list_elem_of_filter in Hin as [Hne _]. congruence.
    + intros p. rewrite list_elem_of_filter. tauto.
    + unfold answers_of_user. simpl.
      rewrite list_filter_filter.
      induction (user_answers db) as [|a l IH]; [done|].
      rewrite filter_cons. case_decide as Ha; [tauto|exact IH].
    + intros u Hu. unfold answers_of_user. simpl.
      rewrite list_filter_filter. apply list_filter_iff. intros a. split; [tauto|].
      intros Ha. split; [done|congruence].
    + intros Hok.
      apply (store_ok_remove_answers (λ a, UserAnswer.user_id a ≠ user_uuid)).
      exact Hok.
Qed.

Lemma delete_user_cascade_witness :
  ∃ body db',
    delete_user sample_parse_uuid "00000000-0000-0000-0000-000000000007" sample_db
    = (Return body, db') ∧
    du_answers_deleted body = 1%nat ∧
    user_answers db' = [] ∧
    profiles db' = [bob; cat; dan].
Proof.
  destruct (delete_user_cascade sample_parse_uuid
              "00000000-0000-0000-0000-000000000007" sample_db) as [_ Hparsed].
  destruct (Hparsed 7%N eq_refl) as [_ Hfound].
  destruct Hfound as (body & db' & Hrun & Hcount & _).
  - compute_done.
  - exists body, db'. split; [exact Hrun|]. split; [by rewrite Hcount|].
    injection Hrun as <- <-. split; reflexivity.
Defined.

(** ** Deleting a section *)

Section SectionFacts.
Variable order_by_label : list Section_.t → list Section_.t.
Hypothesis order_by_label_perm : ∀ l, order_by_label l ≡ₚ l.

Lemma listed_question_ids_elem user db qid :
  qid ∈ listed_question_ids (returned (get_question order_by_label user db)) ↔
  ∃ q s, q ∈ questions db ∧ s ∈ sections db ∧ Question.id q = qid ∧
         Question.section_id q = Some (Section_.id s) ∧
         visible_to (company_id_of user) s.
Proof.
  unfold get_question, returned, listed_question_ids.
  rewrite list_elem_of_bind. split.
  - intros (sd & Hqid & Hsd).
    apply list_elem_of_fmap in Hsd as (s & -> & Hs).
    apply (user_sections_elem _ order_by_label_perm) in Hs as [Hs Hv].
    simpl in Hqid. rewrite <- list_fmap_compose in Hqid.
    apply list_elem_of_fmap in Hqid as (q & -> & Hq).
    apply list_elem_of_filter in Hq as [Hsid Hq].
    exists q, s. split_and!; done.
  - intros (q & s & Hq & Hs & <- & Hsid & Hv).
    exists (section_data user db s). split.
    + simpl. rewrite <- list_fmap_compose.
      apply list_elem_of_fmap. exists q. split; [done|].
      by apply list_elem_of_filter.
    + apply list_elem_of_fmap_2. by apply (user_sections_elem _ order_by_label_perm).
Qed.

Lemma listed_section_ids_elem user db sid :
  sid ∈ listed_section_ids (returned (get_question order_by_label user db)) ↔
  ∃ s, s ∈ sections db ∧ Section_.id s = sid ∧ visible_to (company_id_of user) s.
Proof.
  unfold get_question, returned, listed_section_ids.
  rewrite <- list_fmap_compose, list_elem_of_fmap. split.
  - intros (s & -> & Hs).
    apply (user_sections_elem _ order_by_label_perm) in Hs as [Hs Hv]. eauto.
  - intros (s & Hs & <- & Hv). exists s. split; [done|].
    by apply (user_sections_elem _ order_by_label_perm).
Qed.

End SectionFacts.

Section ReportInvariance.
Variable chat_completion : string → completion.
Variable smtp_send : string → option string.
Variable smtp_email smtp_password : option string.
Variable format_number : Q → string.

(** The report reads of a question its id and its text only. *)
Lemma report_loop_ext db db' (f : Question.t → Question.t) questions :
  user_answers db' = user_answers db →
  (∀ q, Question.id (f q) = Question.id q ∧ Question.question (f q) = Question.question q) →
  ∀ idx report,
    report_loop chat_completion format_number db' idx (f <$> questions) report
    = report_loop chat_completion format_number db idx questions report.
Proof.
  intros Hrows Hf. induction questions as [|q rest IH]; intros idx report; [done|].
  rewrite fmap_cons. cbn [report_loop].
  destruct (Hf q) as [Hid Htext].
  assert (answers_to db' (f q) = answers_to db q) as ->
    by (unfold answers_to; by rewrite Hrows, Hid).
  destruct (answers_to db q) as [|a l] eqn:E; [apply IH|].
  destruct (match ratings_of (a :: l) with
            | [] => Some None
            | _ => m ← mean (ratings_of (a :: l)); Some (Some (round m 2))
            end) as [avg|]; [|done].
  unfold report_prompt. rewrite Htext.
  unfold io_bind.
  destruct (generate_feedback chat_completion _) as [calls [summary|code detail]];
    [|done].
  by rewrite IH.
Qed.

Lemma collective_report_ext db db' (f : Question.t → Question.t) :
  user_answers db' = user_answers db →
  questions db' = f <$> questions db →
  (∀ q, Question.id (f q) = Question.id q ∧ Question.question (f q) = Question.question q) →
  generate_collective_feedback_report chat_completion smtp_send smtp_email
    smtp_password format_number db'
  = generate_collective_feedback_report chat_completion smtp_send smtp_email
      smtp_password format_number db.
Proof.
  intros Hrows Hqs Hf. unfold generate_collective_feedback_report. rewrite Hqs.
  destruct (questions db) as [|q rest]; [done|].
  rewrite fmap_cons, <- (fmap_cons f q rest).
  by rewrite (report_loop_ext db db' f (q :: rest) Hrows Hf).
Qed.

End ReportInvariance.

Section DeleteSection.
Variable order_by_label : list Section_.t → list Section_.t.
Hypothesis order_by_label_perm : ∀ l, order_by_label l ≡ₚ l.
Variable chat_completion : string → completion.
Variable smtp_send : string → option string.
Variable smtp_email smtp_password : option string.
Variable format_number : Q → string.

(** Property X3. delete_section answers 404 "Section not found" for an unknown
    id; otherwise it removes the section but no question: get_questions still
    returns every question, those of the section with section_id null, and every
    answer stays. From then on get_question lists for every user exactly the
    questions of the remaining sections visible to the user (the orphaned
    questions are shown to nobody), while generate_collective_feedback_report
    makes the same calls and returns the same as before. *)
Theorem delete_section_orphans_questions section_id db :
  (section_id ∉ (Section_.id <$> sections db) →
   delete_section section_id db = (HTTPException 404 "Section not found", db)) ∧
  (section_id ∈ (Section_.id <$> sections db) →
   ∃ message db',
     delete_section section_id db = (Return message, db') ∧
     (∀ s, s ∈ sections db' ↔ s ∈ sections db ∧ Section_.id s ≠ section_id) ∧
     Question.id <$> get_questions db' = Question.id <$> get_questions db ∧
     (∀ q, q ∈ questions db' → Question.section_id q ≠ Some section_id) ∧
     (∀ q, q ∈ questions db → Question.section_id q ≠ Some section_id →
           q ∈ questions db') ∧
     user_answers db' = user_answers db ∧
     (∀ user qid,
        qid ∈ listed_question_ids (returned (get_question order_by_label user db')) ↔
        ∃ q s, q ∈ questions db ∧ s ∈ sections db ∧ Question.id q = qid ∧
               Question.section_id q = Some (Section_.id s) ∧
               Section_.id s ≠ section_id ∧ visible_to (company_id_of user) s) ∧
     generate_collective_feedback_report chat_completion smtp_send smtp_email
       smtp_password format_number db'
     = generate_collective_feedback_report chat_completion smtp_send smtp_email
         smtp_password format_number db).
Proof.
  unfold delete_section. split.
  - intros Hno. destruct (first _ (sections db)) as [s|] eqn:E; [|done].
    exfalso. apply Hno, first_by_key. by rewrite E.
  - intros Hin. apply (first_by_key Section_.id) in Hin as [section E].
    rewrite E. apply first_Some in E as [Hsec Hid]. rewrite Hid.
    eexists _, _. split; [done|].
    set (f := λ q : Question.t,
           if decide (Question.section_id q = Some section_id)
           then question_set_unsectioned q else q).
    assert (Hf : ∀ q, Question.id (f q) = Question.id q
                      ∧ Question.question (f q) = Question.question q).
    { intros q. unfold f. by case_decide. }
    assert (Hsections : ∀ s,
              s ∈ filter (λ s, Section_.id s ≠ section_id) (sections db)
              ↔ s ∈ sections db ∧ Section_.id s ≠ section_id).
    { intros s. rewrite list_elem_of_filter. tauto. }
    split_and!; unfold get_questions; cbn [sections questions user_answers].
    + exact Hsections.
    + rewrite <- list_fmap_compose. apply list_fmap_ext. intros _ q _. apply Hf.
    + intros q' Hq'. apply list_elem_of_fmap in Hq' as (q & -> & _).
      unfold f. by case_decide.
    + intros q Hq Hsid. apply list_elem_of_fmap. exists q. split; [|done].
      unfold f. by rewrite decide_False.
    + done.
    + intros user qid.
      rewrite (listed_question_ids_elem order_by_label order_by_label_perm).
      cbn [sections questions]. split.
      * intros (q' & s & Hq' & Hs & Hqid & Hsid & Hv).
        apply Hsections in Hs as [Hs Hne].
        apply list_elem_of_fmap in Hq' as (q & -> & Hq).
        unfold f in Hqid, Hsid. case_decide as Hd; [done|].
        exists q, s. split_and!; done.
      * intros (q & s & Hq & Hs & Hqid & Hsid & Hne & Hv).
        exists q, s. split_and!; try done.
        -- apply list_elem_of_fmap. exists q. split; [|done].
           unfold f. rewrite decide_False; [done|]. rewrite Hsid. congruence.
        -- by apply Hsections.
    + by apply (collective_report_ext _ _ _ _ _ _ _ f).
Qed.

End DeleteSection.

Lemma delete_section_orphans_questions_witness :
  ∃ message db',
    delete_section 10 sample_db = (Return message, db') ∧
    Section_.id <$> sections db' = [11] ∧
    Question.id <$> questions db' = [1; 2; 3] ∧
    Question.section_id <$> questions db' = [None; None; Some 11] ∧
    user_answers db' = user_answers sample_db.
Proof.
  destruct (delete_section_orphans_questions id (λ l, reflexivity l)
              failing_chat (λ _, None) None None sample_format_number
              10 sample_db) as [_ Hfound].
  destruct Hfound as (message & db' & Hrun & _ & _ & _ & _ & Hrows & _).
  - compute_done.
  - exists message, db'. split; [exact Hrun|].
    injection Hrun as <- <-. repeat split.
Defined.

(** ** Companies *)

(** Property X4. On a table with pairwise distinct company names, add_company
    answers 400 "Company already exists" without change for a name already
    stored, and otherwise appends one company with that name: get_companies
    lists the old companies followed by the new one, names are still pairwise
    distinct, adding the same name again is rejected, and no other table
    changes. *)
Theorem add_company_keeps_names_unique new_id now company_name db :
  NoDup (Company.name <$> companies db) →
  (company_name ∈ (Company.name <$> companies db) →
   add_company new_id now company_name db
   = (HTTPException 400 "Company already exists", db)) ∧
  (company_name ∉ (Company.name <$> companies db) →
   ∃ db',
     add_company new_id now company_name db
     = (Return ("Company added successfully", (new_id, company_name)), db') ∧
     admin.get_companies db' = admin.get_companies db ++ [(new_id, company_name)] ∧
     NoDup (Company.name <$> companies db') ∧
     (∀ new_id' now',
        add_company new_id' now' company_name db'
        = (HTTPException 400 "Company already exists", db')) ∧
     sections db' = sections db ∧ questions db' = questions db ∧
     user_answers db' = user_answers db ∧ users db' = users db ∧
     profiles db' = profiles db).
Proof.
  intros Hnd. unfold add_company. split.
  - intros Hin. apply (first_by_key Company.name) in Hin as [c E]. by rewrite E.
  - intros Hno. destruct (first _ (companies db)) as [c|] eqn:E.
    { exfalso. apply Hno, first_by_key. by rewrite E. }
    eexists. split; [done|]. cbn [companies]. split_and!; try done.
    + unfold admin.get_companies. cbn [companies]. by rewrite fmap_app.
    + rewrite fmap_app. apply NoDup_app. split_and!; [done| |apply NoDup_singleton].
      intros x Hx ->%list_elem_of_singleton. done.
    + intros new_id' now'.
      destruct (first _ (_ ++ _)) as [c|] eqn:E'; [done|].
      exfalso. rewrite first_None in E'.
      apply (E' (Company.mk new_id company_name (Some now))); [|done].
      apply elem_of_app. right. by apply list_elem_of_singleton.
Qed.

Lemma add_company_keeps_names_unique_witness :
  ∃ db',
    add_company 3 (sample_clock 0) "Initech" sample_db
    = (Return ("Company added successfully", (3, "Initech")), db') ∧
    add_company 4 (sample_clock 1) "Initech" db'
    = (HTTPException 400 "Company already exists", db').
Proof.
  destruct (add_company_keeps_names_unique 3 (sample_clock 0) "Initech" sample_db)
    as [_ Hfresh].
  - compute_done.
  - destruct Hfresh as (db' & Hrun & _ & _ & Hagain & _).
    + compute_done.
    + exists db'. split; [exact Hrun|apply Hagain].
Defined.

(** Property X5. On a table with distinct company ids and distinct names,
    update_company answers 404 "Company not found" for an unknown id and 400
    "Company name already exists" when another company bears the name, both
    without change; otherwise (also when a company is renamed to its own name)
    exactly that company is renamed: ids are kept, names are still pairwise
    distinct, get_companies lists the id with the new name and every other
    company as before, and no other table changes. *)
Theorem update_company_keeps_names_unique company_id company_name db :
  NoDup (Company.id <$> companies db) →
  NoDup (Company.name <$> companies db) →
  (company_id ∉ (Company.id <$> companies db) →
   update_company company_id company_name db
   = (HTTPException 404 "Company not found", db)) ∧
  (company_id ∈ (Company.id <$> companies db) →
   ((∃ c, c ∈ companies db ∧ Company.name c = company_name
          ∧ Company.id c ≠ company_id) →
    update_company company_id company_name db
    = (HTTPException 400 "Company name already exists", db)) ∧
   ((∀ c, c ∈ companies db → Company.name c = company_name →
          Company.id c = company_id) →
    ∃ db',
      update_company company_id company_name db
      = (Return ("Company updated successfully", (company_id, company_name)), db') ∧
      Company.id <$> companies db' = Company.id <$> companies db ∧
      NoDup (Company.name <$> companies db') ∧
      (∀ id name, (id, name) ∈ admin.get_companies db' ↔
         (id = company_id ∧ name = company_name) ∨
         (id ≠ company_id ∧ (id, name) ∈ admin.get_companies db)) ∧
      sections db' = sections db ∧ questions db' = questions db ∧
      user_answers db' = user_answers db ∧ users db' = users db ∧
      profiles db' = profiles db)).
Proof.
  intros Hids Hnames. unfold update_company. split.
  - intros Hno. destruct (first _ (companies db)) as [c|] eqn:E; [|done].
    exfalso. apply Hno, first_by_key. by rewrite E.
  - intros Hin. pose proof Hin as Hin'.
    apply (first_by_key Company.id) in Hin as [company E]. rewrite E.
    apply first_Some in E as [Hcompany Hid]. split.
    + intros Hother. destruct (first _ (companies db)) as [c|] eqn:E'; [done|].
      exfalso. rewrite first_None in E'. destruct Hother as (c & Hc & Hname & Hne).
      by apply (E' c Hc).
    + intros Hfree. destruct (first _ (companies db)) as [c|] eqn:E'.
      { apply first_Some in E' as [Hc [Hname Hne]]. destruct Hne. by apply Hfree. }
      rewrite Hid. eexists. split; [done|]. cbn [companies].
      set (g := λ c : Company.t,
             if decide (Company.id c = company_id)
             then Company.mk (Company.id c) company_name (Company.created_at c)
             else c).
      split_and!; try done.
      * rewrite <- list_fmap_compose. apply list_fmap_ext. intros _ c _. simpl.
        unfold g. by case_decide.
      * rewrite <- list_fmap_compose. apply NoDup_fmap_2_strong.
        2:{ by apply NoDup_fmap_1 in Hids. }
        intros x y Hx Hy. simpl. unfold g.
        destruct (decide (Company.id x = company_id)) as [Hx'|Hx'],
                 (decide (Company.id y = company_id)) as [Hy'|Hy']; simpl.
        -- intros _. apply (NoDup_fmap_eq Company.id (companies db)); congruence.
        -- intros Hn. destruct Hy'. by apply Hfree.
        -- intros Hn. destruct Hx'. by apply Hfree.
        -- intros Hn. by apply (NoDup_fmap_eq Company.name (companies db)).
      * intros id name. unfold admin.get_companies. cbn [companies].
        rewrite <- list_fmap_compose, !list_elem_of_fmap. split.
        -- intros (c & Heq & Hc). simpl in Heq. unfold g in Heq.
           case_decide as Hd; simpl in Heq; injection Heq as -> ->.
           ++ by left.
           ++ right. split; [done|]. eauto.
        -- intros [[-> ->]|[Hne (c & Heq & Hc)]].
           ++ exists company. split; [|done]. simpl. unfold g.
              rewrite decide_True by done. simpl. by rewrite Hid.
           ++ exists c. split; [|done]. injection Heq as -> ->. simpl. unfold g.
              by rewrite decide_False.
Qed.

Lemma update_company_keeps_names_unique_witness :
  update_company 1 "Globex" sample_db
  = (HTTPException 400 "Company name already exists", sample_db).
Proof.
  destruct (update_company_keeps_names_unique 1 "Globex" sample_db) as [_ Hfound].
  - compute_done.
  - compute_done.
  - destruct Hfound as [Htaken _]; [compute_done|].
    apply Htaken. exists (Company.mk 2 "Globex" None). compute_done.
Defined.

Lemma clear_company_none {A} (company_id : A → option Z) (set_null : A → A) cid
  (l : list A) :
  (∀ x, x ∈ l → company_id x ≠ Some cid) →
  clear_company company_id set_null cid <$> l = l.
Proof.
  intros Hnone. induction l as [|x l IH]; [done|].
  rewrite fmap_cons, IH by (intros y Hy; apply Hnone; by right).
  unfold clear_company. rewrite decide_False; [done|]. apply Hnone. by left.
Qed.

Lemma length_filter_zero {A} (P : A → Prop) `{!∀ x, Decision (P x)} (l : list A) :
  length (filter P l) = 0%nat ↔ ∀ x, x ∈ l → ¬ P x.
Proof.
  rewrite length_zero_iff_nil. split.
  - intros Hnil x Hx HP. eapply filter_nil_not_elem_of; eauto.
  - intros Hall. induction l as [|y l IH]; [done|].
    rewrite filter_cons_False by (apply Hall; by left).
    apply IH. intros x Hx. apply Hall. by right.
Qed.

(** Property X6. For a stored company, check_company_deletion returns can_delete
    = true exactly when no user and no section references the company (profiles
    are not looked at). delete_company succeeds whatever can_delete says: when
    it is false the message carries exactly the users_count and sections_count
    of the check, when it is true the message is the plain one and users and
    sections are untouched; afterwards check_company_deletion answers 404
    "Company not found". *)
Theorem check_company_deletion_agrees company_id db :
  company_id ∈ (Company.id <$> companies db) →
  ∃ check message db',
    check_company_deletion company_id db = Return check ∧
    delete_company company_id db = (Return message, db') ∧
    (dc_can_delete check = true ↔
     (∀ u, u ∈ users db → User.company_id u ≠ Some company_id) ∧
     (∀ s, s ∈ sections db → Section_.company_id s ≠ Some company_id)) ∧
    (dc_can_delete check = true →
     message = "Company deleted successfully" ∧
     users db' = users db ∧ sections db' = sections db) ∧
    (dc_can_delete check = false →
     message = concat_str
                 ["Company deleted successfully"; " "; pretty (dc_users_count check);
                  " user(s) and "; pretty (dc_sections_count check);
                  " section(s) had their company_id set to NULL."]) ∧
    check_company_deletion company_id db'
    = HTTPException 404 "Company not found".
Proof.
  intros Hin. apply (first_by_key Company.id) in Hin as [company E].
  unfold check_company_deletion, delete_company. rewrite E.
  apply first_Some in E as [Hcompany Hid].
  unfold update_users_company_null, update_sections_company_null.
  cbn [users sections companies questions user_answers profiles user_answers_id_seq].
  set (users_count := length (filter _ (users db))).
  set (sections_count := length (filter _ (sections db))).
  eexists _, _, _. split; [done|]. split; [done|].
  cbn [dc_can_delete dc_users_count dc_sections_count].
  assert (Hcan : bool_decide (users_count = 0%nat) && bool_decide (sections_count = 0%nat)
                 = true ↔
                 (∀ u, u ∈ users db → User.company_id u ≠ Some company_id) ∧
                 (∀ s, s ∈ sections db → Section_.company_id s ≠ Some company_id)).
  { rewrite andb_true_iff, !bool_decide_eq_true.
    unfold users_count, sections_count. by rewrite !length_filter_zero. }
  split_and!.
  - exact Hcan.
  - intros Hc. pose proof Hc as Hc'. apply Hcan in Hc' as [Hu Hs].
    apply andb_true_iff in Hc as [Hu0 Hs0].
    apply bool_decide_eq_true in Hu0, Hs0. rewrite Hu0, Hs0. split; [done|].
    unfold delete_company_row.
    cbn [users sections companies questions user_answers profiles user_answers_id_seq].
    rewrite Hid.
    rewrite !(clear_company_none User.company_id _ _ (users db)) by done.
    by rewrite !(clear_company_none Section_.company_id _ _ (sections db)) by done.
  - intros Hc. apply andb_false_iff in Hc.
    assert (bool_decide (0 < users_count)%nat || bool_decide (0 < sections_count)%nat
            = true) as ->; [|done].
    apply orb_true_iff. rewrite !bool_decide_eq_true.
    destruct Hc as [Hc|Hc]; apply bool_decide_eq_false in Hc; lia.
  - unfold delete_company_row. cbn [companies].
    destruct (first _ (filter _ (companies db))) as [c|] eqn:E'; [|done].
    apply first_Some in E' as [Hc Heq].
    apply list_elem_of_filter in Hc as [Hne _]. congruence.
Qed.

Lemma check_company_deletion_agrees_witness :
  ∃ check message db',
    check_company_deletion 1 sample_db = Return check ∧
    delete_company 1 sample_db = (Return message, db') ∧
    dc_can_delete check = false ∧
    check_company_deletion 1 db' = HTTPException 404 "Company not found".
Proof.
  destruct (check_company_deletion_agrees 1 sample_db)
    as (check & message & db' & Hcheck & Hrun & _ & _ & _ & Hgone).
  - compute_done.
  - exists check, message, db'. split; [exact Hcheck|]. split; [exact Hrun|].
    split; [|exact Hgone]. injection Hcheck as <-. reflexivity.
Defined.

(** ** Referential integrity *)

Lemma elem_of_fmap_app_l {A B} (f : A → B) (l k : list A) x :
  x ∈ (f <$> l) → x ∈ (f <$> l ++ k).
Proof. rewrite fmap_app, elem_of_app. tauto. Qed.

Lemma elem_of_fmap_filter_ne {A B} `{EqDecision B} (f : A → B) (k : B) (l : list A) x :
  x ∈ (f <$> l) → x ≠ k → x ∈ (f <$> filter (λ y, f y ≠ k) l).
Proof.
  rewrite !list_elem_of_fmap. intros (y & -> & Hy) Hne.
  exists y. split; [done|]. by apply list_elem_of_filter.
Qed.

Lemma clear_company_Some {A} (company_id : A → option Z) (set_null : A → A) cid row c :
  (∀ r, company_id (set_null r) = None) →
  company_id (clear_company company_id set_null cid row) = Some c →
  company_id row = Some c ∧ c ≠ cid.
Proof.
  intros Hnull. unfold clear_company. case_decide as Hd.
  - by rewrite Hnull.
  - intros Hc. split; [done|]. congruence.
Qed.

Lemma references_ok_create_question new_id now question db :
  references_ok db → references_ok (create_question new_id now question db).2.
Proof.
  intros [Hsc Hqs Haq Hap Huc Hpc]. unfold create_question.
  assert (Hgrow : ∀ q,
    (∀ sid, Question.section_id q = Some sid → sid ∈ (Section_.id <$> sections db)) →
    references_ok
      (mk_db (companies db) (sections db) (questions db ++ [q]) (user_answers db)
         (users db) (profiles db) (user_answers_id_seq db))).
  { intros q Hq. constructor; cbn [companies sections questions user_answers users profiles];
      try done.
    - intros q' sid [Hq'| ->%list_elem_of_singleton]%elem_of_app; eauto.
    - intros a Ha. unfold question_exists. cbn [questions].
      apply elem_of_fmap_app_l. by apply Haq. }
  destruct (QuestionCreate.section_id question) as [sid|] eqn:E.
  - case_decide as Hd; [|by constructor].
    cbn [snd]. apply Hgrow. simpl. by intros ? [= <-].
  - cbn [snd]. apply Hgrow. by simpl.
Qed.

Lemma references_ok_update_question question_id question_update db :
  references_ok db → references_ok (update_question question_id question_update db).2.
Proof.
  intros Hok. pose proof Hok as [Hsc Hqs Haq Hap Huc Hpc]. unfold update_question.
  destruct (first _ (questions db)) as [question|] eqn:E; [|done].
  destruct (match QuestionUpdate.section_id question_update with
            | Some sid => _ | None => true end) eqn:Hfound; [|done].
  cbn [snd]. constructor; cbn [companies sections questions user_answers users profiles];
    try done.
  - intros q' sid Hq' Hsid. apply list_elem_of_fmap in Hq' as (q & -> & Hq).
    unfold rewrite_question in Hsid. case_decide; [|eauto].
    simpl in Hsid. destruct (QuestionUpdate.section_id question_update) as [sid'|].
    + injection Hsid as ->. apply bool_decide_eq_true in Hfound.
      by apply (first_by_key Section_.id) in Hfound.
    + eauto.
  - intros a Ha. unfold question_exists. cbn [questions].
    rewrite <- list_fmap_compose.
    replace (Question.id ∘ rewrite_question (Question.id question)
               (apply_question_update question_update) <$> questions db)
      with (Question.id <$> questions db); [by apply Haq|].
    apply list_fmap_ext. intros _ q _. simpl. unfold rewrite_question.
    by case_decide.
Qed.

Lemma references_ok_delete_question question_id db :
  references_ok db → references_ok (delete_question question_id db).2.
Proof.
  intros Hok. pose proof Hok as [Hsc Hqs Haq Hap Huc Hpc]. unfold delete_question.
  destruct (first _ (questions db)) as [question|] eqn:E; [|done].
  apply first_Some in E as [_ Hid]. rewrite Hid.
  cbn [snd]. constructor; cbn [companies sections questions user_answers users profiles];
    try done.
  - intros q sid [_ Hq]%list_elem_of_filter. eauto.
  - intros a [Hne Ha]%list_elem_of_filter. unfold question_exists. cbn [questions].
    apply elem_of_fmap_filter_ne; [by apply Haq|done].
  - intros a [_ Ha]%list_elem_of_filter. eauto.
Qed.

Lemma references_ok_create_section new_id now section db :
  references_ok db → references_ok (create_section new_id now section db).2.
Proof.
  intros Hok. pose proof Hok as [Hsc Hqs Haq Hap Huc Hpc]. unfold create_section.
  destruct (match SectionCreate.company_id section with
            | Some cid => _ | None => true end) eqn:Hfound; [|done].
  cbn [snd]. constructor; cbn [companies sections questions user_answers users profiles];
    try done.
  - intros s cid [Hs| ->%list_elem_of_singleton]%elem_of_app; [eauto|].
    simpl. intros Hcid. rewrite Hcid in Hfound.
    apply bool_decide_eq_true in Hfound.
    by apply (first_by_key Company.id) in Hfound.
  - intros q sid Hq Hsid. apply elem_of_fmap_app_l. eauto.
Qed.

Lemma references_ok_update_section_title section_id section_update db :
  references_ok db →
  references_ok (update_section_title section_id section_update db).2.
Proof.
  intros Hok. pose proof Hok as [Hsc Hqs Haq Hap Huc Hpc]. unfold update_section_title.
  destruct (first _ (sections db)) as [section|] eqn:E; [|done].
  destruct (match SectionUpdate.company_id section_update with
            | Some cid => _ | None => true end) eqn:Hfound; [|done].
  cbn [snd]. constructor; cbn [companies sections questions user_answers users profiles];
    try done.
  - intros s' cid Hs' Hcid. apply list_elem_of_fmap in Hs' as (s & -> & Hs).
    unfold rewrite_section in Hcid. case_decide; [|eauto].
    simpl in Hcid. destruct (SectionUpdate.company_id section_update) as [cid'|].
    + injection Hcid as ->. apply bool_decide_eq_true in Hfound.
      by apply (first_by_key Company.id) in Hfound.
    + eauto.
  - intros q sid Hq Hsid. rewrite <- list_fmap_compose.
    replace (Section_.id ∘ rewrite_section (Section_.id section)
               (apply_section_update section_update) <$> sections db)
      with (Section_.id <$> sections db); [eauto|].
    apply list_fmap_ext. intros _ s _. simpl. unfold rewrite_section.
    by case_decide.
Qed.

Lemma references_ok_delete_section section_id db :
  references_ok db → references_ok (delete_section section_id db).2.
Proof.
  intros Hok. pose proof Hok as [Hsc Hqs Haq Hap Huc Hpc]. unfold delete_section.
  destruct (first _ (sections db)) as [section|] eqn:E; [|done].
  apply first_Some in E as [_ Hid]. rewrite Hid.
  cbn [snd]. constructor; cbn [companies sections questions user_answers users profiles];
    try done.
  - intros s cid [_ Hs]%list_elem_of_filter. eauto.
  - intros q' sid Hq' Hsid. apply list_elem_of_fmap in Hq' as (q & -> & Hq).
    case_decide as Hd; [done|].
    apply elem_of_fmap_filter_ne; [eauto|]. congruence.
  - intros a Ha. unfold question_exists. cbn [questions].
    rewrite <- list_fmap_compose.
    replace (Question.id ∘ (λ q, if decide (Question.section_id q = Some section_id)
                                 then question_set_unsectioned q else q)
               <$> questions db)
      with (Question.id <$> questions db); [by apply Haq|].
    apply list_fmap_ext. intros _ q _. simpl. by case_decide.
Qed.

Lemma references_ok_add_company new_id now company_name db :
  references_ok db → references_ok (add_company new_id now company_name db).2.
Proof.
  intros Hok. pose proof Hok as [Hsc Hqs Haq Hap Huc Hpc]. unfold add_company.
  destruct (first _ (companies db)); [done|].
  cbn [snd]. constructor; cbn [companies sections questions user_answers users profiles];
    try done; intros; apply elem_of_fmap_app_l; eauto.
Qed.

Lemma references_ok_update_company company_id company_name db :
  references_ok db → references_ok (update_company company_id company_name db).2.
Proof.
  intros Hok. pose proof Hok as [Hsc Hqs Haq Hap Huc Hpc]. unfold update_company.
  destruct (first _ (companies db)) as [company|]; [|done].
  destruct (first _ (companies db)); [done|].
  cbn [snd].
  assert (Hids : Company.id <$>
            ((λ c, if decide (Company.id c = Company.id company)
                   then Company.mk (Company.id c) company_name (Company.created_at c)
                   else c) <$> companies db)
          = Company.id <$> companies db).
  { rewrite <- list_fmap_compose. apply list_fmap_ext. intros _ c _. simpl.
    by case_decide. }
  constructor; cbn [companies sections questions user_answers users profiles];
    try done; rewrite Hids; done.
Qed.

Lemma references_ok_delete_company company_id db :
  references_ok db → references_ok (delete_company company_id db).2.
Proof.
  intros Hok. pose proof Hok as [Hsc Hqs Haq Hap Huc Hpc]. unfold delete_company.
  destruct (first _ (companies db)) as [company|] eqn:E; [|done].
  apply first_Some in E as [_ Hid]. rewrite Hid.
  unfold update_users_company_null, update_sections_company_null, delete_company_row.
  cbn [snd companies sections questions user_answers users profiles user_answers_id_seq].
  rewrite !clear_company_twice by done.
  constructor; cbn [companies sections questions user_answers users profiles];
    try done.
  - intros s' cid Hs' Hcid. apply list_elem_of_fmap in Hs' as (s & -> & Hs).
    apply clear_company_Some in Hcid as [Hcid Hne]; [|done].
    apply elem_of_fmap_filter_ne; eauto.
  - intros q sid Hq Hsid. rewrite <- list_fmap_compose.
    replace (Section_.id ∘ clear_company Section_.company_id section_set_null company_id
               <$> sections db)
      with (Section_.id <$> sections db); [eauto|].
    apply list_fmap_ext. intros _ s _. simpl. unfold clear_company. by case_decide.
  - intros a Ha. rewrite <- list_fmap_compose.
    replace (Profile.id ∘ clear_company Profile.company_id profile_set_null company_id
               <$> profiles db)
      with (Profile.id <$> profiles db); [eauto|].
    apply list_fmap_ext. intros _ p _. simpl. unfold clear_company. by case_decide.
  - intros u' cid Hu' Hcid. apply list_elem_of_fmap in Hu' as (u & -> & Hu).
    apply clear_company_Some in Hcid as [Hcid Hne]; [|done].
    apply elem_of_fmap_filter_ne; eauto.
  - intros p' cid Hp' Hcid. apply list_elem_of_fmap in Hp' as (p & -> & Hp).
    apply clear_company_Some in Hcid as [Hcid Hne]; [|done].
    apply elem_of_fmap_filter_ne; eauto.
Qed.

Lemma references_ok_delete_user parse_uuid user_id db :
  references_ok db → references_ok (delete_user parse_uuid user_id db).2.
Proof.
  intros Hok. pose proof Hok as [Hsc Hqs Haq Hap Huc Hpc]. unfold delete_user.
  destruct (parse_uuid user_id) as [user_uuid|]; [|done].
  destruct (first _ (profiles db)) as [profile|] eqn:E; [|done].
  apply first_Some in E as [_ Hid]. rewrite Hid.
  cbn [snd]. constructor; cbn [companies sections questions user_answers users profiles];
    try done.
  - intros a [_ Ha]%list_elem_of_filter. by apply Haq.
  - intros a [Hne Ha]%list_elem_of_filter.
    apply elem_of_fmap_filter_ne; [eauto|done].
  - intros p cid [_ Hp]%list_elem_of_filter. eauto.
Qed.

Lemma references_ok_signup profile_id now user db :
  references_ok db → references_ok (signup profile_id now user db).2.
Proof.
  intros Hok. pose proof Hok as [Hsc Hqs Haq Hap Huc Hpc]. unfold signup.
  destruct (first _ (profiles db)); [done|].
  destruct (match UserCreate.company_id user with
            | Some cid => _ | None => true end) eqn:Hfound; [|done].
  case_decide; [done|].
  cbn [snd]. constructor; cbn [companies sections questions user_answers users profiles];
    try done.
  - intros a Ha. apply elem_of_fmap_app_l. eauto.
  - intros p cid [Hp| ->%list_elem_of_singleton]%elem_of_app; [eauto|].
    simpl. intros Hcid. rewrite Hcid in Hfound.
    apply bool_decide_eq_true in Hfound.
    by apply (first_by_key Company.id) in Hfound.
Qed.

Lemma references_ok_update_answer id f db :
  (∀ a, UserAnswer.question_id (f a) = UserAnswer.question_id a
        ∧ UserAnswer.user_id (f a) = UserAnswer.user_id a) →
  references_ok db → references_ok (update_answer id f db).
Proof.
  intros Hf [Hsc Hqs Haq Hap Huc Hpc]. unfold update_answer.
  constructor; cbn [companies sections questions user_answers users profiles];
    try done.
  - intros a' Ha'. apply list_elem_of_fmap in Ha' as (a & -> & Ha).
    unfold question_exists. cbn [questions]. unfold rewrite_row.
    case_decide; [|by apply Haq]. destruct (Hf a) as [-> _]. by apply Haq.
  - intros a' Ha'. apply list_elem_of_fmap in Ha' as (a & -> & Ha).
    unfold rewrite_row. case_decide; [|by apply Hap].
    destruct (Hf a) as [_ ->]. by apply Hap.
Qed.

Lemma references_ok_add_answer q u s r d db :
  question_exists db q → u ∈ (Profile.id <$> profiles db) →
  references_ok db → references_ok (add_answer q u s r d db).2.
Proof.
  intros Hq Hu [Hsc Hqs Haq Hap Huc Hpc]. rewrite add_answer_eq. cbn [snd].
  constructor; cbn [companies sections questions user_answers users profiles];
    try done.
  - intros a [Ha| ->%list_elem_of_singleton]%elem_of_app; [by apply Haq|done].
  - intros a [Ha| ->%list_elem_of_singleton]%elem_of_app; [by apply Hap|done].
Qed.

Lemma references_ok_generate_feedback_for_answer chat_completion answer_id db :
  references_ok db →
  references_ok (generate_feedback_for_answer chat_completion answer_id db).2.
Proof.
  intros Hok. unfold generate_feedback_for_answer.
  destruct (first _ (user_answers db)); [|done].
  destruct (generate_feedback _ _) as [calls [feedback|code detail]]; [|done].
  cbn [snd]. by apply references_ok_update_answer.
Qed.

Section SubmissionReferences.
Variable fromisoformat : string → option datetime.
Variable user_id : UUID.

Lemma references_ok_step now t st :
  user_id ∈ (Profile.id <$> profiles st.1) → references_ok st.1 →
  let st' := submit_answers_step fromisoformat user_id now t st in
  profiles st'.1 = profiles st.1 ∧ references_ok st'.1.
Proof.
  destruct st as [db saved]. cbn [fst]. intros Hu Hok. unfold submit_answers_step.
  destruct (first _ (questions db)) as [q|] eqn:E; [|done].
  assert (question_exists db (AnswerSubmit.question_id t)) as Hq
    by (apply first_question; eauto).
  destruct (first _ (user_answers db)) as [a0|].
  - cbn [fst]. split; [done|]. by apply references_ok_update_answer.
  - rewrite add_answer_eq. cbn [fst]. split; [done|].
    by apply (references_ok_add_answer (AnswerSubmit.question_id t) user_id
                (AnswerSubmit.answer t) (AnswerSubmit.rating t) _ db).
Qed.

Lemma references_ok_loop clock answers : ∀ i st,
  user_id ∈ (Profile.id <$> profiles st.1) → references_ok st.1 →
  references_ok (submit_answers_loop fromisoformat user_id clock i answers st).1.
Proof.
  induction answers as [|t rest IH]; intros i st Hu Hok; [done|].
  cbn [submit_answers_loop].
  destruct (references_ok_step (clock i) t st Hu Hok) as [Hp Hok'].
  apply IH; [by rewrite Hp|done].
Qed.

End SubmissionReferences.

(** Property X7. submit_answers and submit_answer keep referential integrity: if
    every foreign key of the store names a stored row and the calling profile is
    stored, the same holds after the call (a new answer row names an existing
    question and the calling profile, a rewritten row keeps its question and
    user). *)
Theorem submission_keeps_references fromisoformat user db :
  references_ok db →
  (∀ p, user = IsProfile p → Profile.id p ∈ (Profile.id <$> profiles db)) →
  (∀ clock answers,
     references_ok (submit_answers fromisoformat clock answers user db).2) ∧
  (∀ now question_id answer,
     references_ok (submit_answer now question_id answer user db).2).
Proof.
  intros Hok Hu. split.
  - intros clock answers. destruct user as [p|u]; [|done].
    rewrite submit_answers_store. by apply references_ok_loop; [apply Hu|].
  - intros now question_id answer. unfold submit_answer.
    destruct (first _ (questions db)) as [q|] eqn:E; [|done].
    assert (question_exists db question_id) as Hq by (apply first_question; eauto).
    destruct user as [p|u]; [|done].
    destruct (first _ (user_answers db)) as [a0|].
    + cbn [snd]. by apply references_ok_update_answer.
    + rewrite add_answer_eq. cbn [snd].
      by apply (references_ok_add_answer question_id (Profile.id p)
                  (AnswerCreate.answer answer) (AnswerCreate.rating answer) _ db);
        [|apply Hu|].
Qed.

Ltac check_rows :=
  repeat match goal with
         | H : _ ∈ _ :: _ |- _ => apply elem_of_cons in H as [->|H]
         | H : _ ∈ [] |- _ => by apply elem_of_nil in H
         end.

Lemma sample_db_references_ok : references_ok sample_db.
Proof.
  constructor; unfold sample_db, store_with, sample_sections, sample_questions;
    cbn [companies sections questions user_answers users profiles].
  - intros s cid Hs. check_rows; simpl; intros [= <-]; compute_done.
  - intros q sid Hq. check_rows; simpl; intros [= <-]; compute_done.
  - intros a Ha. check_rows; compute_done.
  - intros a Ha. check_rows; compute_done.
  - intros u cid Hu. check_rows; simpl; intros [= <-]; compute_done.
  - intros p cid Hp. check_rows; simpl; try done; intros [= <-]; compute_done.
Qed.

Lemma submission_keeps_references_witness :
  references_ok
    (submit_answers sample_fromisoformat sample_clock sample_batch (IsProfile ann)
       sample_db).2.
Proof.
  destruct (submission_keeps_references sample_fromisoformat (IsProfile ann) sample_db)
    as [Hbatch _].
  - exact sample_db_references_ok.
  - intros p [= <-]. compute_done.
  - apply Hbatch.
Defined.

(** Property X8. Each management handler keeps referential integrity: if every
    foreign key of the store names a stored row (sections, users and profiles to
    companies, questions to sections, answers to questions and profiles), the
    same holds after create_question, update_question, delete_question,
    create_section, update_section_title, delete_section, add_company,
    update_company, delete_company, delete_user, generate_feedback_for_answer
    and signup, whether they succeed or raise. *)
Theorem management_keeps_references db :
  references_ok db →
  (∀ new_id now question,
     references_ok (create_question new_id now question db).2) ∧
  (∀ question_id question_update,
     references_ok (update_question question_id question_update db).2) ∧
  (∀ question_id, references_ok (delete_question question_id db).2) ∧
  (∀ new_id now section, references_ok (create_section new_id now section db).2) ∧
  (∀ section_id section_update,
     references_ok (update_section_title section_id section_update db).2) ∧
  (∀ section_id, references_ok (delete_section section_id db).2) ∧
  (∀ new_id now company_name,
     references_ok (add_company new_id now company_name db).2) ∧
  (∀ company_id company_name,
     references_ok (update_company company_id company_name db).2) ∧
  (∀ company_id, references_ok (delete_company company_id db).2) ∧
  (∀ parse_uuid user_id, references_ok (delete_user parse_uuid user_id db).2) ∧
  (∀ chat_completion answer_id,
     references_ok (generate_feedback_for_answer chat_completion answer_id db).2) ∧
  (∀ profile_id now user, references_ok (signup profile_id now user db).2).
Proof.
  intros Hok. split_and!; intros.
  - by apply references_ok_create_question.
  - by apply references_ok_update_question.
  - by apply references_ok_delete_question.
  - by apply references_ok_create_section.
  - by apply references_ok_update_section_title.
  - by apply references_ok_delete_section.
  - by apply references_ok_add_company.
  - by apply references_ok_update_company.
  - by apply references_ok_delete_company.
  - by apply references_ok_delete_user.
  - by apply references_ok_generate_feedback_for_answer.
  - by apply references_ok_signup.
Qed.

Lemma management_keeps_references_witness :
  references_ok (delete_section 10 sample_db).2 ∧
  references_ok (delete_company 1 sample_db).2.
Proof.
  destruct (management_keeps_references sample_db sample_db_references_ok)
    as (_ & _ & _ & _ & _ & Hsection & _ & _ & Hcompany & _).
  split; [apply Hsection|apply Hcompany].
Defined.

(** ** Creating questions and sections *)

Lemma filter_ext_elem {A} (P Q : A → Prop) `{!∀ x, Decision (P x)}
  `{!∀ x, Decision (Q x)} (l : list A) :
  (∀ x, x ∈ l → P x ↔ Q x) → filter P l = filter Q l.
Proof.
  intros Hext. induction l as [|x l IH]; [done|].
  rewrite !filter_cons, IH by (intros y Hy; apply Hext; by right).
  assert (P x ↔ Q x) as Hx by (apply Hext; by left).
  destruct (decide (P x)), (decide (Q x)); tauto.
Qed.

Lemma every_question_complete_unanswered user_answers questions q :
  first (λ a, UserAnswer.question_id a = Question.id q) user_answers = None →
  every_question_complete user_answers (questions ++ [q]) = false.
Proof.
  intros Hnone. induction questions as [|q' rest IH]; simpl.
  - by rewrite Hnone.
  - clear Hnone. destruct (first _ user_answers) as [a|]; [|done].
    destruct (is_complete a); [exact IH|done].
Qed.

Lemma company_questions_create c db q sid :
  Question.section_id q = Some sid →
  (∃ s, s ∈ sections db ∧ Section_.id s = sid ∧ visible_to (Some c) s) →
  company_questions c
    (mk_db (companies db) (sections db) (questions db ++ [q]) (user_answers db)
       (users db) (profiles db) (user_answers_id_seq db))
  = company_questions c db ++ [q].
Proof.
  intros Hsid (s & Hs & Hid & Hv). unfold company_questions, company_sections.
  cbn [sections questions].
  assert (sid ∈ (Section_.id <$> filter (company_or_global c) (sections db))) as Hin.
  { apply list_elem_of_fmap. exists s. split; [done|].
    apply list_elem_of_filter. split; [|done]. exact Hv. }
  destruct (Section_.id <$> filter (company_or_global c) (sections db)) as [|i ids];
    [by apply elem_of_nil in Hin|].
  rewrite filter_app. f_equal. rewrite filter_cons_True; [done|].
  unfold section_id_in. by rewrite Hsid.
Qed.

(** Property X9. Creating a question in a section that a stored company sees (a
    section of the company or a global one), under an id that no stored answer
    refers to, succeeds; in get_users_by_company every profile of that company
    then has total_questions one higher, the same answered_count, and
    completely_answered = false. *)
Theorem create_question_reopens_completion new_id now question sid company_id db :
  QuestionCreate.section_id question = Some sid →
  (∃ s, s ∈ sections db ∧ Section_.id s = sid ∧ visible_to (Some company_id) s) →
  (∀ a, a ∈ user_answers db → UserAnswer.question_id a ≠ new_id) →
  company_id ∈ (Company.id <$> companies db) →
  ∃ db' before after,
    create_question new_id now question db
    = (Return ("Question created successfully!", new_id), db') ∧
    get_users_by_company company_id db = Return before ∧
    get_users_by_company company_id db' = Return after ∧
    Forall2 (λ b a,
               us_user_id a = us_user_id b ∧
               us_total_questions a = S (us_total_questions b) ∧
               us_answered_count a = us_answered_count b ∧
               us_completely_answered a = false)
      (ubc_users before) (ubc_users after).
Proof.
  intros Hsid Hvisible Hfresh Hcompany.
  apply (first_by_key Company.id) in Hcompany as [company E].
  unfold create_question, get_users_by_company. rewrite Hsid.
  assert (sid ∈ (Section_.id <$> sections db)) as Hin.
  { destruct Hvisible as (s & Hs & <- & _). by apply list_elem_of_fmap_2. }
  rewrite decide_True by done. cbn [companies profiles]. rewrite E.
  eexists _, _, _. split; [reflexivity|]. split; [reflexivity|].
  cbn [companies profiles]. rewrite E. split; [reflexivity|].
  cbn [ubc_users].
  set (q := Question.mk new_id _ _ _ _ _ _ _).
  rewrite (company_questions_create company_id db q sid) by done.
  apply Forall2_fmap, Forall_Forall2_diag, Forall_forall. intros p _.
  unfold user_status, answers_of_user. cbn [user_answers].
  cbn [us_user_id us_total_questions us_answered_count us_completely_answered].
  fold (answers_of_user (Profile.id p) db).
  split; [done|]. split; [rewrite length_app; simpl; lia|]. split.
  - f_equal. apply filter_ext_elem. intros qid Hqid.
    rewrite fmap_app, elem_of_app. split; [|tauto]. intros [?|Hnew]; [done|].
    exfalso. apply list_elem_of_singleton in Hnew. subst qid.
    apply elem_of_elements in Hqid. unfold answered_question_ids in Hqid.
    apply elem_of_list_to_set in Hqid.
    apply list_elem_of_fmap in Hqid as (a & Hq & Ha).
    apply list_elem_of_filter in Ha as [_ Ha]. by apply (Hfresh a Ha).
  - apply andb_false_iff. left.
    rewrite bool_decide_eq_true_2 by (rewrite length_app; simpl; lia).
    apply every_question_complete_unanswered. apply first_None.
    intros a [_ Ha]%list_elem_of_filter. by apply Hfresh.
Qed.

Lemma create_question_reopens_completion_witness :
  ∃ db' after,
    create_question 4 (sample_clock 0)
      (QuestionCreate.mk None "Why?" (Some 10) None None None None None) complete_db
    = (Return ("Question created successfully!", 4), db') ∧
    get_users_by_company 1 db' = Return after ∧
    us_completely_answered <$> ubc_users after = [false].
Proof.
  destruct (create_question_reopens_completion 4 (sample_clock 0)
              (QuestionCreate.mk None "Why?" (Some 10) None None None None None)
              10 1 complete_db)
    as (db' & before & after & Hrun & _ & Hafter & _).
  - reflexivity.
  - exists (Section_.mk 10 (Some "A") (Some "General") None None). compute_done.
  - intros a Ha. unfold complete_db, store_with in Ha. cbn [user_answers] in Ha.
    check_rows; compute_done.
  - compute_done.
  - exists db', after. split; [exact Hrun|]. split; [exact Hafter|].
    injection Hrun as <-. injection Hafter as <-. vm_compute. reflexivity.
Defined.

Section CreateSection.
Variable order_by_label : list Section_.t → list Section_.t.
Hypothesis order_by_label_perm : ∀ l, order_by_label l ≡ₚ l.

(** Property X10. create_section with no company or a stored company succeeds;
    if no question refers to the new id, get_question afterwards lists for each
    user the sections it listed before plus the new one exactly when the user
    has no company, the section has none, or the two companies are the same; the
    questions listed for a user do not change. *)
Theorem create_section_visibility new_id now section db :
  (∀ q, q ∈ questions db → Question.section_id q ≠ Some new_id) →
  (∀ cid, SectionCreate.company_id section = Some cid →
          cid ∈ (Company.id <$> companies db)) →
  ∃ db',
    create_section new_id now section db
    = (Return ("Section created successfully", new_id), db') ∧
    (∀ user sid,
       sid ∈ listed_section_ids (returned (get_question order_by_label user db')) ↔
       sid ∈ listed_section_ids (returned (get_question order_by_label user db)) ∨
       (sid = new_id ∧
        (company_id_of user = None ∨ SectionCreate.company_id section = None ∨
         SectionCreate.company_id section = company_id_of user))) ∧
    (∀ user qid,
       qid ∈ listed_question_ids (returned (get_question order_by_label user db')) ↔
       qid ∈ listed_question_ids (returned (get_question order_by_label user db))).
Proof.
  intros Hfresh Hcompany. unfold create_section.
  assert (match SectionCreate.company_id section with
          | Some cid =>
              bool_decide (is_Some (first (λ c, Company.id c = cid) (companies db)))
          | None => true
          end = true) as ->.
  { destruct (SectionCreate.company_id section) as [cid|]; [|done].
    apply bool_decide_eq_true, first_by_key. by apply Hcompany. }
  eexists. split; [reflexivity|].
  set (new := Section_.mk new_id _ _ _ _).
  split.
  - intros user sid.
    rewrite !(listed_section_ids_elem order_by_label order_by_label_perm).
    cbn [sections]. split.
    + intros (s & [Hs| ->%list_elem_of_singleton]%elem_of_app & <- & Hv);
        [left; eauto|].
      right. split; [done|]. unfold visible_to in Hv.
      destruct (company_id_of user) as [c|]; [|by left]. simpl in Hv.
      destruct Hv as [->| ->]; auto.
    + intros [(s & Hs & <- & Hv)|[-> Hv]].
      * exists s. split_and!; [|done..]. apply elem_of_app. by left.
      * exists new. split_and!; [|done|].
        -- apply elem_of_app. right. by apply list_elem_of_singleton.
        -- unfold visible_to. destruct (company_id_of user) as [c|]; [|done].
           simpl. destruct Hv as [?|[->| ->]]; auto. done.
  - intros user qid.
    rewrite !(listed_question_ids_elem order_by_label order_by_label_perm).
    cbn [sections questions]. split.
    + intros (q & s & Hq & [Hs| ->%list_elem_of_singleton]%elem_of_app
              & Hid & Hsid & Hv).
      * exists q, s. split_and!; done.
      * by destruct (Hfresh q Hq).
    + intros (q & s & Hq & Hs & Hid & Hsid & Hv).
      exists q, s. split_and!; try done. apply elem_of_app. by left.
Qed.

End CreateSection.

Lemma create_section_visibility_witness :
  ∃ db',
    create_section 12 (sample_clock 0) (SectionCreate.mk "C" "Globex only" (Some 2))
      sample_db
    = (Return ("Section created successfully", 12), db') ∧
    listed_section_ids (returned (get_question id (IsProfile bob) db')) = [10; 12] ∧
    listed_section_ids (returned (get_question id (IsProfile ann) db')) = [10; 11].
Proof.
  destruct (create_section_visibility id (λ l, reflexivity l) 12 (sample_clock 0)
              (SectionCreate.mk "C" "Globex only" (Some 2)) sample_db)
    as (db' & Hrun & _).
  - intros q Hq. unfold sample_db, store_with, sample_questions in Hq.
    cbn [questions] in Hq. check_rows; compute_done.
  - intros cid [= <-]. compute_done.
  - exists db'. split; [exact Hrun|]. injection Hrun as <-. split; reflexivity.
Defined.

(** ** Partial updates *)

Lemma fmap_id_ext {A} (f : A → A) (l : list A) : (∀ x, f x = x) → f <$> l = l.
Proof.
  intros Hf. induction l as [|x l IH]; [done|]. by rewrite fmap_cons, Hf, IH.
Qed.

Lemma db_eta db :
  mk_db (companies db) (sections db) (questions db) (user_answers db) (users db)
    (profiles db) (user_answers_id_seq db) = db.
Proof. by destruct db. Qed.

(** Property X11. update_section_title answers 404 "Section not found" for an
    unknown section and 404 "Company not found" for an unknown company, in both
    cases without any change (although title and label were assigned before the
    company is checked); on success it keeps id and created_at of every section,
    leaves the sections with another id untouched, keeps label or title when the
    request omits it, never turns a section of a company into a global one, and
    a request without any field leaves the store as it was. *)
Theorem update_section_title_partial section_id section_update db :
  (section_id ∉ (Section_.id <$> sections db) →
   update_section_title section_id section_update db
   = (HTTPException 404 "Section not found", db)) ∧
  (section_id ∈ (Section_.id <$> sections db) →
   (∀ cid, SectionUpdate.company_id section_update = Some cid →
           cid ∉ (Company.id <$> companies db) →
           update_section_title section_id section_update db
           = (HTTPException 404 "Company not found", db)) ∧
   ((∀ cid, SectionUpdate.company_id section_update = Some cid →
            cid ∈ (Company.id <$> companies db)) →
    ∃ summary db',
      update_section_title section_id section_update db
      = (Return ("Section updated successfully", summary), db') ∧
      ss_id summary = section_id ∧
      Forall2 (λ s s',
                 Section_.id s' = Section_.id s ∧
                 Section_.created_at s' = Section_.created_at s ∧
                 (Section_.id s ≠ section_id → s' = s) ∧
                 (SectionUpdate.label section_update = None →
                  Section_.label s' = Section_.label s) ∧
                 (SectionUpdate.title section_update = None →
                  Section_.title s' = Section_.title s) ∧
                 (is_Some (Section_.company_id s) → is_Some (Section_.company_id s')))
        (sections db) (sections db') ∧
      (section_update = SectionUpdate.mk None None None → db' = db) ∧
      companies db' = companies db ∧ questions db' = questions db ∧
      user_answers db' = user_answers db ∧ users db' = users db ∧
      profiles db' = profiles db)).
Proof.
  unfold update_section_title. split.
  - intros Hno. destruct (first _ (sections db)) as [s|] eqn:E; [|done].
    exfalso. apply Hno, first_by_key. by rewrite E.
  - intros Hin. apply (first_by_key Section_.id) in Hin as [section E].
    rewrite E. apply first_Some in E as [Hsec Hid]. split.
    + intros cid Hcid Hno. rewrite Hcid.
      rewrite bool_decide_eq_false_2; [done|].
      intros Hsome. by apply (first_by_key Company.id) in Hsome.
    + intros Hcompany.
      assert (match SectionUpdate.company_id section_update with
              | Some cid =>
                  bool_decide
                    (is_Some (first (λ c, Company.id c = cid) (companies db)))
              | None => true
              end = true) as ->.
      { destruct (SectionUpdate.company_id section_update) as [cid|]; [|done].
        apply bool_decide_eq_true, first_by_key. by apply Hcompany. }
      eexists _, _. split; [reflexivity|]. cbn [ss_id sections]. rewrite Hid.
      split_and!; try done.
      * apply Forall2_fmap_r, Forall_Forall2_diag, Forall_forall. intros s _.
        cbv beta delta [compose rewrite_section]. case_decide as Hd; [|done].
        split_and!; try done; simpl.
        -- by intros ->.
        -- by intros ->.
        -- destruct (SectionUpdate.company_id section_update); eauto.
      * intros ->. rewrite fmap_id_ext; [apply db_eta|].
        intros s. unfold rewrite_section. case_decide; [|done]. by destruct s.
Qed.

Lemma update_section_title_partial_witness :
  ∃ summary db',
    update_section_title 11 (SectionUpdate.mk None (Some "Acme") None) sample_db
    = (Return ("Section updated successfully", summary), db') ∧
    ss_title summary = Some "Acme" ∧ ss_label summary = Some "B" ∧
    Section_.company_id <$> sections db' = [None; Some 1].
Proof.
  destruct (update_section_title_partial 11 (SectionUpdate.mk None (Some "Acme") None)
              sample_db) as [_ Hfound].
  destruct Hfound as [_ Hvalid]; [compute_done|].
  destruct Hvalid as (summary & db' & Hrun & _); [done|].
  exists summary, db'. split; [exact Hrun|]. injection Hrun as <- <-.
  repeat split.
Defined.

(** Property X12. update_question answers 404 "Question not found" or 404
    "Section not found" without any change; on success it keeps id, subject and
    created_at of every question, leaves the questions with another id
    untouched, keeps text, section and show_rating_scale when the request omits
    them, keeps rating_3_text when the request has no positive_rating_text and
    no non-empty rating_3_text, and a request without any field leaves the store
    as it was. *)
Theorem update_question_partial question_id question_update db :
  (¬ question_exists db question_id →
   update_question question_id question_update db
   = (HTTPException 404 "Question not found", db)) ∧
  (question_exists db question_id →
   (∀ sid, QuestionUpdate.section_id question_update = Some sid →
           sid ∉ (Section_.id <$> sections db) →
           update_question question_id question_update db
           = (HTTPException 404 "Section not found", db)) ∧
   ((∀ sid, QuestionUpdate.section_id question_update = Some sid →
            sid ∈ (Section_.id <$> sections db)) →
    ∃ db',
      update_question question_id question_update db
      = (Return ("Question updated successfully", question_id), db') ∧
      Forall2 (λ q q',
                 Question.id q' = Question.id q ∧
                 Question.subject q' = Question.subject q ∧
                 Question.created_at q' = Question.created_at q ∧
                 (Question.id q ≠ question_id → q' = q) ∧
                 (QuestionUpdate.question question_update = None →
                  Question.question q' = Question.question q) ∧
                 (QuestionUpdate.section_id question_update = None →
                  Question.section_id q' = Question.section_id q) ∧
                 (QuestionUpdate.show_rating_scale question_update = None →
                  Question.show_rating_scale q' = Question.show_rating_scale q) ∧
                 (truthy_str (QuestionUpdate.rating_3_text question_update) = false →
                  QuestionUpdate.positive_rating_text question_update = None →
                  Question.rating_3_text q' = Question.rating_3_text q))
        (questions db) (questions db') ∧
      (question_update = QuestionUpdate.mk None None None None None None None →
       db' = db) ∧
      companies db' = companies db ∧ sections db' = sections db ∧
      user_answers db' = user_answers db ∧ users db' = users db ∧
      profiles db' = profiles db)).
Proof.
  unfold update_question. split.
  - intros Hno. destruct (first _ (questions db)) as [q|] eqn:E; [|done].
    exfalso. apply Hno, first_question. by rewrite E.
  - intros Hin. apply first_question in Hin as [question E].
    rewrite E. apply first_Some in E as [Hq Hid]. split.
    + intros sid Hsid Hno. rewrite Hsid.
      rewrite bool_decide_eq_false_2; [done|].
      intros Hsome. by apply (first_by_key Section_.id) in Hsome.
    + intros Hsection.
      assert (match QuestionUpdate.section_id question_update with
              | Some sid =>
                  bool_decide
                    (is_Some (first (λ s, Section_.id s = sid) (sections db)))
              | None => true
              end = true) as ->.
      { destruct (QuestionUpdate.section_id question_update) as [sid|]; [|done].
        apply bool_decide_eq_true, first_by_key. by apply Hsection. }
      eexists. rewrite Hid. split; [reflexivity|]. cbn [questions].
      split_and!; try done.
      * apply Forall2_fmap_r, Forall_Forall2_diag, Forall_forall. intros q _.
        cbv beta delta [compose rewrite_question]. case_decide as Hd; [|done].
        split_and!; try done; simpl.
        -- by intros ->.
        -- by intros ->.
        -- by intros ->.
        -- unfold or_else. by intros -> ->.
      * intros ->. rewrite fmap_id_ext; [apply db_eta|].
        intros q. unfold rewrite_question. case_decide; [|done]. by destruct q.
Qed.

Lemma update_question_partial_witness :
  ∃ db',
    update_question 3
      (QuestionUpdate.mk None (Some 10) (Some "") None (Some "agree") None None)
      sample_db
    = (Return ("Question updated successfully", 3), db') ∧
    Question.section_id <$> questions db' = [Some 10; Some 10; Some 10] ∧
    Question.rating_3_text <$> questions db' = [None; None; Some "agree"].
Proof.
  destruct (update_question_partial 3
              (QuestionUpdate.mk None (Some 10) (Some "") None (Some "agree") None None)
              sample_db) as [_ Hfound].
  destruct Hfound as [_ Hvalid]; [compute_done|].
  destruct Hvalid as (db' & Hrun & _).
  - intros sid [= <-]. compute_done.
  - exists db'. split; [exact Hrun|]. injection Hrun as <-. repeat split.
Defined.

(** ** Accounts *)

Lemma first_unique {A K} `{EqDecision K} (key : A → K) (l : list A) x :
  NoDup (key <$> l) → x ∈ l → first (λ y, key y = key x) l = Some x.
Proof.
  intros Hnd Hx. destruct (first _ l) as [y|] eqn:E.
  - apply first_Some in E as [Hy Hk]. f_equal. by apply (NoDup_fmap_eq key l).
  - rewrite first_None in E. by destruct (E x Hx).
Qed.

Lemma first_app_new {A} (P : A → Prop) `{!∀ x, Decision (P x)} (l : list A) x :
  first P l = None → P x → first P (l ++ [x]) = Some x.
Proof.
  unfold first. intros Hnone HP. rewrite filter_app.
  apply head_None in Hnone. rewrite Hnone. simpl.
  by rewrite filter_cons_True.
Qed.

Lemma first_app_old {A} (P : A → Prop) `{!∀ x, Decision (P x)} (l k : list A) x :
  first P l = Some x → first P (l ++ k) = Some x.
Proof.
  unfold first. intros Hsome. rewrite filter_app.
  destruct (filter P l); [done|]. done.
Qed.

Section Accounts.
Variable verify_password : string → string → bool.
Variable create_access_token : token_data → string.
Variable decode_token : string → option string.

(** Property X13. login returns a bearer token for every e-mail that a stored
    profile carries, whatever the password; for an e-mail that no profile
    carries it answers 401 "Invalid email or password" when no user carries it
    either, and otherwise (user e-mails being distinct) returns a token for that
    e-mail exactly when verify_password accepts the password against the hash of
    the user. *)
Theorem login_outcomes email password db :
  (email ∈ (Profile.email <$> profiles db) →
   ∃ body,
     login verify_password create_access_token (UserLogin.mk email password) db
     = Return body ∧ token_type body = "bearer") ∧
  (email ∉ (Profile.email <$> profiles db) →
   (email ∉ (User.email <$> users db) →
    login verify_password create_access_token (UserLogin.mk email password) db
    = HTTPException 401 "Invalid email or password") ∧
   (∀ u, NoDup (User.email <$> users db) → u ∈ users db → User.email u = email →
         login verify_password create_access_token (UserLogin.mk email password) db
         = if verify_password password (User.hashed_password u)
           then Return (mk_token_body
                          (create_access_token (mk_token_data email None)) "bearer")
           else HTTPException 401 "Invalid email or password")).
Proof.
  unfold login. cbn [UserLogin.email UserLogin.password]. split.
  - intros Hin. apply (first_by_key Profile.email) in Hin as [p E]. rewrite E.
    destruct (first _ (users db)) as [u|]; [|eauto].
    destruct (verify_password _ _); eauto.
  - intros Hno.
    assert (first (λ p, Profile.email p = email) (profiles db) = None) as ->.
    { destruct (first _ (profiles db)) eqn:E; [|done].
      exfalso. apply Hno, first_by_key. by rewrite E. }
    split.
    + intros Hnou. destruct (first _ (users db)) eqn:E; [|done].
      exfalso. apply Hnou, first_by_key. by rewrite E.
    + intros u Hnd Hu <-. rewrite (first_unique User.email) by done.
      by destruct (verify_password _ _).
Qed.

Hypothesis decode_create : ∀ data, decode_token (create_access_token data) = Some (sub data).

(** Property X14. If decode_token gives back the sub that create_access_token
    was given, the token of a successful login always authenticates:
    get_current_user resolves it to the profile with that e-mail when there is
    one (profile e-mails being distinct; also when the password matched a user),
    and otherwise to a stored user with that e-mail whose hash verify_password
    accepted. *)
Theorem login_token_resolves email password db body :
  login verify_password create_access_token (UserLogin.mk email password) db
  = Return body →
  (∀ p, NoDup (Profile.email <$> profiles db) → p ∈ profiles db →
        Profile.email p = email →
        get_current_user decode_token (access_token body) db = Return (IsProfile p)) ∧
  (email ∉ (Profile.email <$> profiles db) →
   ∃ u, get_current_user decode_token (access_token body) db = Return (IsUser u) ∧
        u ∈ users db ∧ User.email u = email ∧
        verify_password password (User.hashed_password u) = true).
Proof.
  unfold login, get_current_user. cbn [UserLogin.email UserLogin.password].
  intros Hlogin.
  assert (decode_token (access_token body) = Some email) as ->.
  { destruct (first _ (users db)) as [u|] eqn:Eu.
    - apply first_Some in Eu as [_ Heu].
      destruct (verify_password _ _).
      + injection Hlogin as <-. cbn [access_token].
        rewrite decode_create. cbn [sub]. by rewrite Heu.
      + destruct (first _ (profiles db)) as [p|] eqn:Ep; [|done].
        apply first_Some in Ep as [_ Hep].
        injection Hlogin as <-. cbn [access_token].
        rewrite decode_create. cbn [sub]. by rewrite Hep.
    - destruct (first _ (profiles db)) as [p|] eqn:Ep; [|done].
      apply first_Some in Ep as [_ Hep].
      injection Hlogin as <-. cbn [access_token].
      rewrite decode_create. cbn [sub]. by rewrite Hep. }
  split.
  - intros p Hnd Hp <-. by rewrite (first_unique Profile.email).
  - intros Hno.
    assert (first (λ p, Profile.email p = email) (profiles db) = None) as Ep.
    { destruct (first _ (profiles db)) eqn:E; [|done].
      exfalso. apply Hno, first_by_key. by rewrite E. }
    rewrite Ep in Hlogin |- *.
    destruct (first _ (users db)) as [u|] eqn:Eu; [|done].
    apply first_Some in Eu as [Hu Heu].
    destruct (verify_password _ _) eqn:Hv; [|done]. eauto.
Qed.

(** Property X15. signup answers 400 "Email already registered" for an e-mail a
    profile carries and 404 "Company not found" for an unknown company, both
    without change; otherwise, with a fresh uuid, it appends one profile and
    stores the password nowhere (users and answers unchanged), keeps profile
    e-mails and ids distinct, rejects any later signup with the same e-mail, and
    login with that e-mail and any password returns a token that
    get_current_user resolves to the new profile (decode_token inverting
    create_access_token). *)
Theorem signup_then_login profile_id now user db :
  (UserCreate.email user ∈ (Profile.email <$> profiles db) →
   signup profile_id now user db = (HTTPException 400 "Email already registered", db)) ∧
  (UserCreate.email user ∉ (Profile.email <$> profiles db) →
   (∀ cid, UserCreate.company_id user = Some cid →
           cid ∉ (Company.id <$> companies db) →
           signup profile_id now user db = (HTTPException 404 "Company not found", db)) ∧
   ((∀ cid, UserCreate.company_id user = Some cid →
            cid ∈ (Company.id <$> companies db)) →
    profile_id ∉ (Profile.id <$> profiles db) →
    ∃ db',
      signup profile_id now user db
      = (Return ("User created successfully", profile_id), db') ∧
      profiles db'
      = profiles db ++
        [Profile.mk profile_id (UserCreate.email user) (UserCreate.name user)
           (UserCreate.company_id user) (Some now)] ∧
      users db' = users db ∧ user_answers db' = user_answers db ∧
      (NoDup (Profile.email <$> profiles db) →
       NoDup (Profile.email <$> profiles db')) ∧
      (NoDup (Profile.id <$> profiles db) → NoDup (Profile.id <$> profiles db')) ∧
      (∀ profile_id' now' user',
         UserCreate.email user' = UserCreate.email user →
         signup profile_id' now' user' db'
         = (HTTPException 400 "Email already registered", db')) ∧
      (∀ password,
         ∃ body,
           login verify_password create_access_token
             (UserLogin.mk (UserCreate.email user) password) db'
           = Return body ∧
           get_current_user decode_token (access_token body) db'
           = Return (IsProfile
                       (Profile.mk profile_id (UserCreate.email user)
                          (UserCreate.name user) (UserCreate.company_id user)
                          (Some now)))))).
Proof.
  unfold signup. split.
  - intros Hin. apply (first_by_key Profile.email) in Hin as [p E]. by rewrite E.
  - intros Hno.
    assert (first (λ p, Profile.email p = UserCreate.email user) (profiles db) = None)
      as Ep.
    { destruct (first _ (profiles db)) eqn:E; [|done].
      exfalso. apply Hno, first_by_key. by rewrite E. }
    rewrite Ep. split.
    + intros cid Hcid Hmissing. rewrite Hcid.
      rewrite bool_decide_eq_false_2; [done|].
      intros Hsome. by apply (first_by_key Company.id) in Hsome.
    + intros Hcompany Hfresh.
      assert (match UserCreate.company_id user with
              | Some cid =>
                  bool_decide
                    (is_Some (first (λ c, Company.id c = cid) (companies db)))
              | None => true
              end = true) as ->.
      { destruct (UserCreate.company_id user) as [cid|]; [|done].
        apply bool_decide_eq_true, first_by_key. by apply Hcompany. }
      rewrite decide_False by done.
      eexists. split; [reflexivity|]. cbn [profiles users user_answers].
      set (new := Profile.mk _ _ _ _ _).
      assert (first (λ p, Profile.email p = UserCreate.email user)
                (profiles db ++ [new]) = Some new) as Enew
        by by apply first_app_new.
      split_and!; try done.
      * intros Hnd. rewrite fmap_app. apply NoDup_app. split_and!;
          [done| |apply NoDup_singleton].
        intros e He ->%list_elem_of_singleton. done.
      * intros Hnd. rewrite fmap_app. apply NoDup_app. split_and!;
          [done| |apply NoDup_singleton].
        intros e He ->%list_elem_of_singleton. done.
      * intros profile_id' now' user' Heq. by rewrite Heq, Enew.
      * intros password. unfold login, get_current_user.
        cbn [UserLogin.email UserLogin.password profiles users]. rewrite Enew.
        destruct (first _ (users db)) as [u|] eqn:Eu.
        -- apply first_Some in Eu as [_ Heu].
           destruct (verify_password _ _); eexists; (split; [reflexivity|]);
             cbn [access_token]; rewrite decode_create; cbn [sub];
             rewrite ?Heu; try change (Profile.email new) with (UserCreate.email user);
             by rewrite Enew.
        -- eexists. split; [reflexivity|]. cbn [access_token].
           rewrite decode_create. cbn [sub].
           change (Profile.email new) with (UserCreate.email user). by rewrite Enew.
Qed.

End Accounts.

Lemma login_outcomes_witness :
  login sample_verify_password sample_create_access_token
    (UserLogin.mk "root@example.com" "wrong") sample_db
  = HTTPException 401 "Invalid email or password".
Proof.
  destruct (login_outcomes sample_verify_password sample_create_access_token
              "root@example.com" "wrong" sample_db) as [_ Hno].
  destruct Hno as [_ Huser]; [compute_done|].
  rewrite (Huser (User.mk 5 "root@example.com" "Root" "hash" (Some 1) None));
    [reflexivity|compute_done|compute_done|reflexivity].
Defined.

Lemma login_token_resolves_witness :
  get_current_user sample_decode_token "ann@example.com" sample_db
  = Return (IsProfile ann).
Proof.
  destruct (login_token_resolves sample_verify_password sample_create_access_token
              sample_decode_token (λ _, eq_refl) "ann@example.com" "anything" sample_db
              (mk_token_body "ann@example.com" "bearer") eq_refl) as [Hprofile _].
  apply (Hprofile ann); [compute_done|compute_done|reflexivity].
Defined.

Lemma signup_then_login_witness :
  ∃ db' body,
    signup 10%N (sample_clock 0) (UserCreate.mk "eve@example.com" "Eve" "s3cret" (Some 2))
      sample_db
    = (Return ("User created successfully", 10%N), db') ∧
    login sample_verify_password sample_create_access_token
      (UserLogin.mk "eve@example.com" "not the password") db'
    = Return body ∧
    get_current_user sample_decode_token (access_token body) db'
    = Return (IsProfile
                (Profile.mk 10%N "eve@example.com" "Eve" (Some 2)
                   (Some (sample_clock 0)))).
Proof.
  destruct (signup_then_login sample_verify_password sample_create_access_token
              sample_decode_token (λ _, eq_refl) 10%N (sample_clock 0)
              (UserCreate.mk "eve@example.com" "Eve" "s3cret" (Some 2)) sample_db)
    as [_ Hnew].
  destruct Hnew as [_ Hvalid]; [compute_done|].
  destruct Hvalid as (db' & Hrun & _ & _ & _ & _ & _ & _ & Hlogin).
  - intros cid [= <-]. compute_done.
  - compute_done.
  - destruct (Hlogin "not the password") as (body & Hbody & Hresolves).
    exists db', body. split; [exact Hrun|]. split; [exact Hbody|exact Hresolves].
Defined.

(** ** Password reset *)

Lemma within_expiration now record :
  (now - timestamp record <= OTP_EXPIRATION_SECONDS)%Q →
  (now - timestamp record ?= OTP_EXPIRATION_SECONDS)%Q ≠ Gt.
Proof. intros Hle. by apply Qle_alt. Qed.

Lemma known_email_spec email db :
  known_email email db = true ↔
  email ∈ (Profile.email <$> profiles db) ∨ email ∈ (User.email <$> users db).
Proof.
  unfold known_email.
  rewrite orb_true_iff, !bool_decide_eq_true.
  by rewrite (first_by_key Profile.email), (first_by_key User.email).
Qed.

Section PasswordResetFacts.
Variable smtp_email smtp_password : option string.
Variable smtp_send : otp_mail → option string.
Variable get_password_hash : string → string.

Lemma reset_password_accepts now email code new_password reset_codes db record :
  reset_codes !! email = Some record →
  (now - timestamp record <= OTP_EXPIRATION_SECONDS)%Q →
  otp record = code →
  known_email email db = true →
  ∃ db',
    reset_password get_password_hash now email code new_password reset_codes db
    = (Return "Password reset successfully", delete email reset_codes, db').
Proof.
  intros Hrecord Hle Hcode Hknown. unfold reset_password. rewrite Hrecord.
  apply within_expiration in Hle.
  destruct (_ ?= _)%Q; try done.
  - apply String.eqb_eq in Hcode. rewrite Hcode. simpl.
    destruct (first (λ u, User.email u = email) (users db)) as [user|] eqn:Eu; [eauto|].
    apply known_email_spec in Hknown as [Hp|Hu].
    + apply (first_by_key Profile.email) in Hp as [p Hp]. rewrite Hp. eauto.
    + apply (first_by_key User.email) in Hu as [u Hu]. congruence.
  - apply String.eqb_eq in Hcode. rewrite Hcode. simpl.
    destruct (first (λ u, User.email u = email) (users db)) as [user|] eqn:Eu; [eauto|].
    apply known_email_spec in Hknown as [Hp|Hu].
    + apply (first_by_key Profile.email) in Hp as [p Hp]. rewrite Hp. eauto.
    + apply (first_by_key User.email) in Hu as [u Hu]. congruence.
Qed.

Lemma send_code_outcome subject text failure success otp now email reset_codes db :
  known_email email db = true →
  ∃ mails response,
    send_code smtp_email smtp_password smtp_send subject text failure success
      otp now email reset_codes db
    = ((mails, response), <[email := mk_reset_record (pretty otp) now]> reset_codes) ∧
    (∀ m, m ∈ mails → mail_to m = email) ∧
    ((∃ message, response = Return message) ↔
     ∃ m, mails = [m] ∧ smtp_send m = None).
Proof.
  intros Hknown. unfold send_code. rewrite Hknown.
  destruct (truthy_str smtp_email && truthy_str smtp_password).
  - destruct (smtp_send _) as [e|] eqn:Esend; eexists _, _;
      (split; [reflexivity|]); split.
    + by intros m ->%list_elem_of_singleton.
    + split; [by intros [? ?]|]. intros (m & [= <-] & Hm). congruence.
    + by intros m ->%list_elem_of_singleton.
    + split; [eauto|]. eauto.
  - eexists _, _. split; [reflexivity|]. split.
    + by intros m ?%elem_of_nil.
    + split; [by intros [? ?]|]. by intros (m & ? & _).
Qed.

(** Property X16. reset_password answers 400 "No reset request found" when no
    code is on record for the e-mail; a code older than 300 seconds gives 400
    "Verification code expired" and is discarded, so that every later attempt
    finds no request; within the 300 seconds a wrong code gives 400 "Invalid
    verification code" and the right code for an e-mail without account gives
    404 "User not found", both leaving the recorded code in place; the store
    never changes. *)
Theorem reset_password_rejections now email code new_password reset_codes db :
  (reset_codes !! email = None →
   reset_password get_password_hash now email code new_password reset_codes db
   = (HTTPException 400 "No reset request found", reset_codes, db)) ∧
  (∀ record,
     reset_codes !! email = Some record →
     ((OTP_EXPIRATION_SECONDS < now - timestamp record)%Q →
      reset_password get_password_hash now email code new_password reset_codes db
      = (HTTPException 400 "Verification code expired", delete email reset_codes, db) ∧
      ∀ now' code' new_password',
        reset_password get_password_hash now' email code' new_password'
          (delete email reset_codes) db
        = (HTTPException 400 "No reset request found", delete email reset_codes, db)) ∧
     ((now - timestamp record <= OTP_EXPIRATION_SECONDS)%Q →
      (otp record ≠ code →
       reset_password get_password_hash now email code new_password reset_codes db
       = (HTTPException 400 "Invalid verification code", reset_codes, db)) ∧
      (otp record = code → known_email email db = false →
       reset_password get_password_hash now email code new_password reset_codes db
       = (HTTPException 404 "User not found", reset_codes, db)))).
Proof.
  unfold reset_password. split.
  - by intros ->.
  - intros record ->. split.
    + intros Hlate. apply Qgt_alt in Hlate. rewrite Hlate. split; [done|].
      intros now' code' new_password'. by rewrite lookup_delete_eq.
    + intros Hle. apply within_expiration in Hle.
      assert (∀ A (x y : A),
                match (now - timestamp record ?= OTP_EXPIRATION_SECONDS)%Q with
                | Gt => x | _ => y end = y) as Hcase.
      { intros A x y. by destruct (_ ?= _)%Q. }
      rewrite Hcase. split.
      * intros Hcode. apply String.eqb_neq in Hcode. by rewrite Hcode.
      * intros Hcode Hunknown. apply String.eqb_eq in Hcode. rewrite Hcode. simpl.
        unfold known_email in Hunknown. apply orb_false_iff in Hunknown as [Hp Hu].
        apply bool_decide_eq_false in Hp, Hu.
        destruct (first _ (users db)); [destruct Hu; eauto|].
        destruct (first _ (profiles db)); [destruct Hp; eauto|]. done.
Qed.

(** Property X17. With the recorded code, at most 300 seconds old (exactly 300
    included), and an e-mail that a profile or a user carries, reset_password
    succeeds and discards the code, so that every further reset for the e-mail
    answers 400 "No reset request found"; the store is unchanged when no user
    carries the e-mail, and otherwise (user ids and e-mails being distinct)
    exactly the user with that e-mail gets get_password_hash(new_password); no
    other table changes. *)
Theorem reset_password_one_time now email code new_password reset_codes db record :
  reset_codes !! email = Some record →
  (now - timestamp record <= OTP_EXPIRATION_SECONDS)%Q →
  otp record = code →
  known_email email db = true →
  ∃ db',
    reset_password get_password_hash now email code new_password reset_codes db
    = (Return "Password reset successfully", delete email reset_codes, db') ∧
    (∀ now' code' new_password',
       reset_password get_password_hash now' email code' new_password'
         (delete email reset_codes) db'
       = (HTTPException 400 "No reset request found", delete email reset_codes, db')) ∧
    (email ∉ (User.email <$> users db) → db' = db) ∧
    (NoDup (User.id <$> users db) → NoDup (User.email <$> users db) →
     Forall2 (λ u u',
                u' = if decide (User.email u = email)
                     then user_set_password (get_password_hash new_password) u
                     else u)
       (users db) (users db')) ∧
    companies db' = companies db ∧ sections db' = sections db ∧
    questions db' = questions db ∧ user_answers db' = user_answers db ∧
    profiles db' = profiles db.
Proof.
  intros Hrecord Hle Hcode Hknown. unfold reset_password. rewrite Hrecord.
  apply within_expiration in Hle.
  assert (∀ A (x y : A),
            match (now - timestamp record ?= OTP_EXPIRATION_SECONDS)%Q with
            | Gt => x | _ => y end = y) as Hcase.
  { intros A x y. by destruct (_ ?= _)%Q. }
  rewrite Hcase. apply String.eqb_eq in Hcode. rewrite Hcode. simpl.
  assert (Hagain : ∀ db' now' code' new_password',
    match delete email reset_codes !! email with
    | Some record' =>
        match (now' - timestamp record' ?= OTP_EXPIRATION_SECONDS)%Q with
        | Gt => (HTTPException 400 "Verification code expired",
                 delete email (delete email reset_codes), db')
        | _ =>
            if negb (String.eqb (otp record') code')
            then (HTTPException 400 "Invalid verification code",
                  delete email reset_codes, db')
            else
              match first (λ u, User.email u = email) (users db'),
                    first (λ p, Profile.email p = email) (profiles db') with
              | None, None =>
                  (HTTPException 404 "User not found", delete email reset_codes, db')
              | Some user, _ =>
                  (Return "Password reset successfully",
                   delete email (delete email reset_codes),
                   mk_db (companies db') (sections db') (questions db')
                     (user_answers db')
                     ((λ u, if decide (User.id u = User.id user)
                            then user_set_password (get_password_hash new_password') u
                            else u) <$> users db')
                     (profiles db') (user_answers_id_seq db'))
              | None, Some _ =>
                  (Return "Password reset successfully",
                   delete email (delete email reset_codes), db')
              end
        end
    | None => (HTTPException 400 "No reset request found", delete email reset_codes, db')
    end = (HTTPException 400 "No reset request found", delete email reset_codes, db')).
  { intros. by rewrite lookup_delete_eq. }
  destruct (first (λ u, User.email u = email) (users db)) as [user|] eqn:Eu.
  - apply first_Some in Eu as [Huser Hemail].
    eexists. split; [reflexivity|]. split; [apply Hagain|].
    cbn [companies sections questions user_answers users profiles].
    split_and!; try done.
    + intros Hno. destruct Hno. rewrite <- Hemail. by apply list_elem_of_fmap_2.
    + intros Hids Hemails.
      apply Forall2_fmap_r, Forall_Forall2_diag, Forall_forall. intros u Hu.
      cbv beta delta [compose].
      destruct (decide (User.id u = User.id user)) as [Hid|Hid],
               (decide (User.email u = email)) as [He|He]; try done.
      * destruct He. assert (u = user) as -> by by apply (NoDup_fmap_eq User.id (users db)).
        done.
      * destruct Hid. f_equal.
        apply (NoDup_fmap_eq User.email (users db)); [done..|]. congruence.
  - apply known_email_spec in Hknown as [Hp|Hu].
    2:{ apply (first_by_key User.email) in Hu as [u Hu]. congruence. }
    apply (first_by_key Profile.email) in Hp as [p Hp]. rewrite Hp.
    eexists. split; [reflexivity|]. split; [apply Hagain|].
    split_and!; try done.
    intros _ _. apply Forall_Forall2_diag, Forall_forall. intros u Hu.
    rewrite decide_False; [done|]. intros He.
    rewrite first_None in Eu. by apply (Eu u Hu).
Qed.

(** Property X18. forgot_password and resend_otp answer 404 "User not found" for
    an e-mail without account, recording nothing and sending nothing; for a
    known e-mail they put str(otp) with the current time on record before the
    mail is attempted, so whatever the outcome (SMTP credentials missing, relay
    failure or success) reset_password accepts that code during the next 300
    seconds; every mail handed to the relay is addressed to the e-mail, and the
    response is a success exactly when one mail was handed over and the relay
    took it. *)
Theorem forgot_password_records_code otp now email reset_codes db :
  (known_email email db = false →
   forgot_password smtp_email smtp_password smtp_send otp now email reset_codes db
   = (([], HTTPException 404 "User not found"), reset_codes) ∧
   resend_otp smtp_email smtp_password smtp_send otp now email reset_codes db
   = (([], HTTPException 404 "User not found"), reset_codes)) ∧
  (known_email email db = true →
   ∀ handler,
     handler = forgot_password smtp_email smtp_password smtp_send ∨
     handler = resend_otp smtp_email smtp_password smtp_send →
     ∃ mails response,
       handler otp now email reset_codes db
       = ((mails, response),
          <[email := mk_reset_record (pretty otp) now]> reset_codes) ∧
       (∀ m, m ∈ mails → mail_to m = email) ∧
       ((∃ message, response = Return message) ↔
        ∃ m, mails = [m] ∧ smtp_send m = None) ∧
       ∀ now' new_password,
         (now' - now <= OTP_EXPIRATION_SECONDS)%Q →
         ∃ db',
           reset_password get_password_hash now' email (pretty otp) new_password
             (<[email := mk_reset_record (pretty otp) now]> reset_codes) db
           = (Return "Password reset successfully", delete email reset_codes, db')).
Proof.
  split.
  - intros Hunknown. unfold forgot_password, resend_otp, send_code.
    by rewrite Hunknown.
  - intros Hknown handler Hhandler.
    assert (∃ mails response,
              handler otp now email reset_codes db
              = ((mails, response),
                 <[email := mk_reset_record (pretty otp) now]> reset_codes) ∧
              (∀ m, m ∈ mails → mail_to m = email) ∧
              ((∃ message, response = Return message) ↔
               ∃ m, mails = [m] ∧ smtp_send m = None))
      as (mails & response & Hrun & Hto & Hsent).
    { destruct Hhandler as [-> | ->]; by apply send_code_outcome. }
    exists mails, response. split_and!; try done.
    intros now' new_password Hle.
    destruct (reset_password_accepts now' email (pretty otp) new_password
                (<[email := mk_reset_record (pretty otp) now]> reset_codes) db
                (mk_reset_record (pretty otp) now)) as [db' Hreset]; try done.
    { apply lookup_insert_eq. }
    exists db'. by rewrite Hreset, delete_insert_eq.
Qed.

(** Property X19. After forgot_password with one code and resend_otp with a
    different one for a known e-mail, only the second code is on record, with
    the time of the resend: within 300 seconds of the resend reset_password
    rejects the first code with 400 "Invalid verification code" and accepts the
    second, however long ago the first request was made. *)
Theorem resend_otp_replaces_code otp1 otp2 t1 t2 email reset_codes db :
  known_email email db = true →
  otp1 ≠ otp2 →
  let codes1 :=
    (forgot_password smtp_email smtp_password smtp_send otp1 t1 email reset_codes db).2 in
  let codes2 :=
    (resend_otp smtp_email smtp_password smtp_send otp2 t2 email codes1 db).2 in
  codes2 !! email = Some (mk_reset_record (pretty otp2) t2) ∧
  ∀ now new_password,
    (now - t2 <= OTP_EXPIRATION_SECONDS)%Q →
    reset_password get_password_hash now email (pretty otp1) new_password codes2 db
    = (HTTPException 400 "Invalid verification code", codes2, db) ∧
    ∃ db',
      reset_password get_password_hash now email (pretty otp2) new_password codes2 db
      = (Return "Password reset successfully", delete email reset_codes, db').
Proof.
  intros Hknown Hne codes1 codes2.
  assert (codes1 = <[email := mk_reset_record (pretty otp1) t1]> reset_codes) as H1.
  { unfold codes1, forgot_password.
    destruct (send_code_outcome "Password Reset Code"
                "Your password reset verification code is: " "Failed to send email: "
                "Verification code sent to email." otp1 t1 email reset_codes db Hknown)
      as (mails & response & -> & _). done. }
  assert (codes2 = <[email := mk_reset_record (pretty otp2) t2]> reset_codes) as H2.
  { unfold codes2, resend_otp.
    destruct (send_code_outcome "Resent Password Reset Code"
                "Your new password reset verification code is: "
                "Failed to resend email: " "Verification code resent to email."
                otp2 t2 email codes1 db Hknown)
      as (mails & response & -> & _). cbn [snd]. rewrite H1. apply insert_insert_eq. }
  clearbody codes1 codes2. subst codes1 codes2.
  split; [apply lookup_insert_eq|].
  intros now new_password Hle. split.
  - unfold reset_password. rewrite lookup_insert_eq. cbn [timestamp otp].
    apply Qle_alt in Hle.
    assert (String.eqb (pretty otp2) (pretty otp1) = false) as ->.
    { apply String.eqb_neq. intros Heq. apply Hne. symmetry.
      by apply (inj pretty). }
    cbn [negb]. by destruct (now - t2 ?= OTP_EXPIRATION_SECONDS)%Q eqn:E.
  - destruct (reset_password_accepts now email (pretty otp2) new_password
                (<[email := mk_reset_record (pretty otp2) t2]> reset_codes) db
                (mk_reset_record (pretty otp2) t2)) as [db' Hreset]; try done.
    { apply lookup_insert_eq. }
    exists db'. by rewrite Hreset, delete_insert_eq.
Qed.

End PasswordResetFacts.

Lemma reset_password_rejections_witness :
  reset_password sample_get_password_hash 1301 "root@example.com" "4711" "new"
    sample_reset_codes sample_db
  = (HTTPException 400 "Verification code expired",
     delete "root@example.com" sample_reset_codes, sample_db).
Proof.
  destruct (reset_password_rejections sample_get_password_hash 1301 "root@example.com"
              "4711" "new" sample_reset_codes sample_db) as [_ Hrecord].
  destruct (Hrecord (mk_reset_record "4711" 1000) eq_refl) as [Hexpired _].
  destruct Hexpired as [Hrun _]; [reflexivity|exact Hrun].
Defined.

Lemma reset_password_one_time_witness :
  ∃ db',
    reset_password sample_get_password_hash 1300 "root@example.com" "4711" "new"
      sample_reset_codes sample_db
    = (Return "Password reset successfully",
       delete "root@example.com" sample_reset_codes, db') ∧
    User.hashed_password <$> users db' = ["hash:new"] ∧
    reset_password sample_get_password_hash 1300 "root@example.com" "4711" "new"
      (delete "root@example.com" sample_reset_codes) db'
    = (HTTPException 400 "No reset request found",
       delete "root@example.com" sample_reset_codes, db').
Proof.
  destruct (reset_password_one_time sample_get_password_hash 1300 "root@example.com"
              "4711" "new" sample_reset_codes sample_db (mk_reset_record "4711" 1000))
    as (db' & Hrun & Hagain & _).
  - reflexivity.
  - by vm_compute.
  - reflexivity.
  - reflexivity.
  - exists db'. split; [exact Hrun|]. split; [|apply Hagain].
    injection Hrun as <-. reflexivity.
Defined.

Lemma forgot_password_records_code_witness :
  ∃ db',
    forgot_password None None (λ _, None) 4711 1000 "root@example.com" ∅ sample_db
    = (([], HTTPException 500 "SMTP credentials not configured"),
       sample_reset_codes) ∧
    reset_password sample_get_password_hash 1200 "root@example.com" "4711" "new"
      sample_reset_codes sample_db
    = (Return "Password reset successfully", ∅, db').
Proof.
  destruct (forgot_password_records_code None None (λ _, None)
              sample_get_password_hash 4711 1000 "root@example.com" ∅ sample_db)
    as [_ Hknown].
  destruct (Hknown eq_refl (forgot_password None None (λ _, None)) (or_introl eq_refl))
    as (mails & response & Hrun & _ & _ & Hreset).
  destruct (Hreset 1200%Q "new") as [db' Hdb']; [by vm_compute|].
  exists db'. split; [reflexivity|exact Hdb'].
Defined.

Lemma resend_otp_replaces_code_witness :
  reset_password sample_get_password_hash 1500 "root@example.com" "4711" "new"
    (resend_otp None None (λ _, None) 1234 1400 "root@example.com"
       sample_reset_codes sample_db).2
    sample_db
  = (HTTPException 400 "Invalid verification code",
     (resend_otp None None (λ _, None) 1234 1400 "root@example.com"
        sample_reset_codes sample_db).2,
     sample_db).
Proof.
  destruct (resend_otp_replaces_code None None (λ _, None) sample_get_password_hash
              4711 1234 1000 1400 "root@example.com" ∅ sample_db eq_refl)
    as [_ Hreset]; [done|].
  destruct (Hreset 1500%Q "new") as [Hold _]; [by vm_compute|].
  exact Hold.
Defined.

(** ** What a user reads back *)

Lemma filter_fmap_keep {A} (P : A → Prop) `{!∀ x, Decision (P x)} (g : A → A)
  (l : list A) :
  (∀ a, P (g a) ↔ P a) → filter P (g <$> l) = g <$> filter P l.
Proof.
  intros Hg. induction l as [|a l IH]; [done|].
  rewrite fmap_cons, !filter_cons, IH. specialize (Hg a).
  destruct (decide (P (g a))), (decide (P a)); tauto || done.
Qed.

Lemma filter_fmap_pre {A B} (P : B → Prop) `{!∀ x, Decision (P x)} (g : A → B)
  (l : list A) :
  filter P (g <$> l) = g <$> filter (λ a, P (g a)) l.
Proof.
  induction l as [|a l IH]; [done|].
  rewrite fmap_cons, !filter_cons, IH. by destruct (decide (P (g a))).
Qed.

Lemma filter_rewrite_row_skip (P : UserAnswer.t → Prop) `{!∀ x, Decision (P x)}
  id f (l : list UserAnswer.t) :
  (∀ a, a ∈ l → UserAnswer.id a = id → ¬ P a ∧ ¬ P (f a)) →
  filter P (rewrite_row id f <$> l) = filter P l.
Proof.
  intros Hskip. induction l as [|a l IH]; [done|].
  rewrite fmap_cons, !filter_cons, IH by (intros b Hb; apply Hskip; by right).
  unfold rewrite_row. destruct (decide (UserAnswer.id a = id)) as [Hid|Hid]; [|done].
  destruct (Hskip a) as [Hn Hn']; [by left|done|].
  by rewrite !decide_False.
Qed.

Lemma slot_of_user u q db :
  filter (λ a, UserAnswer.question_id a = q) (answers_of_user u db) = slot u q db.
Proof.
  unfold answers_of_user, slot. rewrite list_filter_filter.
  apply list_filter_iff. intros a. unfold answer_of. tauto.
Qed.

Lemma shown_of_question (q : Z) (l : list UserAnswer.t) :
  filter (λ x : Z * option string * option Z, x.1.1 = q)
    ((λ a, (UserAnswer.question_id a, UserAnswer.answer a, UserAnswer.rating a)) <$> l)
  = (λ a, (UserAnswer.question_id a, UserAnswer.answer a, UserAnswer.rating a))
      <$> filter (λ a, UserAnswer.question_id a = q) l.
Proof. by rewrite filter_fmap_pre. Qed.

(** Property X20. On a well-formed store, submit_answer by a profile for an
    existing question succeeds, and get_user_answers of that profile then holds
    exactly one entry for the question, with the submitted answer and rating;
    its entries for every other question and the whole listing of every other
    profile are unchanged. *)
Theorem get_user_answers_after_submit now question_id answer p db :
  store_ok db →
  question_exists db question_id →
  ∃ body db',
    submit_answer now question_id answer (IsProfile p) db = (Return body, db') ∧
    filter (λ x, x.1.1 = question_id) (returned (get_user_answers (IsProfile p) db'))
    = [(question_id, Some (AnswerCreate.answer answer), AnswerCreate.rating answer)] ∧
    (∀ q', q' ≠ question_id →
       filter (λ x, x.1.1 = q') (returned (get_user_answers (IsProfile p) db'))
       = filter (λ x, x.1.1 = q') (returned (get_user_answers (IsProfile p) db))) ∧
    (∀ p', Profile.id p' ≠ Profile.id p →
       get_user_answers (IsProfile p') db' = get_user_answers (IsProfile p') db).
Proof.
  intros Hok Hq. apply first_question in Hq as [question E].
  unfold submit_answer. rewrite E. unfold get_user_answers, returned.
  set (u := Profile.id p).
  destruct (first (answer_of u question_id) (user_answers db)) as [a0|] eqn:Ea.
  - pose proof (first_filter_cons _ _ _ Ea) as [r Hr].
    assert (a0 ∈ slot u question_id db) as Ha0 by (unfold slot; rewrite Hr; left).
    pose proof Ha0 as [[Hu0 Hq0] Hrow]%slot_elem.
    eexists _, _. split; [reflexivity|]. split_and!.
    + rewrite shown_of_question, slot_of_user, slot_update_same by done.
      simpl. by rewrite Hq0.
    + intros q' Hne. rewrite !shown_of_question, !slot_of_user.
      rewrite (slot_update_other u question_id) by (done || congruence). done.
    + intros p' Hne. do 2 f_equal. unfold answers_of_user.
      rewrite user_answers_update. apply filter_rewrite_row_skip.
      intros a Ha Hid.
      assert (a = a0) as -> by (by apply (NoDup_fmap_eq UserAnswer.id (user_answers db));
                                 [apply Hok|..]).
      simpl. rewrite Hu0. split; congruence.
  - assert (slot u question_id db = []) as Hempty by (by apply head_None in Ea).
    rewrite add_answer_eq. cbn [snd fst].
    set (row := new_row _ _ _ _ _ _).
    set (db' := mk_db _ _ _ _ _ _ _).
    assert (∀ u' q', slot u' q' db'
                     = slot u' q' db ++ filter (answer_of u' q') [row]) as Hslot.
    { intros u' q'. unfold slot, db'. cbn [user_answers]. by rewrite filter_app. }
    eexists _, _. split; [reflexivity|]. split_and!.
    + rewrite shown_of_question, slot_of_user, Hslot, Hempty.
      rewrite filter_cons_True by done. done.
    + intros q' Hne. rewrite !shown_of_question, !slot_of_user, Hslot.
      rewrite filter_cons_False; [by rewrite app_nil_r|].
      intros [_ Hq']. simpl in Hq'. congruence.
    + intros p' Hne. do 2 f_equal. unfold answers_of_user, db'. cbn [user_answers].
      rewrite filter_app, filter_cons_False; [by rewrite app_nil_r|].
      simpl. congruence.
Qed.

Lemma get_user_answers_after_submit_witness :
  ∃ body db',
    submit_answer (sample_clock 0) 1 (AnswerCreate.mk "new" (Some 3)) (IsProfile ann)
      sample_db
    = (Return body, db') ∧
    get_user_answers (IsProfile ann) db' = Return [(1, Some "new", Some 3)].
Proof.
  destruct (get_user_answers_after_submit (sample_clock 0) 1
              (AnswerCreate.mk "new" (Some 3)) ann sample_db)
    as (body & db' & Hrun & _).
  - exact sample_db_ok.
  - compute_done.
  - exists body, db'. split; [exact Hrun|]. injection Hrun as <- <-. reflexivity.
Defined.

(** ** Feedback on one answer *)

Lemma store_ok_update_answer id f db :
  (∀ a, UserAnswer.id (f a) = UserAnswer.id a ∧
        UserAnswer.question_id (f a) = UserAnswer.question_id a ∧
        UserAnswer.user_id (f a) = UserAnswer.user_id a) →
  store_ok db → store_ok (update_answer id f db).
Proof.
  intros Hf [Hnd Hlt Hone].
  assert (Hrow : ∀ a, UserAnswer.id (rewrite_row id f a) = UserAnswer.id a ∧
                      UserAnswer.question_id (rewrite_row id f a)
                      = UserAnswer.question_id a ∧
                      UserAnswer.user_id (rewrite_row id f a) = UserAnswer.user_id a).
  { intros a. unfold rewrite_row. case_decide; [apply Hf|done]. }
  split.
  - rewrite user_answers_update, <- list_fmap_compose.
    erewrite list_fmap_ext; [exact Hnd|]. intros i a _. simpl. apply Hrow.
  - intros a'. rewrite user_answers_update, list_elem_of_fmap.
    intros (a & -> & Ha). simpl. destruct (Hrow a) as [-> _]. auto.
  - intros u q. unfold slot. rewrite user_answers_update, filter_fmap_keep.
    + rewrite length_fmap. apply Hone.
    + intros a. unfold answer_of. destruct (Hrow a) as (_ & -> & ->). done.
Qed.

(** Property X21. With distinct answer ids, generate_feedback_for_answer answers
    404 "Answer not found" without any call or change for an unknown id;
    otherwise it makes exactly one text-generation call: if that fails, its 500
    is the response and the store is unchanged; if it completes, the stripped
    completion is returned and exactly the row with the id gets it as feedback
    with feedback_generated = true, every other field and row staying as it was,
    so that get_user_answers returns what it did and user_answers stays well-
    formed. *)
Theorem generate_feedback_for_answer_effects chat_completion answer_id db :
  NoDup (UserAnswer.id <$> user_answers db) →
  (answer_id ∉ (UserAnswer.id <$> user_answers db) →
   generate_feedback_for_answer chat_completion answer_id db
   = (([], HTTPException 404 "Answer not found"), db)) ∧
  (∀ a, a ∈ user_answers db → UserAnswer.id a = answer_id →
     ∃ prompt,
       (∀ e, chat_completion prompt = Failed e →
          generate_feedback_for_answer chat_completion answer_id db
          = (([TextGeneration prompt],
              HTTPException 500 (String.append "Error generating feedback: " e)),
             db)) ∧
       (∀ content, chat_completion prompt = Completed content →
          ∃ db',
            generate_feedback_for_answer chat_completion answer_id db
            = (([TextGeneration prompt], Return (strip content, answer_id)), db') ∧
            Forall2 (λ b b',
                       UserAnswer.id b' = UserAnswer.id b ∧
                       UserAnswer.question_id b' = UserAnswer.question_id b ∧
                       UserAnswer.user_id b' = UserAnswer.user_id b ∧
                       UserAnswer.answer b' = UserAnswer.answer b ∧
                       UserAnswer.rating b' = UserAnswer.rating b ∧
                       UserAnswer.submitted_at b' = UserAnswer.submitted_at b ∧
                       (UserAnswer.id b ≠ answer_id → b' = b) ∧
                       (UserAnswer.id b = answer_id →
                        UserAnswer.feedback b' = Some (strip content) ∧
                        UserAnswer.feedback_generated b' = true))
              (user_answers db) (user_answers db') ∧
            (store_ok db → store_ok db') ∧
            (∀ user, get_user_answers user db' = get_user_answers user db) ∧
            questions db' = questions db ∧ sections db' = sections db ∧
            companies db' = companies db ∧ users db' = users db ∧
            profiles db' = profiles db)).
Proof.
  intros Hnd. unfold generate_feedback_for_answer. split.
  - intros Hno. destruct (first _ (user_answers db)) as [a|] eqn:E; [|done].
    exfalso. apply Hno, first_by_key. by rewrite E.
  - intros a Ha <-. rewrite (first_unique UserAnswer.id) by done.
    eexists. unfold generate_feedback. split.
    + intros e ->. reflexivity.
    + intros content ->. eexists. split; [reflexivity|].
      set (f := λ b, UserAnswer.mk _ _ _ _ _ _ _ _).
      split_and!; try done.
      * rewrite user_answers_update.
        apply Forall2_fmap_r, Forall_Forall2_diag, Forall_forall. intros b Hb.
        cbv beta delta [compose rewrite_row]. by case_decide.
      * by apply store_ok_update_answer.
      * intros [p|u]; [|done]. unfold get_user_answers. f_equal.
        unfold answers_of_user. rewrite user_answers_update.
        rewrite filter_fmap_keep.
        2:{ intros b. unfold rewrite_row. by case_decide. }
        rewrite <- list_fmap_compose. apply list_fmap_ext. intros _ b _. simpl.
        unfold rewrite_row. by case_decide.
Qed.

Lemma generate_feedback_for_answer_effects_witness :
  generate_feedback_for_answer failing_chat 100 sample_db
  = (([TextGeneration
         (String.append
            "You are a helpful assistant. Provide feedback on the following answer:"
            (String.append nl "Answer: old"))],
      HTTPException 500 "Error generating feedback: unavailable"),
     sample_db) ∧
  ∃ calls db',
    generate_feedback_for_answer padded_chat 100 sample_db
    = ((calls, Return ("ok", 100)), db') ∧
    UserAnswer.feedback <$> user_answers db' = [Some "ok"].
Proof.
  split.
  - destruct (generate_feedback_for_answer_effects failing_chat 100 sample_db)
      as [_ Hfound]; [compute_done|].
    destruct (Hfound
                (UserAnswer.mk 100 1 7%N (Some "old") (Some 2) (Some "well put") true None))
      as (prompt & Hfail & _); [compute_done|reflexivity|].
    rewrite (Hfail "unavailable" eq_refl).
    pose proof (Hfail "unavailable" eq_refl) as Hrun. vm_compute in Hrun.
    by injection Hrun as <-.
  - destruct (generate_feedback_for_answer_effects padded_chat 100 sample_db)
      as [_ Hfound]; [compute_done|].
    destruct (Hfound
                (UserAnswer.mk 100 1 7%N (Some "old") (Some 2) (Some "well put") true None))
      as (prompt & _ & Hdone); [compute_done|reflexivity|].
    destruct (Hdone _ eq_refl) as (db' & Hrun & Hrows & _).
    exists [TextGeneration prompt], db'. split; [exact Hrun|].
    apply Forall2_cons_inv_l in Hrows as (b' & rest & (_ & _ & _ & _ & _ & _ & _ & Hfb) & Hrest & ->).
    apply Forall2_nil_inv_l in Hrest as ->.
    destruct (Hfb eq_refl) as [Hf _]. rewrite fmap_cons, Hf. reflexivity.
Defined.

(** ** The listing of a user *)

Lemma foldl_insert_lookup (l : list UserAnswer.t) : ∀ (m : gmap Z UserAnswer.t) q,
  foldl (λ m a, <[UserAnswer.question_id a := a]> m) m l !! q
  = match last (filter (λ a, UserAnswer.question_id a = q) l) with
    | Some a => Some a
    | None => m !! q
    end.
Proof.
  induction l as [|a l IH]; intros m q; [done|].
  cbn [foldl]. rewrite IH, filter_cons.
  destruct (decide (UserAnswer.question_id a = q)) as [Hq|Hq].
  - rewrite last_cons. destruct (last (filter _ l)); [done|].
    by rewrite Hq, lookup_insert_eq.
  - destruct (last (filter _ l)); [done|]. by rewrite lookup_insert_ne.
Qed.

Lemma answers_by_question_lookup l q :
  answers_by_question l !! q = last (filter (λ a, UserAnswer.question_id a = q) l).
Proof.
  unfold answers_by_question. rewrite foldl_insert_lookup.
  by destruct (last _).
Qed.

(** Property X22. In the listing of get_question every question shows, for a
    profile, the answer and rating of the stored row of that profile for the
    question (the last such row; on a well-formed store the one row) and null
    when there is none, never the row of another user; for a User account it
    shows null. *)
Theorem get_question_shows_own_answers order_by_label user db sd qd :
  sd ∈ returned (get_question order_by_label user db) →
  qd ∈ sd_questions sd →
  match user with
  | IsProfile p =>
      let own := last (slot (Profile.id p) (qd_question_id qd) db) in
      qd_answer qd = own ≫= UserAnswer.answer ∧
      qd_rating qd = own ≫= UserAnswer.rating ∧
      (store_ok db →
       ∀ a, a ∈ user_answers db → UserAnswer.user_id a = Profile.id p →
            UserAnswer.question_id a = qd_question_id qd →
            qd_answer qd = UserAnswer.answer a ∧ qd_rating qd = UserAnswer.rating a)
  | IsUser _ => qd_answer qd = None ∧ qd_rating qd = None
  end.
Proof.
  unfold get_question, returned. intros Hsd Hqd.
  apply list_elem_of_fmap in Hsd as (s & -> & _).
  unfold section_data in Hqd. cbn [sd_questions] in Hqd.
  apply list_elem_of_fmap in Hqd as (q & -> & Hq).
  cbn [qd_question_id qd_answer qd_rating].
  destruct user as [p|u]; [|by rewrite lookup_empty].
  rewrite answers_by_question_lookup, list_filter_filter.
  assert (filter (λ a, UserAnswer.question_id a = Question.id q ∧
                       UserAnswer.user_id a = Profile.id p ∧
                       UserAnswer.question_id a
                       ∈ (Question.id <$>
                            filter (λ q, Question.section_id q = Some (Section_.id s))
                              (questions db)))
            (user_answers db)
          = slot (Profile.id p) (Question.id q) db) as ->.
  { unfold slot. apply list_filter_iff. intros a. unfold answer_of. split.
    - tauto.
    - intros [Hu Hqa]. split_and!; [done..|]. rewrite Hqa.
      by apply list_elem_of_fmap_2. }
  cbv zeta. split_and!; [done..|].
  intros Hok a Ha Hu Hqa.
  assert (a ∈ slot (Profile.id p) (Question.id q) db) as Hslot
    by (by apply slot_elem).
  by rewrite (slot_singleton _ _ _ _ Hok Hslot).
Qed.

Lemma get_question_shows_own_answers_witness :
  ∃ sd qd,
    sd ∈ returned (get_question id (IsProfile ann) sample_db) ∧
    qd ∈ sd_questions sd ∧ qd_question_id qd = 1 ∧
    qd_answer qd = Some "old" ∧ qd_rating qd = Some 2.
Proof.
  set (sd := section_data (IsProfile ann) sample_db
               (Section_.mk 10 (Some "A") (Some "General") None None)).
  set (qd := mk_question_data 1 "How was it?" "" "" true (Some "old") (Some 2)).
  assert (sd ∈ returned (get_question id (IsProfile ann) sample_db)) as Hsd
    by (vm_compute; left).
  assert (qd ∈ sd_questions sd) as Hqd by (vm_compute; left).
  exists sd, qd. split; [exact Hsd|]. split; [exact Hqd|]. split; [reflexivity|].
  destruct (get_question_shows_own_answers id (IsProfile ann) sample_db sd qd Hsd Hqd)
    as (_ & _ & Hrow).
  apply (Hrow sample_db_ok
           (UserAnswer.mk 100 1 7%N (Some "old") (Some 2) (Some "well put") true None));
    [compute_done|reflexivity|reflexivity].
Defined.

(** ** The listing of a company *)

Lemma avg_rating_is_Some ratings : is_Some (avg_rating ratings).
Proof.
  unfold avg_rating. destruct ratings as [|r ratings]; [eauto|].
  rewrite mean_Some by done. simpl. eauto.
Qed.

Lemma std_dev_is_Some ratings : is_Some (std_dev ratings).
Proof.
  unfold std_dev. case_bool_decide as Hlen; [|eauto].
  unfold stdev. rewrite variance_Some by lia. simpl. eauto.
Qed.

Lemma question_report_is_Some db q :
  ∃ qr, question_report db q = Some qr ∧
        qr_question_id qr = Question.id q ∧
        qr_answers qr = answer_data db <$> answers_to db q.
Proof.
  unfold question_report.
  destruct (avg_rating_is_Some (ratings_of (answers_to db q))) as [avg ->].
  destruct (std_dev_is_Some (ratings_of (answers_to db q))) as [sd ->].
  simpl. eauto.
Qed.

Lemma omap_question_report db qs :
  Forall2 (λ q qr, question_report db q = Some qr) qs (omap (question_report db) qs).
Proof.
  induction qs as [|q qs IH]; [constructor|].
  destruct (question_report_is_Some db q) as (qr & Hqr & _).
  simpl. rewrite Hqr. by constructor.
Qed.

Section CompanyListing.
Variable order_by_label : list Section_.t → list Section_.t.
Hypothesis order_by_label_perm : ∀ l, order_by_label l ≡ₚ l.

(** Property X23. get_questions_by_company answers 404 "Company not found" for
    an unknown company; otherwise it lists exactly the sections whose company_id
    is the company (no global section), each with all its questions in stored
    order (the statistics never raise, so no question is skipped) and each
    question with all its stored answers. Every listed question is among those
    get_users_by_company counts for the company, but the questions of global
    sections, which are counted there, are never listed (section ids being
    distinct). *)
Theorem get_questions_by_company_lists company_id db :
  (company_id ∉ (Company.id <$> companies db) →
   get_questions_by_company order_by_label company_id db
   = HTTPException 404 "Company not found") ∧
  (company_id ∈ (Company.id <$> companies db) →
   ∃ body,
     get_questions_by_company order_by_label company_id db = Return body ∧
     sr_section_id <$> body
     ≡ₚ Section_.id
          <$> filter (λ s, Section_.company_id s = Some company_id) (sections db) ∧
     (∀ sr, sr ∈ body →
        sr_company_id sr = Some company_id ∧
        qr_question_id <$> sr_questions sr
        = Question.id
            <$> filter (λ q, Question.section_id q = Some (sr_section_id sr))
                  (questions db) ∧
        ∀ qr, qr ∈ sr_questions sr →
              qr_question_id qr ∈ (Question.id <$> company_questions company_id db) ∧
              ad_answer_id <$> qr_answers qr
              = UserAnswer.id
                  <$> filter (λ a, UserAnswer.question_id a = qr_question_id qr)
                        (user_answers db)) ∧
     (∀ q s, q ∈ questions db → s ∈ sections db →
             Question.section_id q = Some (Section_.id s) →
             Section_.company_id s = None →
             q ∈ company_questions company_id db ∧
             (NoDup (Section_.id <$> sections db) →
              Section_.id s ∉ (sr_section_id <$> body)))).
Proof.
  unfold get_questions_by_company. split.
  - intros Hno. destruct (first _ (companies db)) as [c|] eqn:E; [|done].
    exfalso. apply Hno, first_by_key. by rewrite E.
  - intros Hin. apply (first_by_key Company.id) in Hin as [c E]. rewrite E.
    eexists. split; [reflexivity|]. split_and!.
    + rewrite <- list_fmap_compose. simpl.
      change (sr_section_id ∘ _) with Section_.id.
      by rewrite order_by_label_perm.
    + intros sr Hsr. apply list_elem_of_fmap in Hsr as (s & -> & Hs).
      rewrite order_by_label_perm in Hs. apply list_elem_of_filter in Hs as [Hc Hs].
      cbn [sr_company_id sr_questions sr_section_id]. split; [done|].
      set (qs := filter (λ q, Question.section_id q = Some (Section_.id s))
                   (questions db)).
      pose proof (omap_question_report db qs) as Hall.
      split.
      * clear -Hall. induction Hall as [|q qr qs' qrs Hq _ IH]; [done|].
        rewrite !fmap_cons, IH. f_equal.
        destruct (question_report_is_Some db q) as (qr' & Hqr' & Hid & _). congruence.
      * intros qr Hqr.
        assert (∃ q, q ∈ qs ∧ question_report db q = Some qr) as (q & Hq & Hrep).
        { clear -Hall Hqr. induction Hall as [|q qr' qs' qrs Hq _ IH].
          - by apply elem_of_nil in Hqr.
          - apply elem_of_cons in Hqr as [->|Hqr].
            + exists q. split; [left|done].
            + destruct (IH Hqr) as (q0 & ? & ?). exists q0. split; [by right|done]. }
        destruct (question_report_is_Some db q) as (qr' & Hqr' & Hid & Hans).
        assert (qr' = qr) as -> by congruence.
        apply list_elem_of_filter in Hq as [Hsid Hq]. split.
        -- rewrite Hid. apply list_elem_of_fmap_2, company_questions_elem.
           split; [done|]. exists s. split_and!; [done..|]. by left.
        -- rewrite Hans, <- list_fmap_compose, Hid. done.
    + intros q s Hq Hs Hsid Hglobal. split.
      * apply company_questions_elem. split; [done|]. exists s.
        split_and!; [done..|]. by right.
      * intros Hnd Hlisted. rewrite <- list_fmap_compose in Hlisted.
        apply list_elem_of_fmap in Hlisted as (s' & Hid & Hs').
        rewrite order_by_label_perm in Hs'.
        apply list_elem_of_filter in Hs' as [Hc Hs'].
        assert (s = s') as -> by (by apply (NoDup_fmap_eq Section_.id (sections db))).
        congruence.
Qed.

End CompanyListing.

Lemma get_questions_by_company_lists_witness :
  ∃ body,
    get_questions_by_company id 1 sample_db = Return body ∧
    sr_section_id <$> body = [11] ∧
    Question.id <$> company_questions 1 sample_db = [1; 2; 3].
Proof.
  destruct (get_questions_by_company_lists id (λ l, reflexivity l) 1 sample_db)
    as [_ Hfound].
  destruct Hfound as (body & Hrun & _); [compute_done|].
  exists body. split; [exact Hrun|]. injection Hrun as <-. split; reflexivity.
Defined.

(** ** The calls of the collective report *)

Section ReportCalls.
Variable chat_completion : string → completion.
Variable smtp_send : string → option string.
Variable smtp_email smtp_password : option string.
Variable format_number : Q → string.

Lemma report_loop_calls db questions : ∀ idx report calls r,
  report_loop chat_completion format_number db idx questions report = (calls, r) →
  ∃ prompts,
    calls = TextGeneration <$> prompts ∧
    (length prompts ≤ length (answered db questions))%nat ∧
    match r with
    | Return report' =>
        length report' = (length report + length prompts)%nat ∧
        length prompts = length (answered db questions) ∧
        Forall (λ p, ∃ content, chat_completion p = Completed content) prompts
    | HTTPException status_code detail =>
        status_code = 500 ∧
        ∃ p e, p ∈ prompts ∧ chat_completion p = Failed e ∧
               detail = String.append "Error generating feedback: " e
    end.
Proof.
  unfold answered.
  induction questions as [|q rest IH]; intros idx report calls r.
  - cbn [report_loop]. intros [= <- <-]. exists []. simpl. by split_and!.
  - cbn [report_loop]. rewrite filter_cons.
    destruct (answers_to db q) as [|a l] eqn:Ea.
    + rewrite decide_False by (intros H; by apply H). apply IH.
    + rewrite decide_True by done.
      assert (∃ avg, match ratings_of (a :: l) with
                     | [] => Some None
                     | _ => m ← mean (ratings_of (a :: l)); Some (Some (round m 2))
                     end = Some avg) as [avg ->].
      { destruct (ratings_of (a :: l)) as [|x xs] eqn:Er; [eauto|].
        rewrite mean_Some by done. simpl. eauto. }
      unfold io_bind, generate_feedback.
      set (prompt := report_prompt format_number idx q avg (a :: l)).
      destruct (chat_completion prompt) as [content|e] eqn:Echat.
      * destruct (report_loop _ _ _ _ _ _) as [calls' r'] eqn:Eloop.
        intros [= <- <-].
        destruct (IH _ _ _ _ Eloop) as (prompts & -> & Hle & Hr).
        exists (prompt :: prompts). split; [done|]. split; [simpl; lia|].
        destruct r' as [report'|code detail].
        -- destruct Hr as (Hlen & Hall & Hdone). rewrite length_app in Hlen.
           simpl in *. split_and!; [lia|lia|]. constructor; eauto.
        -- destruct Hr as (-> & p & e & Hp & Hfail & ->). split; [done|].
           exists p, e. split_and!; [by right|done..].
      * intros [= <- <-]. exists [prompt]. split; [done|]. split; [simpl; lia|].
        split; [done|]. exists prompt, e. split_and!; [left|done..].
Qed.

(** Property X24. Whatever generate_collective_feedback_report returns, its
    calls are text-generation calls followed by at most one mail. There are at
    most as many generation calls as questions with an answer, and exactly as
    many when all of them completed; then, if there is any and SMTP credentials
    are configured, exactly one mail follows. A failed generation ends the run
    with 500 "Error generating feedback: ..." and no mail. A FileResponse is
    returned only after the relay accepted one mail with the very content of the
    file. *)
Theorem collective_report_calls db calls response :
  generate_collective_feedback_report chat_completion smtp_send smtp_email
    smtp_password format_number db = (calls, response) →
  ∃ prompts mails,
    calls = (TextGeneration <$> prompts) ++ (SendMail <$> mails) ∧
    (length prompts ≤ length (answered db (questions db)))%nat ∧
    (length mails ≤ 1)%nat ∧
    ((∀ p, p ∈ prompts → ∃ content, chat_completion p = Completed content) →
     length prompts = length (answered db (questions db)) ∧
     (prompts ≠ [] → truthy_str smtp_email && truthy_str smtp_password = true →
      length mails = 1%nat)) ∧
    ((∃ p e, p ∈ prompts ∧ chat_completion p = Failed e) →
     mails = [] ∧
     ∃ e, response = HTTPException 500 (String.append "Error generating feedback: " e)) ∧
    (∀ filename media_type content,
       response = Return (FileResponse filename media_type content) →
       mails = [content] ∧ smtp_send content = None).
Proof.
  unfold generate_collective_feedback_report.
  destruct (questions db) as [|q rest] eqn:Eq.
  { intros [= <- <-]. exists [], []. split_and!; try done.
    - simpl. lia.
    - by intros (p & e & ?%elem_of_nil & _). }
  unfold io_bind.
  destruct (report_loop _ _ _ _ _ _) as [calls0 r] eqn:Eloop.
  destruct (report_loop_calls _ _ _ _ _ _ Eloop) as (prompts & -> & Hle & Hr).
  destruct r as [report|code detail].
  - destruct Hr as (Hlen & Hall & Hdone). simpl in Hlen.
    assert (Hnofail : ¬ ∃ p e, p ∈ prompts ∧ chat_completion p = Failed e).
    { intros (p & e & Hp & Hfail). rewrite Forall_forall in Hdone.
      destruct (Hdone p Hp) as [content Hc]. congruence. }
    destruct report as [|entry report].
    + intros [= <- <-]. exists prompts, []. rewrite !app_nil_r.
      split_and!; try done.
      * simpl. lia.
      * intros _. split; [done|]. intros Hne. destruct prompts; [done|].
        simpl in Hlen. lia.
    + unfold send_feedback_email_to_admin_with_attachment.
      destruct (truthy_str smtp_email && truthy_str smtp_password) eqn:Ecred.
      * destruct (smtp_send _) as [e|] eqn:Esend; intros [= <- <-].
        -- eexists prompts, [_]. split_and!; try done.
        -- eexists prompts, [_]. split_and!; try done.
           intros filename media_type content [= <- <- <-]. by split.
      * intros [= <- <-]. exists prompts, []. rewrite !app_nil_r.
        split_and!; try done. simpl. lia.
  - destruct Hr as (-> & p & e & Hp & Hfail & ->).
    intros [= <- <-]. exists prompts, []. rewrite app_nil_r.
    split_and!; try done.
    + simpl. lia.
    + intros Hall. destruct (Hall p Hp) as [content Hc]. congruence.
    + intros _. split; [done|]. eauto.
Qed.

End ReportCalls.

Lemma collective_report_calls_witness :
  ∃ prompts mails,
    (generate_collective_feedback_report (λ _, Completed " mixed ") (λ _, None)
       (Some "relay@example.com") (Some "secret") sample_format_number rated_db).1
    = (TextGeneration <$> prompts) ++ (SendMail <$> mails) ∧
    length prompts = 1%nat ∧ length mails = 1%nat.
Proof.
  destruct (collective_report_calls (λ _, Completed " mixed ") (λ _, None)
              (Some "relay@example.com") (Some "secret") sample_format_number rated_db
              _ _ eq_refl)
    as (prompts & mails & Hcalls & _ & _ & Hall & _).
  exists prompts, mails. split; [exact Hcalls|].
  destruct Hall as [Hlen Hmail]; [eauto|].
  split; [exact Hlen|]. apply Hmail; [|reflexivity].
  intros ->. discriminate Hlen.
Defined.

(** ** Text clean-up *)

Lemma longest_run_ge run s : (run ≤ longest_run run s)%nat.
Proof.
  revert run. induction s as [|c s IH]; intros run; simpl; [lia|].
  destruct (isspace c); [lia|]. specialize (IH (S run)). lia.
Qed.

Lemma longest_run_prefix k : ∀ s run,
  (longest_run run (substring 0 k s) ≤ longest_run run s)%nat.
Proof.
  induction k as [|k IH]; intros s run.
  - destruct s; simpl; [lia|]. apply (longest_run_ge run (String a s)).
  - destruct s as [|c s]; simpl; [lia|].
    destruct (isspace c).
    + specialize (IH s 0%nat). lia.
    + apply IH.
Qed.

Lemma length_substring_le i : ∀ m s, (String.length (substring i m s) ≤ m)%nat.
Proof.
  induction i as [|i IH]; intros m s.
  - revert s. induction m as [|m IHm]; intros s; destruct s; simpl; try lia.
    specialize (IHm s). lia.
  - destruct s; simpl; [lia|]. apply IH.
Qed.

Lemma no_space_substring i : ∀ m s,
  no_space s = true → no_space (substring i m s) = true.
Proof.
  induction i as [|i IH]; intros m s.
  - revert s. induction m as [|m IHm]; intros s; destruct s; simpl; try done.
    intros [Hc Hs]%andb_true_iff. rewrite Hc. simpl. by apply IHm.
  - destruct s; simpl; [done|]. intros [_ Hs]%andb_true_iff. by apply IH.
Qed.

Lemma no_space_snoc word c :
  no_space word = true → isspace c = false →
  no_space (String.append word (String c "")) = true.
Proof.
  intros Hw Hc. induction word as [|d word IH]; rewrite ?append_cons; simpl.
  - change (String.append "" (String c "")) with (String c ""). simpl. by rewrite Hc.
  - simpl in Hw. apply andb_true_iff in Hw as [Hd Hw]. rewrite Hd. simpl. by apply IH.
Qed.

Lemma split_whitespace_words text : ∀ word,
  no_space word = true →
  Forall (λ w, no_space w = true) (split_whitespace word text).
Proof.
  induction text as [|c text IH]; intros word Hword; simpl.
  - destruct (String.eqb word ""); by repeat constructor.
  - destruct (isspace c) eqn:Ec.
    + destruct (String.eqb word ""); [by apply IH|]. constructor; [done|by apply IH].
    + by apply IH, no_space_snoc.
Qed.

Lemma longest_run_no_space body : ∀ run rest,
  no_space body = true →
  longest_run run (String.append body rest)
  = longest_run (run + String.length body) rest.
Proof.
  induction body as [|c body IH]; intros run rest Hbody.
  - change (String.append "" rest) with rest. simpl. f_equal. lia.
  - rewrite append_cons. simpl in *. apply andb_true_iff in Hbody as [Hc Hbody].
    apply negb_true_iff in Hc. rewrite Hc, IH by done. f_equal. lia.
Qed.

(** What [broken_text] holds: a word or a piece of one, of at most [n]
    characters, with or without a space after it. *)
Lemma longest_run_join n (pieces : list string) :
  Forall (λ p, ∃ body, no_space body = true ∧ (String.length body ≤ n)%nat ∧
                       (p = body ∨ p = String.append body " ")) pieces →
  (longest_run 0 (join " " pieces) ≤ n)%nat.
Proof.
  induction 1 as [|p pieces (body & Hbody & Hlen & Hp) _ IH]; [simpl; lia|].
  assert (longest_run 0 " " = 0%nat) as Hsp by done.
  destruct pieces as [|q pieces].
  - cbn [join]. destruct Hp as [-> | ->].
    + rewrite <- (append_empty_r body), longest_run_no_space by done. exact Hlen.
    + rewrite longest_run_no_space by done. simpl. apply Nat.max_lub; lia.
  - cbn [join] in *. set (rest := join " " (q :: pieces)) in *.
    destruct Hp as [-> | ->].
    + rewrite longest_run_no_space by done. rewrite append_cons. simpl.
      change (String.append "" rest) with rest. apply Nat.max_lub; [lia|exact IH].
    + rewrite <- append_assoc, longest_run_no_space by done.
      rewrite !append_cons. simpl. change (String.append "" rest) with rest.
      repeat apply Nat.max_lub; first [exact IH|lia].
Qed.

Lemma range_positive stop step :
  0 < step → ∃ indices, range stop step = Some indices.
Proof.
  intros Hpos. unfold range. rewrite decide_False by lia.
  rewrite decide_False by lia. eauto.
Qed.

Lemma break_words_pieces chunk_size words :
  0 < chunk_size →
  Forall (λ w, no_space w = true) words →
  ∃ broken_text,
    break_words chunk_size words = Some broken_text ∧
    Forall (λ p, ∃ body, no_space body = true ∧
                         (String.length body ≤ Z.to_nat chunk_size)%nat ∧
                         (p = body ∨ p = String.append body " ")) broken_text.
Proof.
  intros Hpos. induction 1 as [|word words Hword _ (broken & Hbroken & Hpieces)].
  - exists []. by split.
  - cbn [break_words]. rewrite Hbroken. case_decide as Hlong.
    + destruct (range_positive (String.length word) chunk_size Hpos) as [indices ->].
      simpl. eexists. split; [done|]. apply Forall_app. split; [|done].
      apply Forall_fmap, Forall_forall. intros i _. simpl.
      exists (substring i (Z.to_nat chunk_size) word). split_and!.
      * by apply no_space_substring.
      * apply length_substring_le.
      * by right.
    + simpl. eexists. split; [done|]. constructor; [|done].
      exists word. split_and!; [done|lia|by left].
Qed.

(** Property X25. For max_length >= 0 and chunk_size > 0, sanitize_text returns
    (it does not raise) a string of at most max_length characters in which no
    run of characters without white space is longer than chunk_size. *)
Theorem sanitize_text_bounds text max_length chunk_size :
  0 ≤ max_length →
  0 < chunk_size →
  ∃ result,
    sanitize_text text max_length chunk_size = Some result ∧
    (String.length result ≤ Z.to_nat max_length)%nat ∧
    (longest_run 0 result ≤ Z.to_nat chunk_size)%nat.
Proof.
  intros Hmax Hchunk. unfold sanitize_text.
  destruct (String.eqb text "").
  { exists "". split; [done|]. simpl. lia. }
  destruct (break_words_pieces chunk_size
              (split_whitespace "" (sub_whitespace false text)) Hchunk)
    as (broken & -> & Hpieces); [by apply split_whitespace_words|].
  simpl. eexists. split; [done|]. unfold slice_to. rewrite decide_True by done.
  split; [apply length_substring_le|].
  etrans; [apply longest_run_prefix|]. by apply longest_run_join.
Qed.

Lemma sanitize_text_bounds_witness :
  sanitize_text "abcdefghijkl mn" 10 5 = Some "abcde  fgh".
Proof.
  destruct (sanitize_text_bounds "abcdefghijkl mn" 10 5) as (result & Hrun & _);
    [lia|lia|].
  rewrite Hrun. vm_compute in Hrun. by injection Hrun as <-.
Defined.

Lemma split_whitespace_all_space text :
  all_space text = true → split_whitespace "" text = [].
Proof.
  induction text as [|c text IH]; [done|]. simpl.
  intros [Hc Hs]%andb_true_iff. rewrite Hc. by apply IH.
Qed.

Lemma split_whitespace_cons text : ∀ word,
  word ≠ "" → ∃ w words, split_whitespace word text = w :: words ∧ w ≠ "".
Proof.
  induction text as [|c text IH]; intros word Hword; simpl.
  - apply String.eqb_neq in Hword as Hw. rewrite Hw. eauto.
  - destruct (isspace c).
    + apply String.eqb_neq in Hword as Hw. rewrite Hw. eauto.
    + apply IH. by destruct word.
Qed.

Lemma split_whitespace_word text :
  all_space text = false → ∃ w words, split_whitespace "" text = w :: words ∧ w ≠ "".
Proof.
  induction text as [|c text IH]; [done|]. simpl.
  destruct (isspace c); simpl.
  - apply IH.
  - intros _. by apply split_whitespace_cons.
Qed.

Lemma all_space_sub_whitespace text : ∀ in_run,
  all_space (sub_whitespace in_run text) = all_space text.
Proof.
  induction text as [|c text IH]; intros in_run; [done|]. simpl.
  destruct (isspace c) eqn:Ec; simpl.
  - destruct in_run; simpl; by rewrite ?IH.
  - by rewrite Ec.
Qed.

Lemma slice_to_empty stop : slice_to stop "" = "".
Proof.
  unfold slice_to. case_decide.
  - by destruct (Z.to_nat stop).
  - simpl. by destruct (Z.to_nat (- stop)).
Qed.

(** Property X26. sanitize_text returns the empty string for a text that is
    empty or consists of white space only, whatever max_length and chunk_size;
    for a text that has a word it raises (the ValueError of range with step 0)
    when chunk_size is 0, and returns the empty string when chunk_size is
    negative (every word is dropped). *)
Theorem sanitize_text_degenerate text max_length chunk_size :
  (all_space text = true → sanitize_text text max_length chunk_size = Some "") ∧
  (all_space text = false →
   (chunk_size = 0 → sanitize_text text max_length chunk_size = None) ∧
   (chunk_size < 0 → sanitize_text text max_length chunk_size = Some "")).
Proof.
  unfold sanitize_text. split.
  - intros Hspace. destruct (String.eqb text ""); [done|].
    rewrite split_whitespace_all_space by by rewrite all_space_sub_whitespace.
    simpl. by rewrite slice_to_empty.
  - intros Hword.
    assert (String.eqb text "" = false) as -> by by destruct text.
    split.
    + intros ->.
      destruct (split_whitespace_word (sub_whitespace false text))
        as (w & words & -> & Hw); [by rewrite all_space_sub_whitespace|].
      cbn [break_words]. rewrite decide_True by (destruct w; simpl; [done|lia]).
      done.
    + intros Hneg.
      assert (∀ words, Forall (λ w, w ≠ "") words →
                       break_words chunk_size words = Some []) as Hdrop.
      { induction 1 as [|w words Hw _ IH]; [done|].
        cbn [break_words]. rewrite decide_True by lia.
        unfold range. rewrite decide_False by lia. rewrite decide_True by done.
        simpl. by rewrite IH. }
      rewrite Hdrop.
      * simpl. by rewrite slice_to_empty.
      * clear. generalize (sub_whitespace false text). intros s.
        assert (∀ word, Forall (λ w, w ≠ "") (split_whitespace word s)) as Hall.
        { induction s as [|c s IH]; intros word; simpl.
          - destruct (String.eqb word "") eqn:E; [constructor|].
            apply String.eqb_neq in E. by repeat constructor.
          - destruct (isspace c); [|apply IH].
            destruct (String.eqb word "") eqn:E; [apply IH|].
            apply String.eqb_neq in E. constructor; [done|apply IH]. }
        apply Hall.
Qed.

Lemma sanitize_text_degenerate_witness :
  sanitize_text "abcdefghijkl mn" 100 0 = None ∧
  sanitize_text no_break_space 100 0 = Some "".
Proof.
  split.
  - destruct (sanitize_text_degenerate "abcdefghijkl mn" 100 0) as [_ Hword].
    destruct (Hword eq_refl) as [Hzero _]. by apply Hzero.
  - destruct (sanitize_text_degenerate no_break_space 100 0) as [Hspace _].
    by apply Hspace.
Defined.

(** ** What deleting a company does to the listings *)

Section DeleteCompanyListing.
Variable order_by_label : list Section_.t → list Section_.t.
Hypothesis order_by_label_perm : ∀ l, order_by_label l ≡ₚ l.

(** Property X27. After delete_company of a stored company, get_users_by_company
    and get_questions_by_company answer 404 "Company not found" for it; every
    section and question that get_question listed for a user is still listed for
    that user, and the sections that belonged to the company, together with
    their questions, are now listed for every user. *)
Theorem delete_company_publishes_sections company_id db :
  company_id ∈ (Company.id <$> companies db) →
  ∃ message db',
    delete_company company_id db = (Return message, db') ∧
    get_users_by_company company_id db' = HTTPException 404 "Company not found" ∧
    get_questions_by_company order_by_label company_id db'
    = HTTPException 404 "Company not found" ∧
    (∀ user sid,
       sid ∈ listed_section_ids (returned (get_question order_by_label user db)) →
       sid ∈ listed_section_ids (returned (get_question order_by_label user db'))) ∧
    (∀ user qid,
       qid ∈ listed_question_ids (returned (get_question order_by_label user db)) →
       qid ∈ listed_question_ids (returned (get_question order_by_label user db'))) ∧
    (∀ s user,
       s ∈ sections db → Section_.company_id s = Some company_id →
       Section_.id s
       ∈ listed_section_ids (returned (get_question order_by_label user db')) ∧
       ∀ q, q ∈ questions db → Question.section_id q = Some (Section_.id s) →
            Question.id q
            ∈ listed_question_ids (returned (get_question order_by_label user db'))).
Proof.
  intros Hin. apply (first_by_key Company.id) in Hin as [company E].
  unfold delete_company. rewrite E. apply first_Some in E as [_ Hid]. rewrite Hid.
  unfold update_users_company_null, update_sections_company_null.
  eexists _, _. split; [reflexivity|].
  unfold delete_company_row.
  cbn [companies sections questions user_answers users profiles user_answers_id_seq].
  rewrite !clear_company_twice by done.
  set (db' := mk_db _ _ _ _ _ _ _).
  assert (Hgone : first (λ c, Company.id c = company_id) (companies db') = None).
  { apply first_None. intros c [Hne _]%list_elem_of_filter. done. }
  assert (Hvisible : ∀ cid s,
            visible_to cid s →
            visible_to cid
              (clear_company Section_.company_id section_set_null company_id s)).
  { intros cid s Hv. unfold clear_company. case_decide; [|done].
    unfold visible_to. destruct cid; [by right|done]. }
  assert (Hpublic : ∀ cid s,
            Section_.company_id s = Some company_id →
            visible_to cid
              (clear_company Section_.company_id section_set_null company_id s)).
  { intros cid s Hs. unfold clear_company. rewrite decide_True by done.
    unfold visible_to. destruct cid; [by right|done]. }
  assert (Hsid : ∀ s,
            Section_.id
              (clear_company Section_.company_id section_set_null company_id s)
            = Section_.id s).
  { intros s. unfold clear_company. by case_decide. }
  split_and!.
  - unfold get_users_by_company. by rewrite Hgone.
  - unfold get_questions_by_company. by rewrite Hgone.
  - intros user sid.
    rewrite !(listed_section_ids_elem order_by_label order_by_label_perm).
    intros (s & Hs & <- & Hv). eexists. split_and!.
    + unfold db'. cbn [sections]. by apply list_elem_of_fmap_2.
    + apply Hsid.
    + by apply Hvisible.
  - intros user qid.
    rewrite !(listed_question_ids_elem order_by_label order_by_label_perm).
    intros (q & s & Hq & Hs & <- & Hqs & Hv). exists q. eexists. split_and!.
    + done.
    + unfold db'. cbn [sections]. by apply list_elem_of_fmap_2.
    + done.
    + by rewrite Hsid.
    + by apply Hvisible.
  - intros s user Hs Hc. split.
    + rewrite (listed_section_ids_elem order_by_label order_by_label_perm).
      eexists. split_and!.
      * unfold db'. cbn [sections]. by apply list_elem_of_fmap_2.
      * apply Hsid.
      * by apply Hpublic.
    + intros q Hq Hqs.
      rewrite (listed_question_ids_elem order_by_label order_by_label_perm).
      exists q. eexists. split_and!.
      * done.
      * unfold db'. cbn [sections]. by apply list_elem_of_fmap_2.
      * done.
      * by rewrite Hsid.
      * by apply Hpublic.
Qed.

End DeleteCompanyListing.

Lemma delete_company_publishes_sections_witness :
  ∃ message db',
    delete_company 1 sample_db = (Return message, db') ∧
    listed_section_ids (returned (get_question id (IsProfile bob) sample_db)) = [10] ∧
    listed_section_ids (returned (get_question id (IsProfile bob) db')) = [10; 11].
Proof.
  destruct (delete_company_publishes_sections id (λ l, reflexivity l) 1 sample_db)
    as (message & db' & Hrun & _); [compute_done|].
  exists message, db'. split; [exact Hrun|]. injection Hrun as <- <-.
  split; reflexivity.
Defined.
